(** * asf_tools/composite.py: inverse-area weighted SAR mosaics

    A shallow embedding of [composite.py] and the properties of its
    extent union, common-grid reprojection, weighted accumulation and
    finalisation.

    Conventions of the embedding
    - file names and projection strings are [string];
    - ground coordinates, pixel sizes and the requested resolution are exact
      rationals [Qc]: every finite double is one, and comparisons, [min] and
      [max] on them agree with those of the doubles; where the code
      subtracts, divides or adds them, the operands become doubles again
      ([Num.to_float]) and the operation is the binary64 one, so that
      [int()] truncates the rounded result;
    - raster samples are [float]s tagged with the sample type of their band:
      a Float32 band holds binary32 numbers, and arithmetic between such
      arrays is binary32 arithmetic ([F32]); the grids of [np.zeros] are
      binary64; NaN and the rounding of every operation are kept;
    - the coverage counter is a [Z] wrapped to 8 bits after every addition;
    - the file system is a finite map from names to rasters, links and
      directories, threaded through a state-and-exception monad; GDAL
      creates a raster only in a directory that exists;
    - GDAL and hyp3lib calls whose results the repository does not compute
      ([gdal.Warp], [saa.getCorners], [glob.glob], [str.format]) are the
      methods of the class [External], and the formatting of a number by
      the C library is the method of the class [Printf]. *)

From Stdlib Require OrderedTypeEx.
From Stdlib Require Import ZArith QArith Qcanon Qround Floats Ascii Lia Lqa.
From stdpp Require Import base option list strings pretty sorting gmap.

Local Open Scope Z_scope.

(** ** Python strings *)

Module PyStr.

(** [sub in s] *)
Fixpoint contains (sub s : string) : bool :=
  String.prefix sub s ||
  match s with
  | EmptyString => false
  | String _ s' => contains sub s'
  end.

(** [s.find(sub)], returned as the suffix [s[ptr:]] when [ptr != -1]. *)
Fixpoint find_suffix (sub s : string) : option string :=
  if String.prefix sub s then Some s
  else match s with
       | EmptyString => None
       | String _ s' => find_suffix sub s'
       end.

(** Left-to-right scan of [s.replace(old, new)] for a non-empty [old];
    [skip] counts the characters of a match that are still to be dropped. *)
Fixpoint replace_go (old new : string) (skip : nat) (s : string) : string :=
  match s with
  | EmptyString => EmptyString
  | String c s' =>
      match skip with
      | S k => replace_go old new k s'
      | O =>
          if String.prefix old s
          then new +:+ replace_go old new (Nat.pred (String.length old)) s'
          else String c (replace_go old new O s')
      end
  end.

(** With an empty [old] Python inserts [new] before every character and
    at the end. *)
Fixpoint intersperse (new s : string) : string :=
  match s with
  | EmptyString => new
  | String c s' => new +:+ String c (intersperse new s')
  end.

Definition replace (old new s : string) : string :=
  match old with
  | EmptyString => intersperse new s
  | _ => replace_go old new O s
  end.

(** [list.sort()] on strings: insertion into a sorted list, stable. *)
Fixpoint insert_sorted (x : string) (l : list string) : list string :=
  match l with
  | [] => [x]
  | y :: l' => if String.ltb y x then y :: insert_sorted x l' else x :: l
  end.

Definition sort (l : list string) : list string :=
  foldr insert_sorted [] l.

End PyStr.

(** ** Exceptions *)

Inductive exn : Type :=
| TypeError
| NameError
| AttributeError
| ValueError
| ZeroDivisionError
| OverflowError
| FileExistsError
| IndexError
| KeyError
| Exception (msg : string).

Inductive result (A : Type) : Type :=
| Ok (a : A)
| Raise (e : exn).
Arguments Ok {A} a.
Arguments Raise {A} e.

(** ** get_pol *)

Definition get_pol (infile : string) : result string :=
  if PyStr.contains "VV" infile then Ok "VV"%string
  else if PyStr.contains "VH" infile then Ok "VH"%string
  else if PyStr.contains "HH" infile then Ok "HH"%string
  else if PyStr.contains "HV" infile then Ok "HV"%string
  else Raise (Exception ("Could not determine polarization of file " +:+ infile)).

(** ** frange *)

(** ["%g" % x], whose digits are computed by the C library. *)
Class Printf : Type := { format_g : float → string }.

(** The rebinding of the arguments before the loop: [stop == None] moves
    [start] to [stop] and starts from 0.0; [step == None] steps by 1.0. *)
Definition frange_args (start : float) (stop step : option float)
    : float * float * float :=
  let '(start, stop) :=
    match stop with
    | None => (0%float, (start + 0)%float)
    | Some stop => (start, stop)
    end in
  (start, stop, default 1%float step).

(** The loop [while True] for at most [fuel] rounds: the numbers that are
    yielded, and whether the loop has reached [break]. *)
Fixpoint frange_loop (fuel : nat) (start stop step : float) : list float * bool :=
  match fuel with
  | O => ([], false)
  | S k =>
      if (0 <? step)%float && (stop <=? start)%float then ([], true)
      else if (step <? 0)%float && (start <=? stop)%float then ([], true)
      else
        let '(l, finished) := frange_loop k (start + step)%float stop step in
        (start :: l, finished)
  end.

(** The numbers the generator yields in its first [fuel] rounds, and the
    strings it yields for them. *)
Definition frange_values (fuel : nat) (start : float)
    (stop step : option float) : list float * bool :=
  let '(start, stop, step) := frange_args start stop step in
  frange_loop fuel start stop step.
Definition frange `{Printf} (fuel : nat) (start : float)
    (stop step : option float) : list string * bool :=
  let '(l, finished) := frange_values fuel start stop step in
  (format_g <$> l, finished).

(** ** Exact numbers *)

Module Num.

Definition ltb (x y : Qc) : bool :=
  match (x ?= y)%Qc with Lt => true | _ => false end.

(** Python's two-argument [min(a, b)] and [max(a, b)]: the first argument
    is kept unless the second is strictly better. *)
Definition py_min (a b : Qc) : Qc := if ltb b a then b else a.
Definition py_max (a b : Qc) : Qc := if ltb a b then b else a.

Definition of_Z (z : Z) : Qc := Q2Qc (inject_Z z).

(** [int(x)] on an exact number: truncation toward zero. *)
Definition int (x : Qc) : Z := Z.quot (Qnum x) (Zpos (Qden x)).

(** Truth value of a number. *)
Definition truthy (x : Qc) : bool := negb (Qc_eq_bool x 0).

(** The double nearest to [x], ties to even: [x] itself when [x] is a
    double. The quotient of the two integers is rounded once. *)
Definition to_float (x : Qc) : float :=
  match Qnum x with
  | Z0 => 0%float
  | Zpos n =>
      SF2Prim (SFdiv prec emax (S754_finite false n 0)
                 (S754_finite false (Qden x) 0))
  | Zneg n =>
      SF2Prim (SFdiv prec emax (S754_finite true n 0)
                 (S754_finite false (Qden x) 0))
  end.

(** [float(z)] for a Python int, as in [out_loc_x + x_size]. *)
Definition float_of_Z (z : Z) : float :=
  SF2Prim (binary_normalize prec emax z 0 false).

(** [int(f)] on a float: truncation toward zero; NaN raises ValueError
    and an infinity OverflowError. *)
Definition py_int (f : float) : result Z :=
  match Prim2SF f with
  | S754_nan => Raise ValueError
  | S754_infinity _ => Raise OverflowError
  | S754_zero _ => Ok 0
  | S754_finite s m e =>
      let z := if 0 <=? e then Zpos m * 2 ^ e else Zpos m / 2 ^ (- e) in
      Ok (if s then - z else z)
  end.

End Num.

(** ** Sample types *)

(** The two floating-point sample types of a band and of a numpy array. *)
Inductive dtype : Type := Float32 | Float64.

(** Binary32 arithmetic on numbers held as [float]: every binary32 number
    is a double, and the operations are those of the IEEE specification at
    precision 24. *)
Module F32.

(** The cast of a double to binary32. *)
Definition round (x : float) : float :=
  match Prim2SF x with
  | S754_finite s m e => SF2Prim (binary_round 24 128 s m e)
  | _ => x
  end.

Definition mul (a b : float) : float :=
  SF2Prim (SFmul 24 128 (Prim2SF a) (Prim2SF b)).

Definition div (a b : float) : float :=
  SF2Prim (SFdiv 24 128 (Prim2SF a) (Prim2SF b)).

End F32.

(** numpy's result type of an operation between two arrays, and the
    operations at a sample type; a Python float as the other operand leaves
    the type of the array. *)
Definition promote (s t : dtype) : dtype :=
  match s, t with
  | Float32, Float32 => Float32
  | _, _ => Float64
  end.

Definition fmul (t : dtype) (a b : float) : float :=
  match t with
  | Float32 => F32.mul a b
  | Float64 => (a * b)%float
  end.

Definition fdiv (t : dtype) (a b : float) : float :=
  match t with
  | Float32 => F32.div a b
  | Float64 => (a / b)%float
  end.

(** ** get_full_extent *)

(** A corner record [fi, ulx, lrx, lry, uly]. *)
Definition corner : Type := string * Qc * Qc * Qc * Qc.

Definition c_ulx (c : corner) : Qc := let '(_, ulx, _, _, _) := c in ulx.
Definition c_lrx (c : corner) : Qc := let '(_, _, lrx, _, _) := c in lrx.
Definition c_lry (c : corner) : Qc := let '(_, _, _, lry, _) := c in lry.
Definition c_uly (c : corner) : Qc := let '(_, _, _, _, uly) := c in uly.

(** The result [min_ulx, max_lrx, max_uly, min_lry]. *)
Definition extent : Type := Qc * Qc * Qc * Qc.

Definition extent_seed : extent :=
  (Num.of_Z 50000000, Num.of_Z 0, Num.of_Z 0, Num.of_Z 50000000).

Definition extent_step (acc : extent) (c : corner) : extent :=
  let '(min_ulx, max_lrx, max_uly, min_lry) := acc in
  let '(_, ulx, lrx, lry, uly) := c in
  (Num.py_min ulx min_ulx, Num.py_max lrx max_lrx,
   Num.py_max uly max_uly, Num.py_min lry min_lry).

Definition get_full_extent (corners : list corner) : extent :=
  fold_left extent_step corners extent_seed.

(** ** numpy arrays of rank 2 *)

Record ndarray (A : Type) : Type := NDArray {
  shape0 : nat;
  shape1 : nat;
  rows : list (list A)
}.
Arguments NDArray {A} shape0 shape1 rows.
Arguments shape0 {A} _.
Arguments shape1 {A} _.
Arguments rows {A} _.

Module Np.

Section Access.
Context {A : Type}.

(** [a[i, j]] for indices inside the shape. *)
Definition at_ (a : ndarray A) (i j : nat) : option A :=
  rows a !! i ≫= (.!! j).

(** Total read; the default is never reached on an array whose rows
    agree with its shape. *)
Definition item (d : A) (a : ndarray A) (i j : nat) : A :=
  default d (at_ a i j).

Definition build (r c : nat) (f : nat → nat → A) : ndarray A :=
  NDArray r c ((λ i, f i <$> seq 0 c) <$> seq 0 r).

(** [np.zeros((r, c))] with [z] the zero of the element type. *)
Definition zeros (z : A) (r c : nat) : ndarray A :=
  NDArray r c (replicate r (replicate c z)).
End Access.

(** Broadcasting of one axis: equal lengths, or one of them 1. *)
Definition bdim (m n : nat) : option nat :=
  if (m =? n)%nat then Some m
  else if (m =? 1)%nat then Some n
  else if (n =? 1)%nat then Some m
  else None.

(** Index into an axis that may have been stretched from length 1. *)
Definition bidx (dim i : nat) : nat := if (dim =? 1)%nat then O else i.

Section Elementwise.
Context {A B C : Type}.

(** Element-wise unary operation, also [a[a == 0] = k] and [astype]. *)
Definition map (f : A → B) (a : ndarray A) : ndarray B :=
  NDArray (shape0 a) (shape1 a) (fmap (M:=list) (fmap (M:=list) f) (rows a)).

(** Element-wise binary operation with broadcasting; shapes that do not
    broadcast raise ValueError. *)
Definition broadcast2 (f : A → B → C) (da : A) (db : B)
    (x : ndarray A) (y : ndarray B) : result (ndarray C) :=
  match bdim (shape0 x) (shape0 y), bdim (shape1 x) (shape1 y) with
  | Some r, Some c =>
      Ok (build r c (λ i j,
            f (item da x (bidx (shape0 x) i) (bidx (shape1 x) j))
              (item db y (bidx (shape0 y) i) (bidx (shape1 y) j))))
  | _, _ => Raise ValueError
  end.
End Elementwise.

(** A slice bound [k] of an axis of length [len]: negative bounds count
    from the end, and the result is clipped to [0, len]. *)
Definition bound (len : nat) (k : Z) : nat :=
  if k <? 0 then Z.to_nat (Z.max 0 (k + Z.of_nat len))
  else Z.to_nat (Z.min k (Z.of_nat len)).

(** [lo <= i < hi] *)
Definition within (lo hi i : nat) : bool := (lo <=? i)%nat && (i <? hi)%nat.

(** The right-hand side of an in-place operation broadcasts to the
    slice: each axis has the slice's length or length 1. *)
Definition fits (n len : nat) : bool := (n =? len)%nat || (n =? 1)%nat.

Section InPlace.
Context {A B : Type}.

(** [g[r0:r1, c0:c1] op= x] *)
Definition iop_slice (f : A → B → A) (d : B) (g : ndarray A)
    (r0 r1 c0 c1 : Z) (x : ndarray B) : result (ndarray A) :=
  let rlo := bound (shape0 g) r0 in
  let rhi := bound (shape0 g) r1 in
  let clo := bound (shape1 g) c0 in
  let chi := bound (shape1 g) c1 in
  if fits (shape0 x) (rhi - rlo) && fits (shape1 x) (chi - clo) then
    Ok (NDArray (shape0 g) (shape1 g)
          (imap (λ i row,
             imap (λ j a,
               if within rlo rhi i && within clo chi j
               then f a (item d x (bidx (shape0 x) (i - rlo))
                                  (bidx (shape1 x) (j - clo)))
               else a) row) (rows g)))
  else Raise ValueError.

(** [g[r0:r1, c0:c1] op= k] for a scalar [k]. *)
Definition iop_slice_scalar (f : A → A) (g : ndarray A)
    (r0 r1 c0 c1 : Z) : ndarray A :=
  let rlo := bound (shape0 g) r0 in
  let rhi := bound (shape0 g) r1 in
  let clo := bound (shape1 g) c0 in
  let chi := bound (shape1 g) c1 in
  NDArray (shape0 g) (shape1 g)
    (imap (λ i row,
       imap (λ j a, if within rlo rhi i && within clo chi j then f a else a)
         row) (rows g)).
End InPlace.

(** [g /= w] on arrays of one shape. *)
Definition idiv (g w : ndarray float) : ndarray float :=
  NDArray (shape0 g) (shape1 g)
    (imap (λ i row, imap (λ j a, (a / item nan w i j)%float) row) (rows g)).

End Np.

(** ** Fixed-width integers *)

(** Two's-complement wrap-around to [w] bits. *)
Definition wrap (w : Z) (z : Z) : Z :=
  (z + 2 ^ (w - 1)) mod 2 ^ w - 2 ^ (w - 1).

Definition int8_add (a b : Z) : Z := wrap 8 (a + b).

(** [astype(np.int16)] of an int8 value. *)
Definition int16_of_int8 (z : Z) : Z := wrap 16 z.

(** ** Datasets and the file system *)

(** The six coefficients of a GDAL geotransform; [gt1] is the pixel width
    and [gt5] the pixel height. *)
Record geotransform : Type := GeoTransform {
  gt0 : Qc; gt1 : Qc; gt2 : Qc; gt3 : Qc; gt4 : Qc; gt5 : Qc
}.

(** [FloatBand] is a band of type Float32, the type that
    [saa.write_gdal_file_float] creates. *)
Inductive band : Type :=
| FloatBand (a : ndarray float)
| Float64Band (a : ndarray float)
| Int16Band (a : ndarray Z).

Record dataset : Type := Dataset {
  GetGeoTransform : geotransform;
  GetProjection : string;
  GetRasterBand : band;
  NoDataValue : option float
}.

Definition RasterXSize (d : dataset) : Z :=
  match GetRasterBand d with
  | FloatBand a => Z.of_nat (shape1 a)
  | Float64Band a => Z.of_nat (shape1 a)
  | Int16Band a => Z.of_nat (shape1 a)
  end.

Definition RasterYSize (d : dataset) : Z :=
  match GetRasterBand d with
  | FloatBand a => Z.of_nat (shape0 a)
  | Float64Band a => Z.of_nat (shape0 a)
  | Int16Band a => Z.of_nat (shape0 a)
  end.

(** A name holds a raster, a symbolic link to another name or a
    directory; names are taken as they are written, relative to one
    working directory. *)
Inductive entry : Type :=
| File (d : dataset)
| Link (target : string)
| Dir.

Abbreviation store := (gmap string entry).

(** Opening a name follows at most 40 links. *)
Fixpoint resolve_links (fuel : nat) (st : store) (name : string) : option dataset :=
  match st !! name with
  | Some (File d) => Some d
  | Some (Link target) =>
      match fuel with
      | S k => resolve_links k st target
      | O => None
      end
  | Some Dir => None
  | None => None
  end.

Definition gdal_Open (st : store) (name : string) : option dataset :=
  resolve_links 40 st name.

(** The directory part of a name: what stands before its last slash,
    [None] for a name without a slash. *)
Fixpoint directory_of (name : string) : option string :=
  match name with
  | EmptyString => None
  | String c rest =>
      match directory_of rest with
      | Some d => Some (String c d)
      | None => if Ascii.eqb c "/" then Some EmptyString else None
      end
  end.

(** The directory of [name] exists: the name lies in the working
    directory, in the root, or in a directory of the file system. *)
Definition directory_exists (st : store) (name : string) : bool :=
  match directory_of name with
  | None => true
  | Some EmptyString => true
  | Some d =>
      match st !! d with
      | Some Dir => true
      | _ => false
      end
  end.

(** [driver.Create(name, xsize, ysize, ...)] succeeds: GDAL refuses a
    raster without pixels and a name in a directory that does not exist. *)
Definition gdal_can_create {A : Type} (st : store) (name : string)
    (data : ndarray A) : bool :=
  negb (shape0 data =? 0)%nat && negb (shape1 data =? 0)%nat &&
  directory_exists st name.

(** The calls into GDAL, hyp3lib and glob whose results are computed
    outside the repository. *)
Class External : Type := {
  (** the raster that [gdal.Warp(dst, src, dstSRS=srs, xRes=res, yRes=res,
      targetAlignedPixels=True, resampleAlg=GRIORA_Cubic)] produces *)
  gdal_Warp_result : dataset → option string → Qc → dataset;
  (** [saa.getCorners], unpacked by the caller as [ulx, lrx, lry, uly] *)
  saa_getCorners : dataset → Qc * Qc * Qc * Qc;
  (** [glob.glob] on the file system at the start of the run *)
  glob_glob : string → list string;
  (** [template.format(arg)] for one positional argument *)
  str_format : string → string → result string
}.

(** ** Computations with state and exceptions *)

Definition M (A : Type) : Type := store → result A * store.

#[export] Instance M_ret : MRet M := λ A a st, (Ok a, st).

#[export] Instance M_bind : MBind M := λ A B f m st,
  match m st with
  | (Ok a, st') => f a st'
  | (Raise e, st') => (Raise e, st')
  end.

#[export] Instance result_ret : MRet result := λ A a, Ok a.

#[export] Instance result_bind : MBind result := λ A B f m,
  match m with
  | Ok a => f a
  | Raise e => Raise e
  end.

Definition raise {A : Type} (e : exn) : M A := λ st, (Raise e, st).

Definition lift {A : Type} (r : result A) : M A := λ st, (r, st).

(** [saa.read_gdal_file_geo(saa.open_gdal_file(fi))]: a name that cannot be
    opened gives [None], whose attributes do not exist. *)
Definition read_gdal_file_geo (fi : string) : M (Z * Z * geotransform * string) :=
  λ st,
    match gdal_Open st fi with
    | Some d => (Ok (RasterXSize d, RasterYSize d, GetGeoTransform d, GetProjection d), st)
    | None => (Raise AttributeError, st)
    end.

(** [saa.read_gdal_file(saa.open_gdal_file(fi))]: the array comes with
    the sample type of the band. Input rasters carry floating-point samples; an
    integer band read as an input is outside the model. *)
Definition read_gdal_file (fi : string)
    : M (Z * Z * geotransform * string * (dtype * ndarray float)) :=
  λ st,
    match gdal_Open st fi with
    | Some d =>
        match GetRasterBand d with
        | FloatBand a =>
            (Ok (RasterXSize d, RasterYSize d, GetGeoTransform d, GetProjection d,
                 (Float32, a)), st)
        | Float64Band a =>
            (Ok (RasterXSize d, RasterYSize d, GetGeoTransform d, GetProjection d,
                 (Float64, a)), st)
        | Int16Band _ => (Raise (Exception "integer band read as input"), st)
        end
    | None => (Raise AttributeError, st)
    end.

(** [saa.write_gdal_file_float(name, trans, proj, data, nodata=0)]: the
    band is created with type Float32 and the array is cast to it; when
    the raster cannot be created, [Create] returns None and the first
    method call on it raises AttributeError. *)
Definition write_gdal_file_float (name : string) (trans : geotransform)
    (proj : string) (data : ndarray float) (nodata : float) : M unit :=
  λ st,
    if gdal_can_create st name data then
      (Ok tt, <[name := File (Dataset trans proj
                                (FloatBand (Np.map F32.round data))
                                (Some nodata))]> st)
    else (Raise AttributeError, st).

(** [saa.write_gdal_file(name, trans, proj, data)] *)
Definition write_gdal_file (name : string) (trans : geotransform)
    (proj : string) (data : ndarray Z) : M unit :=
  λ st,
    if gdal_can_create st name data then
      (Ok tt, <[name := File (Dataset trans proj (Int16Band data) None)]> st)
    else (Raise AttributeError, st).

(** [os.symlink(src, dst)]; the code links a raster that it has just
    opened to a name beside it. *)
Definition os_symlink (src dst : string) : M unit :=
  λ st,
    match st !! dst with
    | Some _ => (Raise FileExistsError, st)
    | None => (Ok tt, <[dst := Link src]> st)
    end.

(** [gdal.Warp(dst, src, ...)]; a source that cannot be opened, or a
    destination that cannot be created, produces no file and no
    exception. *)
Definition gdal_Warp `{External} (dst src : string) (srs : option string)
    (res : Qc) : M unit :=
  λ st,
    match gdal_Open st src with
    | Some d =>
        if directory_exists st dst
        then (Ok tt, <[dst := File (gdal_Warp_result d srs res)]> st)
        else (Ok tt, st)
    | None => (Ok tt, st)
    end.

(** ** get_max_pixel_size *)

Fixpoint get_max_pixel_size_from (pix_size : Qc) (files : list string) : M Qc :=
  match files with
  | [] => mret pix_size
  | fi :: files' =>
      '(x1, y1, t1, p1) ← read_gdal_file_geo fi;
      let tmp := gt1 t1 in
      get_max_pixel_size_from (Num.py_max pix_size tmp) files'
  end.

(** The final test [pix_size == -999] builds an exception object and drops
    it: nothing is raised. *)
Definition get_max_pixel_size (files : list string) : M Qc :=
  get_max_pixel_size_from (Num.of_Z (-999)) files.

(** ** get_zone_from_proj and get_hemisphere *)

Definition is_digit (c : ascii) : bool :=
  let n := nat_of_ascii c in (48 <=? n)%nat && (n <=? 57)%nat.

Definition is_newline (c : ascii) : bool := (nat_of_ascii c =? 10)%nat.

(** The longest prefix of digits and the rest. *)
Fixpoint span_digits (s : string) : string * string :=
  match s with
  | EmptyString => (EmptyString, EmptyString)
  | String c s' =>
      if is_digit c
      then let '(ds, rest) := span_digits s' in (String c ds, rest)
      else (EmptyString, s)
  end.

(** A non-empty string split into all but its last character and the
    last character. *)
Fixpoint unsnoc (c : ascii) (s : string) : string * ascii :=
  match s with
  | EmptyString => (EmptyString, c)
  | String c' s' => let '(init, last) := unsnoc c' s' in (String c init, last)
  end.

(** [re.search("(\d+)(.)", s).groups()]: the leftmost run of digits, as
    long as possible, followed by one character other than a newline; a
    run that ends the line gives up its last digit to the second group. *)
Fixpoint re_search_digits_any (s : string) : option (string * ascii) :=
  match s with
  | EmptyString => None
  | String c s' =>
      if is_digit c then
        let '(ds, rest) := span_digits s' in
        let backtrack :=
          match ds with
          | EmptyString => re_search_digits_any s'
          | String _ _ => Some (unsnoc c ds)
          end in
        match rest with
        | EmptyString => backtrack
        | String d _ => if is_newline d then backtrack else Some (String c ds, d)
        end
      else re_search_digits_any s'
  end.

(** [int(s)] on a string of digits. *)
Fixpoint int_of_digits_from (acc : Z) (s : string) : Z :=
  match s with
  | EmptyString => acc
  | String c s' =>
      int_of_digits_from (10 * acc + (Z.of_nat (nat_of_ascii c) - 48)) s'
  end.

Definition int_of_digits (s : string) : Z := int_of_digits_from 0 s.

(** The pair [(zone, hemi)] both functions compute; [None] when the
    projection does not mention a UTM zone. *)
Definition parse_utm (fi : string) : M (option (Z * string)) :=
  λ st,
    match gdal_Open st fi with
    | None => (Raise AttributeError, st)
    | Some dst =>
        let p1 := GetProjection dst in
        match PyStr.find_suffix "UTM zone " p1 with
        | None => (Ok None, st)
        | Some tail =>
            match re_search_digits_any tail with
            | None => (Raise AttributeError, st)
            | Some (ds, c) => (Ok (Some (int_of_digits ds, String c EmptyString)), st)
            end
        end
    end.

Definition get_hemisphere (fi : string) : M (option string) :=
  zh ← parse_utm fi; mret (snd <$> zh).

Definition get_zone_from_proj (fi : string) : M (option Z) :=
  zh ← parse_utm fi; mret (fst <$> zh).

(** ** parse_zones *)

Fixpoint parse_zones_list (files : list string) : M (list Z) :=
  match files with
  | [] => mret []
  | fi :: files' =>
      zone ← get_zone_from_proj fi;
      zones ← parse_zones_list files';
      mret (match zone with
            | Some z => if z =? 0 then zones else z :: zones
            | None => zones
            end)
  end.

(** [np.asarray(zones, dtype=np.int8)] *)
Definition parse_zones (files : list string) : M (list Z) :=
  zones ← parse_zones_list files; mret (wrap 8 <$> zones).

(** [np.median]: [None] stands for the NaN of an empty array. *)
Definition np_median (a : list Z) : option Qc :=
  let s := merge_sort Z.le a in
  let n := length s in
  if (n =? 0)%nat then None
  else if Nat.odd n then Num.of_Z <$> s !! (n / 2)%nat
  else
    lo ← s !! (n / 2 - 1)%nat;
    hi ← s !! (n / 2)%nat;
    Some ((Num.of_Z lo + Num.of_Z hi) / Num.of_Z 2)%Qc.

(** ** reproject_to_median_utm *)

(** ['%02d' % z] *)
Definition fmt_02d (z : Z) : string :=
  if (0 <=? z) && (z <? 10) then "0" +:+ pretty z else pretty z.

(** [my_zone != home_zone]: [None] and NaN differ from everything. *)
Definition zone_differs (my_zone : option Z) (home_zone : option Qc) : bool :=
  match my_zone, home_zone with
  | Some z, Some h => negb (Qc_eq_bool (Num.of_Z z) h)
  | _, _ => true
  end.

(** ['EPSG:326%02d' % int(home_zone)] in the north, 327 otherwise;
    [int] of NaN raises ValueError. *)
Definition epsg_code (hemi : option string) (home_zone : option Qc) : M string :=
  match home_zone with
  | None => raise ValueError
  | Some h =>
      mret ((if bool_decide (hemi = Some "N"%string) then "EPSG:326" else "EPSG:327")
            +:+ fmt_02d (Num.int h))
  end.

(** The block "Set the pixel size". *)
Definition target_pixel_size (files : list string) (resolution : option Qc) : M Qc :=
  match resolution with
  | Some r => if Num.truthy r then mret r else get_max_pixel_size files
  | None => get_max_pixel_size files
  end.

(** Names derived from an input name. *)
Definition reproj_name (fi : string) : string :=
  PyStr.replace ".tif" "_reproj.tif" fi.
Definition area_name (fi : string) : string :=
  PyStr.replace "_flat_VV.tif" "_area_map.tif" fi.
Definition area_reproj_name (fi : string) : string :=
  PyStr.replace "_flat_VV.tif" "_area_map_reproj.tif" fi.

(** One round of the loop "Reproject files as needed". *)
Definition reproject_file `{External} (pix_size : Qc) (home_zone : option Qc)
    (hemi : option string) (fi : string) : M string :=
  my_zone ← get_zone_from_proj fi;
  let name := reproj_name fi in
  let afi := area_name fi in
  let aname := area_reproj_name fi in
  (if zone_differs my_zone home_zone then
     proj ← epsg_code hemi home_zone;
     gdal_Warp name fi (Some proj) pix_size;;
     gdal_Warp aname afi (Some proj) pix_size
   else
     '(x, y, trans, proj) ← read_gdal_file_geo fi;
     if Num.ltb (Num.of_Z x) pix_size then
       gdal_Warp name fi None pix_size;;
       gdal_Warp aname afi None pix_size
     else
       os_symlink fi name;;
       os_symlink afi aname);;
  mret name.

Definition reproject_to_median_utm `{External} (files : list string)
    (resolution : option Qc) : M (option (list string)) :=
  if (length files <? 2)%nat then mret None
  else
    pix_size ← target_pixel_size files resolution;
    zones ← parse_zones files;
    let home_zone := np_median zones in
    hemi ← match files with
           | f0 :: _ => get_hemisphere f0
           | [] => raise IndexError
           end;
    new_files ← mapM (reproject_file pix_size home_zone hemi) files;
    mret (Some new_files).

(** ** The weighted accumulator *)

(** The three arrays of the output grid. *)
Record grids : Type := Grids {
  outputs : ndarray float;
  weights : ndarray float;
  counts : ndarray Z
}.

(** What one input contributes: its samples, its area samples after the
    zero replacement, and the bounds of the slice it is added to. *)
Record placement : Type := Placement {
  p_values : ndarray float;
  p_areas : ndarray float;
  p_row0 : Z; p_row1 : Z;
  p_col0 : Z; p_col1 : Z;
  p_vtype : dtype;
  p_atype : dtype
}.

Definition zero_area_sentinel : float := 10000000%float.

(** [areas[areas == 0] = 10000000] *)
Definition replace_zero_area (a : float) : float :=
  if (a =? 0)%float then zero_area_sentinel else a.

(** One sample of [values * 1.0/areas]: the product has the type of the
    values, the quotient the common type of the two arrays. *)
Definition weighted_sample (tv ta : dtype) (v a : float) : float :=
  fdiv (promote tv ta) (fmul tv v 1) a.

(** One sample of [1.0/areas]. *)
Definition weight_sample (ta : dtype) (a : float) : float := fdiv ta 1 a.

(** [values * 1.0/areas] *)
Definition weighted_values (tv ta : dtype) (values areas : ndarray float)
    : result (ndarray float) :=
  Np.broadcast2 (fdiv (promote tv ta)) nan nan
    (Np.map (λ v, fmul tv v 1) values) areas.

(** [1.0/areas] *)
Definition inverse_areas (ta : dtype) (areas : ndarray float) : ndarray float :=
  Np.map (weight_sample ta) areas.

(** The three in-place additions of one round; the grids are binary64
    and the right-hand sides are widened to it before the addition. *)
Definition accumulate (p : placement) (g : grids) : result grids :=
  wv ← weighted_values (p_vtype p) (p_atype p) (p_values p) (p_areas p);
  outputs' ← Np.iop_slice PrimFloat.add nan (outputs g)
                (p_row0 p) (p_row1 p) (p_col0 p) (p_col1 p) wv;
  weights' ← Np.iop_slice PrimFloat.add nan (weights g)
                (p_row0 p) (p_row1 p) (p_col0 p) (p_col1 p)
                (inverse_areas (p_atype p) (p_areas p));
  let counts' := Np.iop_slice_scalar (λ n, int8_add n 1) (counts g)
                   (p_row0 p) (p_row1 p) (p_col0 p) (p_col1 p) in
  mret (Grids outputs' weights' counts').

(** [outputs /= weights], and the cast of the counts for their file. *)
(** The three arrays after [np.zeros]. *)
Definition zero_grids (y_pixels x_pixels : nat) : grids :=
  Grids (Np.zeros 0%float y_pixels x_pixels)
        (Np.zeros 0%float y_pixels x_pixels)
        (Np.zeros 0 y_pixels x_pixels).

Definition finalize (g : grids) : ndarray float * ndarray Z :=
  (Np.idiv (outputs g) (weights g), Np.map int16_of_int8 (counts g)).

(** ** make_composite *)

(** Division of two Python floats. *)
Definition py_div (a b : float) : M float :=
  if (b =? 0)%float then raise ZeroDivisionError else mret (a / b)%float.

(** The name of the area raster that goes with an aligned raster. *)
Definition aligned_area_name (fi : string) : string :=
  PyStr.replace "_flat_VV_reproj" "_area_map_reproj" fi.

(** Lines 221-237: read the area and value rasters of one aligned file and
    locate it in the output grid whose upper left corner is [(ulx, uly)]. *)
Definition read_placement (ulx uly pixel_size_x pixel_size_y : Qc) (c : corner)
    : M (placement * geotransform * string) :=
  let '(fi, x_max, x_min, y_max, y_min) := c in
  '(_, _, _, _, (ta, areas)) ← read_gdal_file (aligned_area_name fi);
  let areas := Np.map replace_zero_area areas in
  '(x_size, y_size, trans, proj, (tv, values)) ← read_gdal_file fi;
  out_loc_x ← py_div (Num.to_float x_max - Num.to_float ulx)%float
                 (Num.to_float pixel_size_x);
  out_loc_y ← py_div (Num.to_float y_min - Num.to_float uly)%float
                 (Num.to_float pixel_size_y);
  let end_loc_x := (out_loc_x + Num.float_of_Z x_size)%float in
  let end_loc_y := (out_loc_y + Num.float_of_Z y_size)%float in
  col0 ← lift (Num.py_int out_loc_x);
  col1 ← lift (Num.py_int end_loc_x);
  row0 ← lift (Num.py_int out_loc_y);
  row1 ← lift (Num.py_int end_loc_y);
  mret (Placement values areas row0 row1 col0 col1 tv ta, trans, proj).

(** The loop "Calculating output values"; [trans] and [proj] are those of
    the raster read last. *)
Fixpoint accumulate_files (ulx uly pixel_size_x pixel_size_y : Qc)
    (extents : list corner) (g : grids) (trans : geotransform) (proj : string)
    : M (grids * geotransform * string) :=
  match extents with
  | [] => mret (g, trans, proj)
  | c :: extents' =>
      let fi := c.1.1.1.1 in
      if PyStr.contains "VV" fi then
        '(p, trans', proj') ← read_placement ulx uly pixel_size_x pixel_size_y c;
        g' ← lift (accumulate p g);
        write_gdal_file_float ("composite_" +:+ fi) trans' proj' (outputs g') 0%float;;
        accumulate_files ulx uly pixel_size_x pixel_size_y extents' g' trans' proj'
      else
        accumulate_files ulx uly pixel_size_x pixel_size_y extents' g trans proj
  end.

(** [os.path.join(path, rest)] for a relative [rest]. *)
Definition os_path_join (path rest : string) : string :=
  match path with
  | EmptyString => rest
  | String c p' =>
      if bool_decide ((unsnoc c p').2 = "/"%char) then path +:+ rest
      else path +:+ "/" +:+ rest
  end.

(** The corner record of one aligned raster. *)
Definition read_corners `{External} (fi : string) : M corner :=
  λ st,
    match gdal_Open st fi with
    | Some d =>
        let '(ulx, lrx, lry, uly) := saa_getCorners d in
        (Ok (fi, ulx, lrx, lry, uly), st)
    | None => (Raise AttributeError, st)
    end.

(** [abs(int((a - b) / pixel_size))] *)
Definition grid_length (a b pixel_size : Qc) : M nat :=
  q ← py_div (Num.to_float a - Num.to_float b)%float (Num.to_float pixel_size);
  n ← lift (Num.py_int q);
  mret (Z.to_nat (Z.abs n)).

(** Lines 206-207: the pixel dimensions [(x_pixels, y_pixels)] of the
    output grid for the full extent and the pixel sizes of the first aligned
    raster. *)
Definition grid_dims (e : extent) (pixel_size_x pixel_size_y : Qc)
    : M (nat * nat) :=
  let '(ulx, lrx, uly, lry) := e in
  x_pixels ← grid_length ulx lrx pixel_size_x;
  y_pixels ← grid_length lry uly pixel_size_y;
  mret (x_pixels, y_pixels).

(** The block "Establish input file list": a non-empty [path] replaces the
    list by what glob finds for the formatted pattern. *)
Definition input_files `{External} (infiles : option (list string))
    (path : option string) (requested_pol : string)
    : result (option (list string)) :=
  match path with
  | Some (String c p) =>
      pattern ← str_format (os_path_join (String c p) "20*/PRODUCT/*{}.tif")
                  requested_pol;
      mret (Some (glob_glob pattern))
  | _ => mret infiles
  end.

Definition make_composite `{External} (outfile : string)
    (infiles : option (list string)) (path : option string)
    (requested_pol : option string) (resolution : option Qc) : M unit :=
  let requested_pol := default "VV"%string requested_pol in
  infiles ← lift (input_files infiles path requested_pol);
  match infiles with
  | None => raise AttributeError
  | Some infiles =>
      let infiles := PyStr.sort infiles in
      resampled ← reproject_to_median_utm infiles resolution;
      match resampled with
      | None => raise TypeError
      | Some [] => raise NameError
      | Some (f0 :: fs) =>
          let resampled_files := f0 :: fs in
          '(x, y, trans, proj) ← read_gdal_file_geo f0;
          let pixel_size_x := gt1 trans in
          let pixel_size_y := gt5 trans in
          extents ← mapM read_corners resampled_files;
          let '(ulx, lrx, uly, lry) := get_full_extent extents in
          '(x_pixels, y_pixels) ←
            grid_dims (ulx, lrx, uly, lry) pixel_size_x pixel_size_y;
          let g := zero_grids y_pixels x_pixels in
          '(g', trans', proj') ←
            accumulate_files ulx uly pixel_size_x pixel_size_y extents g trans proj;
          let '(composite, coverage) := finalize g' in
          write_gdal_file_float outfile trans' proj' composite 0%float;;
          write_gdal_file "counts.tif" trans' proj' coverage
      end
  end.

(** ** Specification vocabulary *)

Definition e_min_x (e : extent) : Qc := e.1.1.1.
Definition e_max_x (e : extent) : Qc := e.1.1.2.
Definition e_max_y (e : extent) : Qc := e.1.2.
Definition e_min_y (e : extent) : Qc := e.2.

(** [m] is the least, respectively the greatest, element of [l]. *)
Definition is_min (m : Qc) (l : list Qc) : Prop :=
  m ∈ l ∧ ∀ x, x ∈ l → (m <= x)%Qc.
Definition is_max (m : Qc) (l : list Qc) : Prop :=
  m ∈ l ∧ ∀ x, x ∈ l → (x <= m)%Qc.

(** The two reductions of [get_full_extent], one coordinate at a time. *)
Definition min_fold (l : list Qc) (s : Qc) : Qc :=
  fold_left (λ m x, Num.py_min x m) l s.
Definition max_fold (l : list Qc) (s : Qc) : Qc :=
  fold_left (λ m x, Num.py_max x m) l s.

(** The rounds of the accumulator on the arrays alone. *)
Fixpoint accumulate_all (ps : list placement) (g : grids) : result grids :=
  match ps with
  | [] => Ok g
  | p :: ps' => g' ← accumulate p g; accumulate_all ps' g'
  end.

(** All three arrays have [R] rows and [C] columns. *)
Definition grids_shape (R C : nat) (g : grids) : Prop :=
  (shape0 (outputs g) = R ∧ shape1 (outputs g) = C) ∧
  (shape0 (weights g) = R ∧ shape1 (weights g) = C) ∧
  (shape0 (counts g) = R ∧ shape1 (counts g) = C).

(** Pixel [(i, j)] of an [R] by [C] grid lies in the slice of [p]. *)
Definition covers (R C : nat) (p : placement) (i j : nat) : bool :=
  Np.within (Np.bound R (p_row0 p)) (Np.bound R (p_row1 p)) i &&
  Np.within (Np.bound C (p_col0 p)) (Np.bound C (p_col1 p)) j.

(** The value sample and the area sample of [p] that land on [(i, j)]. *)
Definition value_at (R C : nat) (p : placement) (i j : nat) : float :=
  Np.item nan (p_values p)
    (Np.bidx (shape0 (p_values p)) (i - Np.bound R (p_row0 p)))
    (Np.bidx (shape1 (p_values p)) (j - Np.bound C (p_col0 p))).
Definition area_at (R C : nat) (p : placement) (i j : nat) : float :=
  Np.item nan (p_areas p)
    (Np.bidx (shape0 (p_areas p)) (i - Np.bound R (p_row0 p)))
    (Np.bidx (shape1 (p_areas p)) (j - Np.bound C (p_col0 p))).

(** A value sample and an area sample that land on one pixel, with the
    sample types of the two rasters they come from. *)
Record sample : Type := Sample {
  s_value : float;
  s_area : float;
  s_vtype : dtype;
  s_atype : dtype
}.

Definition sample_at (R C : nat) (p : placement) (i j : nat) : sample :=
  Sample (value_at R C p i j) (area_at R C p i j) (p_vtype p) (p_atype p).

(** The samples of the placements that cover [(i, j)], in the order of
    processing. *)
Fixpoint samples_at (R C : nat) (ps : list placement) (i j : nat)
    : list sample :=
  match ps with
  | [] => []
  | p :: ps' =>
      if covers R C p i j
      then sample_at R C p i j :: samples_at R C ps' i j
      else samples_at R C ps' i j
  end.

(** What one sample adds to the two sums of its pixel. *)
Definition quotient (s : sample) : float :=
  weighted_sample (s_vtype s) (s_atype s) (s_value s) (s_area s).
Definition weight (s : sample) : float :=
  weight_sample (s_atype s) (s_area s).

(** Sums in binary64, from 0.0 and in list order. *)
Definition fsum (l : list float) : float := fold_left PrimFloat.add l 0%float.

(** [Σ(v*1.0/a) / Σ(1.0/a)] as the code evaluates it. *)
Definition weighted_mean (l : list sample) : float :=
  (fsum (quotient <$> l) / fsum (weight <$> l))%float.

(** What a run leaves in the file system: a sample of a floating-point
    raster, a sample of a count raster, and the declared no-data value. *)
Definition stored_float (st : store) (name : string) (i j : nat) : option float :=
  match st !! name with
  | Some (File (Dataset _ _ (FloatBand a) _)) => Np.at_ a i j
  | _ => None
  end.
Definition stored_count (st : store) (name : string) (i j : nat) : option Z :=
  match st !! name with
  | Some (File (Dataset _ _ (Int16Band a) _)) => Np.at_ a i j
  | _ => None
  end.
Definition stored_nodata (st : store) (name : string) : option float :=
  match st !! name with
  | Some (File d) => NoDataValue d
  | _ => None
  end.

(** The pixel widths of the files that can be opened. *)
Definition pixel_widths (st : store) (files : list string) : list Qc :=
  omap (λ fi, (λ d, gt1 (GetGeoTransform d)) <$> gdal_Open st fi) files.

(** A string of digits only. *)
Fixpoint all_digits (s : string) : bool :=
  match s with
  | EmptyString => true
  | String c s' => is_digit c && all_digits s'
  end.

(** A stem without a dot and without an underscore followed by "f": none
    of the patterns ".tif", "_flat_VV.tif" and "_flat_VV_reproj" starts
    inside it. *)
Fixpoint plain_stem (s : string) : bool :=
  match s with
  | EmptyString => true
  | String c s' =>
      negb (Ascii.eqb c ".") && negb (String.prefix "_f" s) && plain_stem s'
  end.

(** The four polarizations [get_pol] looks for. *)
Definition polarizations : list string := ["VV"; "VH"; "HH"; "HV"]%string.

(** The size of the slice of [p] in a grid of [R] rows and [C] columns. *)
Definition slice_rows (R : nat) (p : placement) : nat :=
  Np.bound R (p_row1 p) - Np.bound R (p_row0 p).
Definition slice_cols (C : nat) (p : placement) : nat :=
  Np.bound C (p_col1 p) - Np.bound C (p_col0 p).

(** The shapes of [p] broadcast to its slice of an [R] by [C] grid. *)
Definition placeable (R C : nat) (p : placement) : bool :=
  match Np.bdim (shape0 (p_values p)) (shape0 (p_areas p)),
        Np.bdim (shape1 (p_values p)) (shape1 (p_areas p)) with
  | Some r, Some c =>
      Np.fits r (slice_rows R p) && Np.fits c (slice_cols C p) &&
      Np.fits (shape0 (p_areas p)) (slice_rows R p) &&
      Np.fits (shape1 (p_areas p)) (slice_cols C p)
  | _, _ => false
  end.

(** The records the loop "Calculating output values" processes, the
    snapshot it writes for one, and the geotransform and projection it
    ends with. *)
Definition vv_records (extents : list corner) : list corner :=
  filter (λ c : corner, PyStr.contains "VV" c.1.1.1.1 = true) extents.
Definition snapshot_name (c : corner) : string := "composite_" +:+ c.1.1.1.1.
Definition last_georef (reads : list (placement * geotransform * string))
    (trans : geotransform) (proj : string) : geotransform * string :=
  match last reads with
  | Some r => (r.1.2, r.2)
  | None => (trans, proj)
  end.

(** The names [reproject_to_median_utm] may create for its inputs, and
    the names [make_composite] may create on top of them. *)
Definition aligned_names (files : list string) : list string :=
  (reproj_name <$> files) ++ (area_reproj_name <$> files).
Definition composite_names (outfile : string) (files : list string)
    : list string :=
  aligned_names files ++
  ((λ fi, "composite_" +:+ reproj_name fi) <$> files) ++
  [outfile; "counts.tif"%string].

(** A computation that removes no name from the file system, and one
    that leaves every name outside [W] as it is, whether they end normally
    or raise. *)
Definition keeps_names {A : Type} (m : M A) : Prop :=
  ∀ (st : store) (k : string), is_Some (st !! k) → is_Some ((m st).2 !! k).
Definition writes_within {A : Type} (W : list string) (m : M A) : Prop :=
  ∀ (st : store) (k : string), k ∉ W → (m st).2 !! k = st !! k.

(** The exceptions a run of [make_composite] can end with once the
    search pattern is formatted. *)
Definition composite_exceptions : list exn :=
  [TypeError; AttributeError; ValueError; ZeroDivisionError; OverflowError;
   FileExistsError; Exception "integer band read as input"].

(** The stages of a run of [make_composite] up to the loop "Calculating
    output values": the input names, the aligned names and the file system
    [st1] that [reproject_to_median_utm] leaves, the pixel sizes of the first
    aligned raster, the corner records, and the output grid of [R] rows and
    [C] columns. *)
Record stages : Type := Stages {
  g_files : list string;
  g_aligned : list string;
  g_store : store;
  g_trans : geotransform;
  g_proj : string;
  g_extents : list corner;
  g_rows : nat;
  g_cols : nat
}.

Definition staged `{External} (infiles : option (list string))
    (path requested_pol : option string) (resolution : option Qc)
    (st : store) (s : stages) : Prop :=
  input_files infiles path (default "VV"%string requested_pol)
    = Ok (Some (g_files s)) ∧
  reproject_to_median_utm (PyStr.sort (g_files s)) resolution st
    = (Ok (Some (g_aligned s)), g_store s) ∧
  (∃ f0 x y, head (g_aligned s) = Some f0 ∧
     read_gdal_file_geo f0 (g_store s)
       = (Ok (x, y, g_trans s, g_proj s), g_store s)) ∧
  mapM read_corners (g_aligned s) (g_store s) = (Ok (g_extents s), g_store s) ∧
  grid_dims (get_full_extent (g_extents s))
    (gt1 (g_trans s)) (gt5 (g_trans s)) (g_store s)
    = (Ok (g_cols s, g_rows s), g_store s).

(** [ps] is what the loop reads, record by record: each placement is the
    result of [read_placement] on a file system that differs from the one
    after alignment in snapshot names at most. *)
Definition loop_reads (s : stages) (ps : list placement) : Prop :=
  let e := get_full_extent (g_extents s) in
  Forall2
    (λ (c : corner) (p : placement),
       ∃ st_k tr pr,
         (∀ k, k ∉ snapshot_name <$> vv_records (g_extents s) →
               st_k !! k = g_store s !! k) ∧
         read_placement (e_min_x e) (e_max_y e)
           (gt1 (g_trans s)) (gt5 (g_trans s)) c st_k = (Ok (p, tr, pr), st_k))
    (vv_records (g_extents s)) ps.

(** A computation that raises nothing outside [E]. *)
Definition raises_within {A : Type} (E : list exn) (m : M A) : Prop :=
  ∀ (st : store) (e : exn), (m st).1 = Raise e → e ∈ E.

(** ** Fixtures *)

Module Fixture.

(** A footprint west of the false origin and one inside the zone. *)
Definition corner_west : corner :=
  ("w_flat_VV_reproj.tif"%string,
   Num.of_Z (-20), Num.of_Z (-10), Num.of_Z 100, Num.of_Z 200).
Definition corner_a : corner :=
  ("a_flat_VV_reproj.tif"%string,
   Num.of_Z 500000, Num.of_Z 500060, Num.of_Z 4000000, Num.of_Z 4000030).
Definition corner_b : corner :=
  ("b_flat_VV_reproj.tif"%string,
   Num.of_Z 500030, Num.of_Z 500090, Num.of_Z 3999970, Num.of_Z 4000000).

(** One-pixel rasters and their placement on the first row of a grid. *)
Definition pixel (x : float) : ndarray float := NDArray 1 1 [[x]].
Definition single (v a : float) (col : Z) : placement :=
  Placement (pixel v) (pixel a) 0 1 col (col + 1) Float32 Float32.

Definition grids_of (r : result grids) : grids :=
  match r with
  | Ok g => g
  | Raise _ => zero_grids 0 0
  end.

(** Two placements on one pixel, areas 1 and 4, values 10 and 20. *)
Definition overlap_reads : list placement := [single 10 1 0; single 20 4 0].
Definition overlap_grids : grids :=
  grids_of (accumulate_all overlap_reads (zero_grids 1 1)).

(** How the fields of a template have been numbered so far. *)
Inductive numbering : Type := Unset | Automatic | Manual.

(** The name of a field up to its closing brace, and what follows it. *)
Fixpoint field_name (s : string) : option (string * string) :=
  match s with
  | EmptyString => None
  | String c s' =>
      if Ascii.eqb c "}" then Some (EmptyString, s')
      else '(name, rest) ← field_name s'; Some (String c name, rest)
  end.

(** [str.format] with one argument on templates whose fields are written
    [{}] or [{0}]: the argument is inserted for the first [{}] or for every
    [{0}], a second [{}] or a field [{1}] raises IndexError, a field with a
    name KeyError, and a brace that is neither doubled nor part of a field
    ValueError. Conversions and format specifications do not occur in the
    fixtures. *)
Fixpoint format_go (fuel : nat) (mode : numbering) (arg s : string)
    : result string :=
  match fuel with
  | O => Ok EmptyString
  | S fuel' =>
      match s with
      | EmptyString => Ok EmptyString
      | String c s' =>
          if Ascii.eqb c "{" then
            match s' with
            | String "{" s2 =>
                rest ← format_go fuel' mode arg s2; Ok (String "{" rest)
            | _ =>
                match field_name s' with
                | None => Raise ValueError
                | Some (EmptyString, rest) =>
                    match mode with
                    | Unset => out ← format_go fuel' Automatic arg rest;
                               Ok (arg +:+ out)
                    | Automatic => Raise IndexError
                    | Manual => Raise ValueError
                    end
                | Some (name, rest) =>
                    if bool_decide (name = "0"%string) then
                      match mode with
                      | Automatic => Raise ValueError
                      | _ => out ← format_go fuel' Manual arg rest;
                             Ok (arg +:+ out)
                      end
                    else if all_digits name then Raise IndexError
                    else Raise KeyError
                end
            end
          else if Ascii.eqb c "}" then
            match s' with
            | String "}" s2 =>
                rest ← format_go fuel' mode arg s2; Ok (String "}" rest)
            | _ => Raise ValueError
            end
          else rest ← format_go fuel' mode arg s'; Ok (String c rest)
      end
  end.

(** GDAL for the fixtures: warping returns the source raster, the corners
    follow from the geotransform and the size, and glob finds nothing. *)
Definition external : External := {|
  gdal_Warp_result := λ d _ _, d;
  saa_getCorners := λ d,
    let t := GetGeoTransform d in
    (gt0 t, (gt0 t + Num.of_Z (RasterXSize d) * gt1 t)%Qc,
     (gt3 t + Num.of_Z (RasterYSize d) * gt5 t)%Qc, gt3 t);
  glob_glob := λ _, [];
  str_format := λ template arg,
    format_go (S (String.length template)) Unset arg template
|}.

(** A north-up raster in UTM zone 11 N with its upper left corner at
    [(x, y)] and square pixels of size [res]. *)
Definition utm11 (x y res : Z) (a : ndarray float) : dataset :=
  Dataset (GeoTransform (Num.of_Z x) (Num.of_Z res) (Num.of_Z 0)
                        (Num.of_Z y) (Num.of_Z 0) (Num.of_Z (- res)))
          "WGS 84 / UTM zone 11N" (FloatBand a) None.
Definition raster (x y res : Z) (a : ndarray float) : entry :=
  File (utm11 x y res a).

(** Two one-pixel rasters that touch at a corner: value 10 over area 3 in
    the north-west, value 20 over area 4 in the south-east. *)
Definition diagonal : store :=
  <["a_flat_VV.tif"%string := raster 500000 4000000 1 (pixel 10)]>
  (<["a_area_map.tif"%string := raster 500000 4000000 1 (pixel 3)]>
  (<["b_flat_VV.tif"%string := raster 500001 3999999 1 (pixel 20)]>
  (<["b_area_map.tif"%string := raster 500001 3999999 1 (pixel 4)]> ∅))).

(** The same scene in the VH polarization. *)
Definition diagonal_vh : store :=
  <["a_flat_VH.tif"%string := raster 500000 4000000 1 (pixel 10)]>
  (<["a_area_map.tif"%string := raster 500000 4000000 1 (pixel 3)]>
  (<["b_flat_VH.tif"%string := raster 500001 3999999 1 (pixel 20)]>
  (<["b_area_map.tif"%string := raster 500001 3999999 1 (pixel 4)]> ∅))).

(** Two rasters of 40 columns with 10 m pixels, and two of 2 columns with
    30 m pixels. *)
Definition fine : store :=
  <["c_flat_VV.tif"%string := raster 500000 4000000 10 (Np.zeros 1%float 1 40)]>
  (<["c_area_map.tif"%string := raster 500000 4000000 10 (Np.zeros 1%float 1 40)]>
  (<["d_flat_VV.tif"%string := raster 500400 4000000 10 (Np.zeros 1%float 1 40)]>
  (<["d_area_map.tif"%string := raster 500400 4000000 10 (Np.zeros 1%float 1 40)]> ∅))).
Definition coarse : store :=
  <["e_flat_VV.tif"%string := raster 500000 4000000 30 (Np.zeros 1%float 1 2)]>
  (<["e_area_map.tif"%string := raster 500000 4000000 30 (Np.zeros 1%float 1 2)]>
  (<["f_flat_VV.tif"%string := raster 500060 4000000 30 (Np.zeros 1%float 1 2)]>
  (<["f_area_map.tif"%string := raster 500060 4000000 30 (Np.zeros 1%float 1 2)]> ∅))).

(** The corner records of the VH scene after alignment. *)
Definition vh_extents : list corner :=
  [("a_flat_VH_reproj.tif"%string,
    Num.of_Z 500000, Num.of_Z 500001, Num.of_Z 3999999, Num.of_Z 4000000);
   ("b_flat_VH_reproj.tif"%string,
    Num.of_Z 500001, Num.of_Z 500002, Num.of_Z 3999998, Num.of_Z 3999999)].

(** The scene of [diagonal] after alignment, and its corner records. *)
Definition aligned : store :=
  <["a_flat_VV_reproj.tif"%string := raster 500000 4000000 1 (pixel 10)]>
  (<["a_area_map_reproj.tif"%string := raster 500000 4000000 1 (pixel 3)]>
  (<["b_flat_VV_reproj.tif"%string := raster 500001 3999999 1 (pixel 20)]>
  (<["b_area_map_reproj.tif"%string := raster 500001 3999999 1 (pixel 4)]> ∅))).
Definition a_record : corner :=
  ("a_flat_VV_reproj.tif"%string,
   Num.of_Z 500000, Num.of_Z 500001, Num.of_Z 3999999, Num.of_Z 4000000).
Definition b_record : corner :=
  ("b_flat_VV_reproj.tif"%string,
   Num.of_Z 500001, Num.of_Z 500002, Num.of_Z 3999998, Num.of_Z 3999999).
Definition aligned_extents : list corner := [a_record; b_record].

(** What the loop reads for the two records on the grid whose upper left
    corner is (500000, 4000000). *)
Definition a_read : placement * geotransform * string :=
  (Placement (pixel 10) (pixel 3) 0 1 0 1 Float32 Float32,
   GetGeoTransform (utm11 500000 4000000 1 (pixel 10)),
   "WGS 84 / UTM zone 11N"%string).
Definition b_read : placement * geotransform * string :=
  (Placement (pixel 20) (pixel 4) 1 2 1 2 Float32 Float32,
   GetGeoTransform (utm11 500001 3999999 1 (pixel 20)),
   "WGS 84 / UTM zone 11N"%string).

(** Two rasters in geographic coordinates: no UTM zone is mentioned. *)
Definition geographic (a : ndarray float) : dataset :=
  Dataset (GeoTransform (Num.of_Z 10) (Num.of_Z 1) (Num.of_Z 0)
                        (Num.of_Z 50) (Num.of_Z 0) (Num.of_Z (-1)))
          "GEOGCS[WGS 84]" (FloatBand a) None.
Definition latlon : store :=
  <["g_flat_VV.tif"%string := File (geographic (pixel 10))]>
  (<["g_area_map.tif"%string := File (geographic (pixel 3))]>
  (<["h_flat_VV.tif"%string := File (geographic (pixel 20))]>
  (<["h_area_map.tif"%string := File (geographic (pixel 4))]> ∅))).

(** The doubles nearest to 0.7 and to 0.1, as exact numbers. *)
Definition seven_tenths : Qc := Q2Qc (3152519739159347 # 4503599627370496).
Definition tenth : Qc := Q2Qc (3602879701896397 # 36028797018963968).

(** Two rasters of one row and three columns with pixels of size 0.7 at
    the origin of zone 11, one over the other. *)
Definition strip (a : ndarray float) : dataset :=
  Dataset (GeoTransform (Num.of_Z 0) seven_tenths (Num.of_Z 0)
                        (Num.of_Z 0) (Num.of_Z 0) (- seven_tenths)%Qc)
          "WGS 84 / UTM zone 11N" (FloatBand a) None.
Definition narrow : store :=
  <["s_flat_VV.tif"%string := File (strip (Np.zeros 1%float 1 3))]>
  (<["s_area_map.tif"%string := File (strip (Np.zeros 1%float 1 3))]>
  (<["t_flat_VV.tif"%string := File (strip (Np.zeros 1%float 1 3))]>
  (<["t_area_map.tif"%string := File (strip (Np.zeros 1%float 1 3))]> ∅))).

(** A raster in zone 10 beside one in zone 11. *)
Definition two_zones : store :=
  <["u_flat_VV.tif"%string :=
      File (Dataset (GeoTransform (Num.of_Z 500000) (Num.of_Z 1) (Num.of_Z 0)
                       (Num.of_Z 4000000) (Num.of_Z 0) (Num.of_Z (-1)))
              "WGS 84 / UTM zone 10N" (FloatBand (pixel 10)) None)]>
  (<["v_flat_VV.tif"%string := raster 500000 4000000 1 (pixel 20)]> ∅).

(** A raster whose geotransform has the pixel width -1000. *)
Definition mirrored : store :=
  <["m_flat_VV.tif"%string := raster 500000 4000000 (-1000) (pixel 10)]> ∅.

(** The scene of [fine] with the first derived name taken. *)
Definition occupied : store :=
  <["c_flat_VV_reproj.tif"%string := Link "elsewhere.tif"]> fine.

(** Two one-pixel rasters on the same pixel: value 10 over area 1 and
    value 20 over area 4. *)
Definition overlap : store :=
  <["p_flat_VV.tif"%string := raster 500000 4000000 1 (pixel 10)]>
  (<["p_area_map.tif"%string := raster 500000 4000000 1 (pixel 1)]>
  (<["q_flat_VV.tif"%string := raster 500000 4000000 1 (pixel 20)]>
  (<["q_area_map.tif"%string := raster 500000 4000000 1 (pixel 4)]> ∅))).

(** 128 one-pixel rasters on the same pixel, each of value 1 over
    area 1. *)
Definition crowd_stems : list string :=
  (λ k, "r" +:+ pretty (100 + k)%nat) <$> seq 0 128.
Definition crowd_names : list string :=
  (λ stem, stem +:+ "_flat_VV.tif") <$> crowd_stems.
Definition crowd : store :=
  foldr (λ stem st,
           <[stem +:+ "_flat_VV.tif" := raster 500000 4000000 1 (pixel 1)]>
           (<[stem +:+ "_area_map.tif" := raster 500000 4000000 1 (pixel 1)]> st))
        ∅ crowd_stems.

(** An aligned one-pixel raster of value 5 whose area sample is zero, and
    its corner record. *)
Definition flat : store :=
  <["z_flat_VV_reproj.tif"%string := raster 500000 4000000 1 (pixel 5)]>
  (<["z_area_map_reproj.tif"%string := raster 500000 4000000 1 (pixel 0)]> ∅).
Definition z_record : corner :=
  ("z_flat_VV_reproj.tif"%string,
   Num.of_Z 500000, Num.of_Z 500001, Num.of_Z 3999999, Num.of_Z 4000000).

(** The scene of [aligned] in a directory that exists, without a
    directory for the snapshots. *)
Definition nested : store :=
  <["stack"%string := Dir]>
  (<["stack/a_flat_VV_reproj.tif"%string := raster 500000 4000000 1 (pixel 10)]>
  (<["stack/a_area_map_reproj.tif"%string := raster 500000 4000000 1 (pixel 3)]> ∅)).
Definition nested_record : corner :=
  ("stack/a_flat_VV_reproj.tif"%string,
   Num.of_Z 500000, Num.of_Z 500001, Num.of_Z 3999999, Num.of_Z 4000000).

End Fixture.

(** * Properties *)

(** ** Order on exact numbers *)

Lemma ltb_lt (x y : Qc) : Num.ltb x y = true ↔ (x < y)%Qc.
Proof.
  unfold Num.ltb. rewrite Qclt_alt.
  destruct (x ?= y)%Qc; split; congruence.
Qed.

Lemma ltb_ge (x y : Qc) : Num.ltb x y = false ↔ (y <= x)%Qc.
Proof.
  rewrite <- not_true_iff_false, ltb_lt. split.
  - apply Qcnot_lt_le.
  - intros H1 H2. exact (Qcle_not_lt _ _ H1 H2).
Qed.

Ltac qc_cases :=
  repeat match goal with
    | |- context [Num.ltb ?a ?b] =>
        lazymatch a with context [Num.ltb] => fail | _ => idtac end;
        lazymatch b with context [Num.ltb] => fail | _ => idtac end;
        let E := fresh "E" in
        destruct (Num.ltb a b) eqn:E;
        [apply ltb_lt in E | apply ltb_ge in E]
    end.

Ltac qc_order :=
  unfold Qclt, Qcle in *; try apply Qc_is_canon; simpl; lra.

Lemma py_min_swap (a b m : Qc) :
  Num.py_min a (Num.py_min b m) = Num.py_min b (Num.py_min a m).
Proof. unfold Num.py_min. qc_cases; try reflexivity; qc_order. Qed.

Lemma py_max_swap (a b m : Qc) :
  Num.py_max a (Num.py_max b m) = Num.py_max b (Num.py_max a m).
Proof. unfold Num.py_max. qc_cases; try reflexivity; qc_order. Qed.

Lemma py_min_le_l (a b : Qc) : (Num.py_min a b <= a)%Qc.
Proof. unfold Num.py_min. qc_cases; qc_order. Qed.

Lemma py_min_le_r (a b : Qc) : (Num.py_min a b <= b)%Qc.
Proof. unfold Num.py_min. qc_cases; qc_order. Qed.

Lemma py_min_cases (a b : Qc) : Num.py_min a b = a ∨ Num.py_min a b = b.
Proof. unfold Num.py_min. destruct (Num.ltb b a); auto. Qed.

Lemma py_max_ge_l (a b : Qc) : (a <= Num.py_max a b)%Qc.
Proof. unfold Num.py_max. qc_cases; qc_order. Qed.

Lemma py_max_ge_r (a b : Qc) : (b <= Num.py_max a b)%Qc.
Proof. unfold Num.py_max. qc_cases; qc_order. Qed.

Lemma py_max_cases (a b : Qc) : Num.py_max a b = a ∨ Num.py_max a b = b.
Proof. unfold Num.py_max. destruct (Num.ltb a b); auto. Qed.

(** ** The extent union *)

Lemma extent_fold (cs : list corner) (a b c d : Qc) :
  fold_left extent_step cs (a, b, c, d) =
  (min_fold (c_ulx <$> cs) a, max_fold (c_lrx <$> cs) b,
   max_fold (c_uly <$> cs) c, min_fold (c_lry <$> cs) d).
Proof.
  revert a b c d. induction cs as [|[[[[fi ulx] lrx] lry] uly] cs IH];
    intros a b c d; [reflexivity|].
  cbn [fold_left extent_step]. rewrite IH. reflexivity.
Qed.

Lemma min_fold_spec (l : list Qc) (s : Qc) :
  (min_fold l s <= s)%Qc ∧ (∀ x, x ∈ l → (min_fold l s <= x)%Qc) ∧
  (min_fold l s = s ∨ min_fold l s ∈ l).
Proof.
  revert s. induction l as [|y l IH]; intros s.
  - cbn. split; [apply Qcle_refl|]. split; [|by left].
    intros x Hx. by apply elem_of_nil in Hx.
  - change (min_fold (y :: l) s) with (min_fold l (Num.py_min y s)).
    destruct (IH (Num.py_min y s)) as (Hs & Hall & Hin).
    split; [|split].
    + eapply Qcle_trans; [exact Hs|apply py_min_le_r].
    + intros x Hx. apply elem_of_cons in Hx as [->|Hx]; [|by apply Hall].
      eapply Qcle_trans; [exact Hs|apply py_min_le_l].
    + destruct Hin as [Hin|Hin].
      * rewrite Hin. destruct (py_min_cases y s) as [->| ->]; [right|by left].
        apply elem_of_cons; by left.
      * right. apply elem_of_cons; by right.
Qed.

Lemma max_fold_spec (l : list Qc) (s : Qc) :
  (s <= max_fold l s)%Qc ∧ (∀ x, x ∈ l → (x <= max_fold l s)%Qc) ∧
  (max_fold l s = s ∨ max_fold l s ∈ l).
Proof.
  revert s. induction l as [|y l IH]; intros s.
  - cbn. split; [apply Qcle_refl|]. split; [|by left].
    intros x Hx. by apply elem_of_nil in Hx.
  - change (max_fold (y :: l) s) with (max_fold l (Num.py_max y s)).
    destruct (IH (Num.py_max y s)) as (Hs & Hall & Hin).
    split; [|split].
    + eapply Qcle_trans; [apply py_max_ge_r|exact Hs].
    + intros x Hx. apply elem_of_cons in Hx as [->|Hx]; [|by apply Hall].
      eapply Qcle_trans; [apply py_max_ge_l|exact Hs].
    + destruct Hin as [Hin|Hin].
      * rewrite Hin. destruct (py_max_cases y s) as [->| ->]; [right|by left].
        apply elem_of_cons; by left.
      * right. apply elem_of_cons; by right.
Qed.

Lemma min_fold_is_min (l : list Qc) (s : Qc) :
  l ≠ [] → (∀ x, x ∈ l → (x <= s)%Qc) → is_min (min_fold l s) l.
Proof.
  intros Hne Hle. destruct (min_fold_spec l s) as (Hs & Hall & Hin).
  split; [|exact Hall].
  destruct Hin as [Hin|Hin]; [|exact Hin].
  destruct l as [|y l]; [done|].
  assert (Hy : y ∈ y :: l) by (apply elem_of_cons; by left).
  assert (min_fold (y :: l) s = y) as ->; [|exact Hy].
  apply Qcle_antisym; [by apply Hall|].
  rewrite Hin. by apply Hle.
Qed.

Lemma max_fold_is_max (l : list Qc) (s : Qc) :
  l ≠ [] → (∀ x, x ∈ l → (s <= x)%Qc) → is_max (max_fold l s) l.
Proof.
  intros Hne Hle. destruct (max_fold_spec l s) as (Hs & Hall & Hin).
  split; [|exact Hall].
  destruct Hin as [Hin|Hin]; [|exact Hin].
  destruct l as [|y l]; [done|].
  assert (Hy : y ∈ y :: l) by (apply elem_of_cons; by left).
  assert (max_fold (y :: l) s = y) as ->; [|exact Hy].
  apply Qcle_antisym; [|by apply Hall].
  rewrite Hin. by apply Hle.
Qed.

(** C6: the reduction is seeded with the constants 0 and 50000000 and not
    with the first record. When every record ends west of the origin, with
    its max_x below 0, the max_x of the result is the seed 0, which is the
    max_x of no record: the result is not the union of the corners that the
    docstring announces. *)
Theorem get_full_extent_returns_the_seed (corners : list corner) :
  corners ≠ [] →
  Forall (λ c, (c_lrx c < Num.of_Z 0)%Qc) corners →
  e_max_x (get_full_extent corners) = Num.of_Z 0 ∧
  ¬ is_max (e_max_x (get_full_extent corners)) (c_lrx <$> corners).
Proof.
  intros Hne Hwest. unfold get_full_extent, extent_seed.
  rewrite extent_fold. unfold e_max_x. cbn [fst snd].
  assert (Hl : ∀ x, x ∈ c_lrx <$> corners → (x < Num.of_Z 0)%Qc).
  { intros x Hx. apply list_elem_of_fmap in Hx as (c & -> & Hc).
    rewrite Forall_forall in Hwest. by apply Hwest. }
  destruct (max_fold_spec (c_lrx <$> corners) (Num.of_Z 0)) as (Hs & _ & Hin).
  assert (Hm : max_fold (c_lrx <$> corners) (Num.of_Z 0) = Num.of_Z 0).
  { destruct Hin as [Hin|Hin]; [exact Hin|].
    apply Hl in Hin. by apply Qcle_not_lt in Hs. }
  split; [exact Hm|].
  rewrite Hm. intros [H0 _]. apply Hl in H0.
  exact (Qcle_not_lt _ _ (Qcle_refl _) H0).
Qed.

Lemma get_full_extent_returns_the_seed_witness :
  c_lrx Fixture.corner_west = Num.of_Z (-10) ∧
  e_max_x (get_full_extent [Fixture.corner_west]) = Num.of_Z 0 ∧
  ¬ is_max (e_max_x (get_full_extent [Fixture.corner_west]))
      (c_lrx <$> [Fixture.corner_west]).
Proof.
  split; [reflexivity|].
  apply (get_full_extent_returns_the_seed [Fixture.corner_west]).
  - discriminate.
  - repeat constructor.
Defined.

Lemma extent_step_swap (e : extent) (c1 c2 : corner) :
  extent_step (extent_step e c1) c2 = extent_step (extent_step e c2) c1.
Proof.
  destruct e as [[[a b] c] d].
  destruct c1 as [[[[f1 u1] l1] y1] v1], c2 as [[[[f2 u2] l2] y2] v2].
  cbn [extent_step].
  by rewrite (py_min_swap u2 u1), (py_max_swap l2 l1),
    (py_max_swap v2 v1), (py_min_swap y2 y1).
Qed.

Lemma fold_extent_permutation (cs cs' : list corner) (e : extent) :
  cs ≡ₚ cs' → fold_left extent_step cs e = fold_left extent_step cs' e.
Proof.
  intros Hp. revert e.
  induction Hp as [|c l l' _ IH|c1 c2 l|l l' l'' _ IH1 _ IH2]; intros e.
  - reflexivity.
  - cbn [fold_left]. apply IH.
  - cbn [fold_left]. by rewrite extent_step_swap.
  - by rewrite IH1.
Qed.



(** ** Reading arrays *)

Lemma at_zeros {A : Type} (z : A) (r c i j : nat) :
  (i < r)%nat → (j < c)%nat → Np.at_ (Np.zeros z r c) i j = Some z.
Proof.
  intros Hi Hj. unfold Np.at_, Np.zeros. cbn [rows].
  rewrite lookup_replicate_2 by done. cbn. by rewrite lookup_replicate_2.
Qed.

Lemma at_build {A : Type} (f : nat → nat → A) (r c i j : nat) :
  (i < r)%nat → (j < c)%nat → Np.at_ (Np.build r c f) i j = Some (f i j).
Proof.
  intros Hi Hj. unfold Np.at_, Np.build. cbn [rows].
  rewrite list_lookup_fmap, lookup_seq_lt by done. cbn.
  by rewrite list_lookup_fmap, lookup_seq_lt.
Qed.

Lemma at_map {A B : Type} (f : A → B) (a : ndarray A) (i j : nat) :
  Np.at_ (Np.map f a) i j = f <$> Np.at_ a i j.
Proof.
  unfold Np.at_, Np.map. cbn [rows]. rewrite list_lookup_fmap.
  destruct (rows a !! i) as [row|]; cbn; [|done].
  by rewrite list_lookup_fmap.
Qed.

Lemma item_map {A B : Type} (f : A → B) (d : A) (a : ndarray A) (i j : nat) :
  Np.item (f d) (Np.map f a) i j = f (Np.item d a i j).
Proof. unfold Np.item. rewrite at_map. by destruct (Np.at_ a i j). Qed.

Lemma item_at {A : Type} (d x : A) (a : ndarray A) (i j : nat) :
  Np.at_ a i j = Some x → Np.item d a i j = x.
Proof. unfold Np.item. by intros ->. Qed.

Lemma at_iop_slice {A B : Type} (f : A → B → A) (d : B)
    (g g' : ndarray A) (r0 r1 c0 c1 : Z) (x : ndarray B) (i j : nat) :
  Np.iop_slice f d g r0 r1 c0 c1 x = Ok g' →
  Np.at_ g' i j =
  (λ a, if Np.within (Np.bound (shape0 g) r0) (Np.bound (shape0 g) r1) i &&
           Np.within (Np.bound (shape1 g) c0) (Np.bound (shape1 g) c1) j
        then f a (Np.item d x
                    (Np.bidx (shape0 x) (i - Np.bound (shape0 g) r0))
                    (Np.bidx (shape1 x) (j - Np.bound (shape1 g) c0)))
        else a) <$> Np.at_ g i j.
Proof.
  unfold Np.iop_slice. case_match; [|done]. intros [= <-].
  unfold Np.at_. cbn [rows]. rewrite list_lookup_imap.
  destruct (rows g !! i) as [row|]; cbn; [|done].
  rewrite list_lookup_imap. by destruct (row !! j).
Qed.

Lemma shape_iop_slice {A B : Type} (f : A → B → A) (d : B)
    (g g' : ndarray A) (r0 r1 c0 c1 : Z) (x : ndarray B) :
  Np.iop_slice f d g r0 r1 c0 c1 x = Ok g' →
  shape0 g' = shape0 g ∧ shape1 g' = shape1 g.
Proof. unfold Np.iop_slice. case_match; [|done]. by intros [= <-]. Qed.

Lemma fits_iop_slice {A B : Type} (f : A → B → A) (d : B)
    (g g' : ndarray A) (r0 r1 c0 c1 : Z) (x : ndarray B) :
  Np.iop_slice f d g r0 r1 c0 c1 x = Ok g' →
  Np.fits (shape0 x) (Np.bound (shape0 g) r1 - Np.bound (shape0 g) r0) = true ∧
  Np.fits (shape1 x) (Np.bound (shape1 g) c1 - Np.bound (shape1 g) c0) = true.
Proof.
  unfold Np.iop_slice. case_match eqn:E; [|done]. intros _.
  by apply andb_true_iff in E.
Qed.

Lemma at_iop_slice_scalar {A : Type} (f : A → A) (g : ndarray A)
    (r0 r1 c0 c1 : Z) (i j : nat) :
  Np.at_ (Np.iop_slice_scalar f g r0 r1 c0 c1) i j =
  (λ a, if Np.within (Np.bound (shape0 g) r0) (Np.bound (shape0 g) r1) i &&
           Np.within (Np.bound (shape1 g) c0) (Np.bound (shape1 g) c1) j
        then f a else a) <$> Np.at_ g i j.
Proof.
  unfold Np.iop_slice_scalar, Np.at_. cbn [rows]. rewrite list_lookup_imap.
  destruct (rows g !! i) as [row|]; cbn; [|done].
  rewrite list_lookup_imap. by destruct (row !! j).
Qed.

Lemma at_idiv (g w : ndarray float) (i j : nat) :
  Np.at_ (Np.idiv g w) i j = (λ a, (a / Np.item nan w i j)%float) <$> Np.at_ g i j.
Proof.
  unfold Np.idiv, Np.at_. cbn [rows]. rewrite list_lookup_imap.
  destruct (rows g !! i) as [row|]; cbn; [|done].
  rewrite list_lookup_imap. by destruct (row !! j).
Qed.

(** An index that passed the slice test and the broadcast test is inside
    the right-hand side. *)
Lemma bidx_in_range (n lo hi i : nat) :
  Np.fits n (hi - lo) = true → Np.within lo hi i = true →
  (Np.bidx n (i - lo) < n)%nat.
Proof.
  unfold Np.fits, Np.within, Np.bidx. intros Hf Hw.
  apply andb_true_iff in Hw as [H1 H2].
  apply Nat.leb_le in H1. apply Nat.ltb_lt in H2.
  destruct (n =? 1)%nat eqn:E1.
  - apply Nat.eqb_eq in E1. lia.
  - rewrite orb_false_r in Hf. apply Nat.eqb_eq in Hf. lia.
Qed.

Lemma bidx_bdim_l (m n r k : nat) :
  Np.bdim m n = Some r → Np.bidx m (Np.bidx r k) = Np.bidx m k.
Proof.
  unfold Np.bdim, Np.bidx. intros H.
  destruct (m =? 1)%nat eqn:E1; [done|].
  destruct (m =? n)%nat eqn:E2.
  - injection H as <-. by rewrite E1.
  - destruct (n =? 1)%nat eqn:E3; [|done]. injection H as <-. by rewrite E1.
Qed.

Lemma bidx_bdim_r (m n r k : nat) :
  Np.bdim m n = Some r → Np.bidx n (Np.bidx r k) = Np.bidx n k.
Proof.
  unfold Np.bdim, Np.bidx. intros H.
  destruct (n =? 1)%nat eqn:E3; [done|].
  destruct (m =? n)%nat eqn:E2.
  - injection H as <-. apply Nat.eqb_eq in E2. subst. by rewrite E3.
  - destruct (m =? 1)%nat eqn:E1; [|done]. injection H as <-. by rewrite E3.
Qed.

(** ** One round of the accumulator, pixel by pixel *)

Lemma item_map_default {A B : Type} (f : A → B) (d : A) (d' : B)
    (a : ndarray A) (i j : nat) :
  f d = d' → Np.item d' (Np.map f a) i j = f (Np.item d a i j).
Proof. intros <-. apply item_map. Qed.

Lemma fmul_nan (t : dtype) : fmul t nan 1 = nan.
Proof. by destruct t. Qed.

Lemma weight_sample_nan (t : dtype) : weight_sample t nan = nan.
Proof. by destruct t. Qed.

Lemma weighted_values_item (tv ta : dtype) (values areas wv : ndarray float) :
  weighted_values tv ta values areas = Ok wv →
  ∃ r c,
    Np.bdim (shape0 values) (shape0 areas) = Some r ∧
    Np.bdim (shape1 values) (shape1 areas) = Some c ∧
    shape0 wv = r ∧ shape1 wv = c ∧
    ∀ k l, (k < r)%nat → (l < c)%nat →
      Np.item nan wv k l =
      weighted_sample tv ta
        (Np.item nan values (Np.bidx (shape0 values) k) (Np.bidx (shape1 values) l))
        (Np.item nan areas (Np.bidx (shape0 areas) k) (Np.bidx (shape1 areas) l)).
Proof.
  unfold weighted_values, Np.broadcast2. cbn [shape0 shape1 Np.map].
  destruct (Np.bdim (shape0 values) (shape0 areas)) as [r|] eqn:Er; [|done].
  destruct (Np.bdim (shape1 values) (shape1 areas)) as [c|] eqn:Ec; [|done].
  intros [= <-]. exists r, c. repeat split; try done.
  intros k l Hk Hl. unfold Np.item at 1. rewrite at_build by done. cbn [default].
  unfold weighted_sample.
  by rewrite (item_map_default (λ v, fmul tv v 1) nan nan)
    by apply fmul_nan.
Qed.

Lemma accumulate_pixel (R C : nat) (p : placement) (g g' : grids) (i j : nat) :
  grids_shape R C g →
  accumulate p g = Ok g' →
  grids_shape R C g' ∧
  Np.at_ (outputs g') i j =
    (λ o, if covers R C p i j
          then (o + quotient (sample_at R C p i j))%float else o)
      <$> Np.at_ (outputs g) i j ∧
  Np.at_ (weights g') i j =
    (λ w, if covers R C p i j
          then (w + weight (sample_at R C p i j))%float else w)
      <$> Np.at_ (weights g) i j ∧
  Np.at_ (counts g') i j =
    (λ n, if covers R C p i j then int8_add n 1 else n)
      <$> Np.at_ (counts g) i j.
Proof.
  intros ((Ho0 & Ho1) & (Hw0 & Hw1) & (Hc0 & Hc1)). unfold accumulate.
  destruct (weighted_values (p_vtype p) (p_atype p) (p_values p) (p_areas p))
    as [wv|] eqn:Ewv; [|done].
  cbn [mbind result_bind].
  destruct (Np.iop_slice _ _ (outputs g) _ _ _ _ wv) as [o'|] eqn:Eo; [|done].
  destruct (Np.iop_slice _ _ (weights g) _ _ _ _ _) as [w'|] eqn:Ew; [|done].
  intros [= <-]. cbn [outputs weights counts].
  destruct (shape_iop_slice _ _ _ _ _ _ _ _ _ Eo) as [So0 So1].
  destruct (shape_iop_slice _ _ _ _ _ _ _ _ _ Ew) as [Sw0 Sw1].
  destruct (fits_iop_slice _ _ _ _ _ _ _ _ _ Eo) as [Fo0 Fo1].
  destruct (fits_iop_slice _ _ _ _ _ _ _ _ _ Ew) as [Fw0 Fw1].
  destruct (weighted_values_item _ _ _ _ _ Ewv)
    as (r & c & Br & Bc & Sr & Sc & Hwv).
  split; [|split; [|split]].
  - unfold grids_shape. cbn. rewrite So0, So1, Sw0, Sw1. done.
  - rewrite (at_iop_slice _ _ _ _ _ _ _ _ _ i j Eo).
    rewrite Ho0, Ho1 in *. unfold covers.
    destruct (Np.at_ (outputs g) i j) as [o|]; cbn; [|done].
    destruct (Np.within (Np.bound R (p_row0 p)) (Np.bound R (p_row1 p)) i) eqn:W0; [|done].
    destruct (Np.within (Np.bound C (p_col0 p)) (Np.bound C (p_col1 p)) j) eqn:W1; [|done].
    cbn. do 2 f_equal.
    rewrite Hwv.
    + unfold quotient, sample_at, value_at, area_at.
      cbn [s_value s_area s_vtype s_atype]. rewrite Sr, Sc.
      by rewrite (bidx_bdim_l _ _ _ _ Br), (bidx_bdim_l _ _ _ _ Bc),
        (bidx_bdim_r _ _ _ _ Br), (bidx_bdim_r _ _ _ _ Bc).
    + rewrite <- Sr. by eapply bidx_in_range.
    + rewrite <- Sc. by eapply bidx_in_range.
  - rewrite (at_iop_slice _ _ _ _ _ _ _ _ _ i j Ew).
    rewrite Hw0, Hw1 in *. unfold covers.
    destruct (Np.at_ (weights g) i j) as [w|]; cbn; [|done].
    destruct (Np.within (Np.bound R (p_row0 p)) (Np.bound R (p_row1 p)) i) eqn:W0; [|done].
    destruct (Np.within (Np.bound C (p_col0 p)) (Np.bound C (p_col1 p)) j) eqn:W1; [|done].
    cbn. do 2 f_equal. unfold inverse_areas, weight, sample_at, area_at.
    cbn [shape0 shape1 Np.map s_area s_atype].
    by rewrite (item_map_default (weight_sample (p_atype p)) nan nan)
      by apply weight_sample_nan.
  - rewrite at_iop_slice_scalar. rewrite Hc0, Hc1. done.
Qed.

(** ** All rounds *)

Lemma grids_shape_zero (R C : nat) : grids_shape R C (zero_grids R C).
Proof. by unfold grids_shape, zero_grids. Qed.

Lemma accumulate_all_pixel (R C : nat) (ps : list placement) (g g' : grids)
    (i j : nat) :
  grids_shape R C g →
  accumulate_all ps g = Ok g' →
  grids_shape R C g' ∧
  Np.at_ (outputs g') i j =
    (λ o, fold_left PrimFloat.add (quotient <$> samples_at R C ps i j) o)
      <$> Np.at_ (outputs g) i j ∧
  Np.at_ (weights g') i j =
    (λ w, fold_left PrimFloat.add (weight <$> samples_at R C ps i j) w)
      <$> Np.at_ (weights g) i j ∧
  Np.at_ (counts g') i j =
    (λ n, fold_left (λ n _, int8_add n 1) (samples_at R C ps i j) n)
      <$> Np.at_ (counts g) i j.
Proof.
  revert g. induction ps as [|p ps IH]; intros g Hs.
  - intros [= <-]. cbn. rewrite !option_fmap_id. done.
  - cbn [accumulate_all mbind result_bind].
    destruct (accumulate p g) as [g1|] eqn:E1; [|done]. intros E2.
    destruct (accumulate_pixel R C p g g1 i j Hs E1) as (Hs1 & Ho & Hw & Hc).
    destruct (IH g1 Hs1 E2) as (Hs2 & Ho2 & Hw2 & Hc2).
    split; [done|]. rewrite Ho2, Hw2, Hc2, Ho, Hw, Hc.
    rewrite <- !option_fmap_compose. cbn [samples_at].
    destruct (covers R C p i j); cbn; done.
Qed.

(** ** The finished mosaic, pixel by pixel *)

Lemma wrap8_succ (k : Z) : wrap 8 (wrap 8 k + 1) = wrap 8 (k + 1).
Proof.
  unfold wrap. change (2 ^ (8 - 1)) with 128. change (2 ^ 8) with 256.
  replace ((k + 128) mod 256 - 128 + 1 + 128) with ((k + 128) mod 256 + 1) by lia.
  rewrite Zplus_mod_idemp_l. f_equal. f_equal. lia.
Qed.

Lemma wrap8_range (k : Z) : -128 ≤ wrap 8 k ≤ 127.
Proof.
  unfold wrap. change (2 ^ (8 - 1)) with 128. change (2 ^ 8) with 256.
  pose proof (Z.mod_pos_bound (k + 128) 256). lia.
Qed.

Lemma wrap8_small (k : Z) : -128 ≤ k ≤ 127 → wrap 8 k = k.
Proof.
  intros Hk. unfold wrap. change (2 ^ (8 - 1)) with 128. change (2 ^ 8) with 256.
  rewrite Z.mod_small by lia. lia.
Qed.

Lemma int16_of_int8_wrap8 (k : Z) : int16_of_int8 (wrap 8 k) = wrap 8 k.
Proof.
  pose proof (wrap8_range k) as Hr. unfold int16_of_int8.
  generalize dependent (wrap 8 k). intros z Hz. unfold wrap.
  change (2 ^ (16 - 1)) with 32768. change (2 ^ 16) with 65536.
  rewrite Z.mod_small by lia. lia.
Qed.

Lemma count_fold {A : Type} (l : list A) (k : Z) :
  fold_left (λ n _, int8_add n 1) l (wrap 8 k) = wrap 8 (k + Z.of_nat (length l)).
Proof.
  revert k. induction l as [|x l IH]; intros k.
  - cbn. f_equal. lia.
  - cbn [fold_left length]. unfold int8_add at 2. rewrite wrap8_succ, IH.
    f_equal. lia.
Qed.

Lemma finalize_pixel (R C : nat) (ps : list placement) (g : grids) (i j : nat) :
  accumulate_all ps (zero_grids R C) = Ok g →
  (i < R)%nat → (j < C)%nat →
  Np.at_ (finalize g).1 i j = Some (weighted_mean (samples_at R C ps i j)) ∧
  Np.at_ (counts g) i j = Some (wrap 8 (Z.of_nat (length (samples_at R C ps i j)))) ∧
  Np.at_ (finalize g).2 i j = Some (wrap 8 (Z.of_nat (length (samples_at R C ps i j)))).
Proof.
  intros Hacc Hi Hj.
  destruct (accumulate_all_pixel R C ps _ g i j (grids_shape_zero R C) Hacc)
    as (_ & Ho & Hw & Hc).
  unfold zero_grids in Ho, Hw, Hc. cbn [outputs weights counts] in Ho, Hw, Hc.
  rewrite at_zeros in Ho by done. rewrite at_zeros in Hw by done.
  rewrite at_zeros in Hc by done. cbn in Ho, Hw, Hc.
  change 0 with (wrap 8 0) in Hc. rewrite count_fold in Hc. cbn [Z.add] in Hc.
  unfold finalize. cbn [fst snd]. split; [|split].
  - rewrite at_idiv, Ho. cbn. by rewrite (item_at _ _ _ _ _ Hw).
  - exact Hc.
  - rewrite at_map, Hc. cbn. by rewrite int16_of_int8_wrap8.
Qed.

Lemma replace_zero_area_nonzero (a : float) :
  (replace_zero_area a =? 0)%float = false.
Proof.
  unfold replace_zero_area. destruct (a =? 0)%float eqn:E; [reflexivity|exact E].
Qed.

Lemma replace_zero_area_zero (a : float) :
  (a =? 0)%float = true → replace_zero_area a = zero_area_sentinel.
Proof. unfold replace_zero_area. by intros ->. Qed.

(** A pixel that no raster covers: its count is 0 and its composite value
    is the NaN of 0.0/0.0. *)
Lemma uncovered_pixel (R C : nat) (ps : list placement) (g : grids) (i j : nat) :
  accumulate_all ps (zero_grids R C) = Ok g →
  (i < R)%nat → (j < C)%nat →
  samples_at R C ps i j = [] →
  Np.at_ (finalize g).2 i j = Some 0 ∧ Np.at_ (finalize g).1 i j = Some nan.
Proof.
  intros Hacc Hi Hj Hs.
  destruct (finalize_pixel R C _ g i j Hacc Hi Hj) as (Hf & _ & Hc).
  rewrite Hs in Hf, Hc. split; [exact Hc|exact Hf].
Qed.

(** ** Runs of the monad *)

Lemma bind_ok {A B : Type} (m : M A) (f : A → M B) (st st' : store) (b : B) :
  (m ≫= f) st = (Ok b, st') →
  ∃ a st1, m st = (Ok a, st1) ∧ f a st1 = (Ok b, st').
Proof.
  unfold mbind, M_bind. destruct (m st) as [[a|e] st1]; [eauto|discriminate].
Qed.

Lemma bind_run {A B : Type} (m : M A) (f : A → M B) (st st1 : store) (a : A) :
  m st = (Ok a, st1) → (m ≫= f) st = f a st1.
Proof. unfold mbind, M_bind. by intros ->. Qed.

Lemma bind_raise {A B : Type} (m : M A) (f : A → M B) (st st1 : store)
    (e : exn) :
  m st = (Raise e, st1) → (m ≫= f) st = (Raise e, st1).
Proof. unfold mbind, M_bind. by intros ->. Qed.

Lemma run_result {A : Type} (m : M A) (st : store) (a : A) :
  (m st).1 = Ok a → m st = (Ok a, (m st).2).
Proof. destruct (m st) as [r st1]. cbn. by intros ->. Qed.

Lemma lift_ok {A : Type} (r : result A) (a : A) (st st' : store) :
  lift r st = (Ok a, st') → r = Ok a ∧ st' = st.
Proof. unfold lift. by intros [= -> <-]. Qed.

Lemma read_gdal_file_ok (fi : string) (st st' : store)
    (r : Z * Z * geotransform * string * (dtype * ndarray float)) :
  read_gdal_file fi st = (Ok r, st') → st' = st.
Proof.
  unfold read_gdal_file. repeat case_match; congruence.
Qed.

Lemma py_div_ok (a b q : float) (st st' : store) :
  py_div a b st = (Ok q, st') → st' = st.
Proof. unfold py_div. case_match; [discriminate|]. by intros [= _ <-]. Qed.

(** A reading that succeeds leaves the file system as it is; its area
    samples are those of the area raster after the replacement of
    line 227, its value samples those of the raster. *)
Lemma read_placement_ok (ulx uly px py : Qc) (c : corner) (st st' : store)
    (p : placement) (trans : geotransform) (proj : string) :
  read_placement ulx uly px py c st = (Ok (p, trans, proj), st') →
  st' = st ∧
  ∃ xa ya ta pa raw x y,
    read_gdal_file (aligned_area_name c.1.1.1.1) st
      = (Ok (xa, ya, ta, pa, (p_atype p, raw)), st) ∧
    read_gdal_file c.1.1.1.1 st
      = (Ok (x, y, trans, proj, (p_vtype p, p_values p)), st) ∧
    p_areas p = Np.map replace_zero_area raw.
Proof.
  destruct c as [[[[fi x_max] x_min] y_max] y_min]. unfold read_placement.
  cbn [fst]. intros H.
  apply bind_ok in H as ([[[[xa ya] ta] pa] [da areas]] & st1 & H1 & H).
  apply bind_ok in H as ([[[[x_size y_size] tr] pr] [dv values]] & st2 & H2 & H).
  apply bind_ok in H as (ox & st3 & H3 & H).
  apply bind_ok in H as (oy & st4 & H4 & H).
  apply bind_ok in H as (c0 & st5 & H5 & H).
  apply bind_ok in H as (c1 & st6 & H6 & H).
  apply bind_ok in H as (r0 & st7 & H7 & H).
  apply bind_ok in H as (r1 & st8 & H8 & H).
  injection H as <- <- <- <-.
  pose proof (read_gdal_file_ok _ _ _ _ H1) as ->.
  pose proof (read_gdal_file_ok _ _ _ _ H2) as ->.
  apply py_div_ok in H3, H4. subst st3 st4.
  apply lift_ok in H5 as [_ ->]. apply lift_ok in H6 as [_ ->].
  apply lift_ok in H7 as [_ ->]. apply lift_ok in H8 as [_ ->].
  split; [done|].
  exists xa, ya, ta, pa, areas, x_size, y_size. cbn [p_atype p_vtype p_values p_areas].
  done.
Qed.

Lemma write_gdal_file_float_ok (name : string) (trans : geotransform)
    (proj : string) (data : ndarray float) (nodata : float) (st st' : store) :
  write_gdal_file_float name trans proj data nodata st = (Ok (), st') →
  st' = <[name := File (Dataset trans proj (FloatBand (Np.map F32.round data))
                          (Some nodata))]> st.
Proof. unfold write_gdal_file_float. case_match; congruence. Qed.

Lemma write_gdal_file_ok (name : string) (trans : geotransform)
    (proj : string) (data : ndarray Z) (st st' : store) :
  write_gdal_file name trans proj data st = (Ok (), st') →
  st' = <[name := File (Dataset trans proj (Int16Band data) None)]> st.
Proof. unfold write_gdal_file. case_match; congruence. Qed.

(** The loop "Calculating output values" when it ends normally: it has
    read one placement for each record whose name holds "VV", each from a
    file system that differs from the initial one in snapshot names at
    most, and its grids are the accumulation of those placements. *)
Lemma accumulate_files_ok (ulx uly px py : Qc) (W : list string) (st0 : store)
    (extents : list corner) (g g' : grids) (tr tr' : geotransform)
    (pr pr' : string) (st st' : store) :
  (∀ c, c ∈ vv_records extents → snapshot_name c ∈ W) →
  (∀ k, k ∉ W → st !! k = st0 !! k) →
  accumulate_files ulx uly px py extents g tr pr st = (Ok (g', tr', pr'), st') →
  ∃ ps,
    Forall2
      (λ (c : corner) (p : placement),
         ∃ st_k t q,
           (∀ k, k ∉ W → st_k !! k = st0 !! k) ∧
           read_placement ulx uly px py c st_k = (Ok (p, t, q), st_k))
      (vv_records extents) ps ∧
    accumulate_all ps g = Ok g'.
Proof.
  revert g tr pr st. induction extents as [|c extents IH]; intros g tr pr st HW Hst.
  - intros [= <- <- <- <-]. exists []. split; [constructor|done].
  - unfold vv_records in *. rewrite filter_cons in *.
    cbn [accumulate_files].
    destruct (PyStr.contains "VV" c.1.1.1.1) eqn:Evv.
    + rewrite decide_True in * by done. intros H.
      apply bind_ok in H as ([[p t1] p1] & st1 & H1 & H).
      apply bind_ok in H as (g1 & st2 & H2 & H).
      apply bind_ok in H as ([] & st3 & H3 & H).
      pose proof (read_placement_ok _ _ _ _ _ _ _ _ _ _ H1) as [-> _].
      apply lift_ok in H2 as [H2 ->].
      apply write_gdal_file_float_ok in H3.
      apply IH in H as (ps & Hps & Hacc).
      * exists (p :: ps). split.
        -- constructor; [|exact Hps]. by exists st, t1, p1.
        -- cbn [accumulate_all mbind result_bind]. by rewrite H2.
      * intros c' Hc'. apply HW. by apply elem_of_cons; right.
      * intros k Hk. subst st3. rewrite lookup_insert_ne; [by apply Hst|].
        intros <-. apply Hk. apply HW. by apply elem_of_cons; left.
    + rewrite decide_False in * by done. intros H.
      by apply IH in H.
Qed.

(** Rasters whose names lack "VV" are passed over, whatever polarization
    was requested. *)
Lemma accumulate_files_skips (ulx uly px py : Qc) (extents : list corner)
    (g : grids) (tr : geotransform) (pr : string) (st : store) :
  Forall (λ c : corner, PyStr.contains "VV" c.1.1.1.1 = false) extents →
  accumulate_files ulx uly px py extents g tr pr st = (Ok (g, tr, pr), st).
Proof.
  induction 1 as [|[[[[fi x_max] x_min] y_max] y_min] extents Hc _ IH];
    [reflexivity|].
  cbn [accumulate_files fst] in *. by rewrite Hc.
Qed.

(** ** make_composite, end to end *)

Lemma grid_length_ok (a b px : Qc) (n : nat) (st st' : store) :
  grid_length a b px st = (Ok n, st') → st' = st.
Proof.
  unfold grid_length. intros H.
  apply bind_ok in H as (q & st1 & H1 & H).
  apply bind_ok in H as (z & st2 & H2 & H).
  apply py_div_ok in H1. apply lift_ok in H2 as [_ ->].
  injection H as _ <-. done.
Qed.

Lemma grid_dims_store (e : extent) (px py : Qc) (d : nat * nat) (st st' : store) :
  grid_dims e px py st = (Ok d, st') → st' = st.
Proof.
  destruct e as [[[ulx lrx] uly] lry]. unfold grid_dims. intros H.
  apply bind_ok in H as (x & st1 & H1 & H).
  apply bind_ok in H as (y & st2 & H2 & H).
  apply grid_length_ok in H1, H2. injection H as _ <-. by subst.
Qed.

Lemma read_corners_ok `{External} (fi : string) (c : corner) (st st' : store) :
  read_corners fi st = (Ok c, st') → st' = st.
Proof. unfold read_corners. repeat case_match; congruence. Qed.

Lemma mapM_read_corners_ok `{External} (l : list string) (cs : list corner)
    (st st' : store) :
  mapM read_corners l st = (Ok cs, st') → st' = st.
Proof.
  revert cs st'. induction l as [|a l IH]; intros cs st' Hex.
  - by injection Hex.
  - cbn [mapM] in Hex.
    apply bind_ok in Hex as (c & sta & Hc & Hex).
    apply bind_ok in Hex as (cs' & stb & Hcs & Hex).
    injection Hex as _ <-.
    apply read_corners_ok in Hc as ->. by eapply IH.
Qed.

(** A run that ends normally has passed the stages before the loop, has
    read one placement for each aligned raster whose name holds "VV", and
    has written the finalised arrays of their accumulation. *)
Lemma make_composite_ok `{External} (outfile : string)
    (infiles : option (list string)) (path requested_pol : option string)
    (resolution : option Qc) (st st' : store) :
  make_composite outfile infiles path requested_pol resolution st = (Ok (), st') →
  ∃ (s : stages) (ps : list placement) (g : grids)
    (trans : geotransform) (proj : string) (st2 : store),
    staged infiles path requested_pol resolution st s ∧
    loop_reads s ps ∧
    accumulate_all ps (zero_grids (g_rows s) (g_cols s)) = Ok g ∧
    st' = <["counts.tif"%string :=
              File (Dataset trans proj (Int16Band (finalize g).2) None)]>
          (<[outfile :=
              File (Dataset trans proj
                      (FloatBand (Np.map F32.round (finalize g).1))
                      (Some 0%float))]>
           st2).
Proof.
  unfold make_composite. intros H0.
  apply bind_ok in H0 as (inputs & st0 & Hin & H0).
  apply lift_ok in Hin as [Hin ->].
  destruct inputs as [files|]; [|discriminate].
  apply bind_ok in H0 as (resampled & st1 & Hre & H0).
  destruct resampled as [[|f0 fs]|]; [discriminate| |discriminate].
  apply bind_ok in H0 as ([[[x y] trans] proj] & st2 & Hgeo & H0).
  assert (st2 = st1) as ->.
  { unfold read_gdal_file_geo in Hgeo. by case_match; simplify_eq. }
  apply bind_ok in H0 as (extents & st3 & Hex & H0).
  pose proof (mapM_read_corners_ok _ _ _ _ Hex) as ->.
  destruct (get_full_extent extents) as [[[ulx lrx] uly] lry] eqn:Ee.
  apply bind_ok in H0 as ([x_pixels y_pixels] & st4 & Hdim & H0).
  pose proof (grid_dims_store _ _ _ _ _ _ Hdim) as ->.
  apply bind_ok in H0 as ([[g' trans'] proj'] & st6 & Hacc & H0).
  apply (accumulate_files_ok _ _ _ _ (snapshot_name <$> vv_records extents) st1)
    in Hacc as (ps & Hps & Hacc); [| |done].
  2:{ intros c Hc. by apply list_elem_of_fmap_2. }
  destruct (finalize g') as [composite coverage] eqn:Ef.
  apply bind_ok in H0 as ([] & st7 & Hw1 & Hw2).
  apply write_gdal_file_float_ok in Hw1. apply write_gdal_file_ok in Hw2.
  exists (Stages files (f0 :: fs) st1 trans proj extents y_pixels x_pixels),
    ps, g', trans', proj', st6.
  split; [|split; [|split]].
  - unfold staged. cbn [g_files g_aligned g_store g_trans g_proj g_extents
                          g_rows g_cols].
    split; [exact Hin|]. split; [exact Hre|].
    split; [by exists f0, x, y|]. split; [exact Hex|].
    by rewrite Ee.
  - unfold loop_reads. cbn [g_store g_trans g_extents]. by rewrite Ee.
  - exact Hacc.
  - subst. by rewrite Ef.
Qed.

(** Every pixel of a finished mosaic, as it is stored. *)
Lemma make_composite_pixels `{External} (outfile : string)
    (infiles : option (list string)) (path requested_pol : option string)
    (resolution : option Qc) (st st' : store) :
  make_composite outfile infiles path requested_pol resolution st = (Ok (), st') →
  ∃ (s : stages) (ps : list placement),
    staged infiles path requested_pol resolution st s ∧
    loop_reads s ps ∧
    (outfile ≠ "counts.tif"%string → stored_nodata st' outfile = Some 0%float) ∧
    ∀ i j, (i < g_rows s)%nat → (j < g_cols s)%nat →
      let l := samples_at (g_rows s) (g_cols s) ps i j in
      (outfile ≠ "counts.tif"%string →
       stored_float st' outfile i j = Some (F32.round (weighted_mean l))) ∧
      stored_count st' "counts.tif" i j = Some (wrap 8 (Z.of_nat (length l))).
Proof.
  intros Hrun.
  apply make_composite_ok in Hrun
    as (s & ps & g & tr & pr & st1 & Hs & Hps & Hacc & ->).
  exists s, ps. split; [exact Hs|]. split; [exact Hps|].
  unfold stored_nodata, stored_float, stored_count.
  split.
  { intros Hne. rewrite lookup_insert_ne by done. by rewrite lookup_insert_eq. }
  intros i j Hi Hj.
  destruct (finalize_pixel _ _ _ g i j Hacc Hi Hj) as (Hf & _ & Hc).
  split.
  - intros Hne. rewrite lookup_insert_ne by done. rewrite lookup_insert_eq.
    cbv beta iota. by rewrite at_map, Hf.
  - rewrite lookup_insert_eq. cbv beta iota. exact Hc.
Qed.






(** C10: the counter of a pixel is an 8-bit integer that wraps at every
    addition, so in a run that ends normally the count stored for a pixel
    under [n] rasters is [n] wrapped to 8 bits; the cast to 16 bits comes
    too late to change that, and from 128 rasters on the stored count is
    not [n]. *)
Theorem coverage_count_wraps `{External} (outfile : string)
    (infiles : option (list string)) (path requested_pol : option string)
    (resolution : option Qc) (st st' : store) :
  make_composite outfile infiles path requested_pol resolution st = (Ok (), st') →
  ∃ (s : stages) (ps : list placement),
    staged infiles path requested_pol resolution st s ∧
    loop_reads s ps ∧
    ∀ i j, (i < g_rows s)%nat → (j < g_cols s)%nat →
      let n := Z.of_nat (length (samples_at (g_rows s) (g_cols s) ps i j)) in
      stored_count st' "counts.tif" i j = Some (wrap 8 n) ∧
      (n ≤ 127 → wrap 8 n = n) ∧
      (127 < n → wrap 8 n < n ∧ wrap 8 n ≤ 127) ∧
      (n = 128 → wrap 8 n = -128).
Proof.
  intros Hrun.
  destruct (make_composite_pixels _ _ _ _ _ _ _ Hrun)
    as (s & ps & Hs & Hps & _ & Hpx).
  exists s, ps. split; [exact Hs|]. split; [exact Hps|].
  intros i j Hi Hj n. destruct (Hpx i j Hi Hj) as [_ Hc].
  split; [exact Hc|].
  pose proof (wrap8_range n) as Hr.
  split; [intros Hn; apply wrap8_small; lia|].
  split; [lia|]. by intros ->.
Qed.

Lemma coverage_count_wraps_witness :
  let run := @make_composite Fixture.external "out.tif"
               (Some Fixture.crowd_names) None None None Fixture.crowd in
  length Fixture.crowd_names = 128%nat ∧
  stored_count run.2 "counts.tif" 0 0 = Some (-128) ∧
  ∃ (s : stages) (ps : list placement),
    @staged Fixture.external (Some Fixture.crowd_names) None None None
      Fixture.crowd s ∧
    loop_reads s ps ∧
    ∀ i j, (i < g_rows s)%nat → (j < g_cols s)%nat →
      let n := Z.of_nat (length (samples_at (g_rows s) (g_cols s) ps i j)) in
      stored_count run.2 "counts.tif" i j = Some (wrap 8 n) ∧
      (n ≤ 127 → wrap 8 n = n) ∧
      (127 < n → wrap 8 n < n ∧ wrap 8 n ≤ 127) ∧
      (n = 128 → wrap 8 n = -128).
Proof.
  cbv zeta. split; [reflexivity|]. split; [vm_compute; reflexivity|].
  apply (@coverage_count_wraps Fixture.external "out.tif"
           (Some Fixture.crowd_names) None None None Fixture.crowd).
  apply (run_result (@make_composite Fixture.external "out.tif"
                       (Some Fixture.crowd_names) None None None)).
  vm_compute. reflexivity.
Defined.

(** C2 at two rasters that touch at a corner: the run ends normally, the
    pixel north-east of both has count 0, and the composite stores NaN there
    while declaring 0 as its no-data value. *)
Theorem uncovered_pixel_is_stored_as_nan :
  let run := @make_composite Fixture.external "out.tif"
               (Some ["a_flat_VV.tif"; "b_flat_VV.tif"]%string) None None None
               Fixture.diagonal in
  run.1 = Ok () ∧
  stored_count run.2 "counts.tif" 0 1 = Some 0 ∧
  stored_nodata run.2 "out.tif" = Some 0%float ∧
  ∃ x, stored_float run.2 "out.tif" 0 1 = Some x ∧
       PrimFloat.is_nan x = true ∧ (x =? 0)%float = false.
Proof.
  cbv zeta. split; [vm_compute; reflexivity|].
  split; [vm_compute; reflexivity|].
  split; [vm_compute; reflexivity|].
  exists nan. split; [vm_compute; reflexivity|]. split; reflexivity.
Qed.

(** ** The polarization *)

(** C4 at a VH scene: the substitution that names the area raster leaves a
    VH name as it is, so the second link of the first file collides with
    the file itself and the run stops; and the accumulator passes over
    rasters without "VV" in their names, whatever was requested. *)
Theorem requested_polarization_is_not_used :
  area_name "a_flat_VH.tif" = "a_flat_VH.tif"%string ∧
  area_reproj_name "a_flat_VH.tif" = "a_flat_VH.tif"%string ∧
  aligned_area_name "a_flat_VH_reproj.tif" = "a_flat_VH_reproj.tif"%string ∧
  (@make_composite Fixture.external "out.tif"
     (Some ["a_flat_VH.tif"; "b_flat_VH.tif"]%string) None (Some "VH"%string) None
     Fixture.diagonal_vh).1 = Raise FileExistsError ∧
  ∀ ulx uly px py g tr pr st,
    accumulate_files ulx uly px py Fixture.vh_extents g tr pr st
    = (Ok (g, tr, pr), st).
Proof.
  split; [reflexivity|]. split; [reflexivity|]. split; [reflexivity|].
  split; [vm_compute; reflexivity|].
  intros. apply accumulate_files_skips. repeat constructor.
Qed.

(** With "VV" the substitutions pair the rasters as intended. *)
Lemma vv_names :
  area_name "a_flat_VV.tif" = "a_area_map.tif"%string ∧
  area_reproj_name "a_flat_VV.tif" = "a_area_map_reproj.tif"%string ∧
  reproj_name "a_flat_VV.tif" = "a_flat_VV_reproj.tif"%string ∧
  aligned_area_name "a_flat_VV_reproj.tif" = "a_area_map_reproj.tif"%string.
Proof. repeat split. Qed.

(** ** Resampling or linking *)

(** In the home zone the choice between resampling and linking compares the
    number of columns of the raster with the target pixel size. *)
Lemma reproject_file_same_zone `{External} (pix_size : Qc)
    (home_zone : option Qc) (hemi : option string) (fi : string)
    (st : store) (z : Z) (d : dataset) :
  get_zone_from_proj fi st = (Ok (Some z), st) →
  zone_differs (Some z) home_zone = false →
  gdal_Open st fi = Some d →
  reproject_file pix_size home_zone hemi fi st =
  (if Num.ltb (Num.of_Z (RasterXSize d)) pix_size
   then gdal_Warp (reproj_name fi) fi None pix_size;;
        gdal_Warp (area_reproj_name fi) (area_name fi) None pix_size;;
        mret (reproj_name fi)
   else os_symlink fi (reproj_name fi);;
        os_symlink (area_name fi) (area_reproj_name fi);;
        mret (reproj_name fi)) st.
Proof.
  intros Hz Hd Ho. unfold reproject_file.
  unfold mbind at 1. unfold M_bind at 1. rewrite Hz, Hd.
  unfold mbind at 1. unfold M_bind at 1.
  unfold mbind at 1. unfold M_bind at 1.
  unfold read_gdal_file_geo at 1. rewrite Ho.
  destruct (Num.ltb (Num.of_Z (RasterXSize d)) pix_size); unfold mbind, M_bind;
    repeat case_match; congruence.
Qed.

(** C5 at two rasters of 10 m pixels and 40 columns in the home zone, with a
    requested pixel size of 30 m: both are linked; and at two rasters of
    30 m pixels and 2 columns with no request: both are resampled. *)
Theorem resampling_is_decided_by_the_column_count :
  let fine := @reproject_to_median_utm Fixture.external
                ["c_flat_VV.tif"; "d_flat_VV.tif"]%string (Some (Num.of_Z 30))
                Fixture.fine in
  let coarse := @reproject_to_median_utm Fixture.external
                  ["e_flat_VV.tif"; "f_flat_VV.tif"]%string None
                  Fixture.coarse in
  pixel_widths Fixture.fine ["c_flat_VV.tif"; "d_flat_VV.tif"]%string
    = [Num.of_Z 10; Num.of_Z 10] ∧
  fine.1 = Ok (Some ["c_flat_VV_reproj.tif"; "d_flat_VV_reproj.tif"]%string) ∧
  fine.2 !! "c_flat_VV_reproj.tif"%string = Some (Link "c_flat_VV.tif") ∧
  fine.2 !! "d_flat_VV_reproj.tif"%string = Some (Link "d_flat_VV.tif") ∧
  pixel_widths Fixture.coarse ["e_flat_VV.tif"; "f_flat_VV.tif"]%string
    = [Num.of_Z 30; Num.of_Z 30] ∧
  (@target_pixel_size ["e_flat_VV.tif"; "f_flat_VV.tif"]%string None
     Fixture.coarse).1 = Ok (Num.of_Z 30) ∧
  coarse.2 !! "e_flat_VV_reproj.tif"%string
    = Some (File (@gdal_Warp_result Fixture.external
                    (Fixture.utm11 500000 4000000 30 (Np.zeros 1%float 1 2))
                    None (Num.of_Z 30))) ∧
  coarse.2 !! "f_flat_VV_reproj.tif"%string
    = Some (File (@gdal_Warp_result Fixture.external
                    (Fixture.utm11 500060 4000000 30 (Np.zeros 1%float 1 2))
                    None (Num.of_Z 30))).
Proof.
  cbv zeta. repeat split; vm_compute; reflexivity.
Qed.

(** ** Too few inputs *)

Lemma length_insert_sorted (x : string) (l : list string) :
  length (PyStr.insert_sorted x l) = S (length l).
Proof.
  induction l as [|y l IH]; [reflexivity|].
  cbn [PyStr.insert_sorted]. destruct (String.ltb y x); cbn; [by rewrite IH|done].
Qed.

Lemma length_sort (l : list string) : length (PyStr.sort l) = length l.
Proof.
  induction l as [|x l IH]; [reflexivity|].
  unfold PyStr.sort in *. cbn [foldr]. by rewrite length_insert_sorted, IH.
Qed.

Lemma mapM_ok_length {A B : Type} (f : A → M B) (l : list A) (r : list B)
    (st st' : store) :
  mapM f l st = (Ok r, st') → length r = length l.
Proof.
  revert r st st'. induction l as [|x l IH]; intros r st st'.
  - by intros [= <- _].
  - cbn [mapM]. intros Hr.
    apply bind_ok in Hr as (y & st1 & Hy & Hr).
    apply bind_ok in Hr as (k & st2 & Hk & Hr).
    injection Hr as <- _. cbn [length]. f_equal. by eapply IH.
Qed.

(** A list that [reproject_to_median_utm] returns has at least two names. *)
Lemma reproject_ok_length `{External} (files names : list string)
    (resolution : option Qc) (st st' : store) :
  reproject_to_median_utm files resolution st = (Ok (Some names), st') →
  (2 ≤ length names)%nat.
Proof.
  unfold reproject_to_median_utm.
  destruct (length files <? 2)%nat eqn:El; [discriminate|]. intros Hr.
  apply bind_ok in Hr as (pix & st1 & _ & Hr).
  apply bind_ok in Hr as (zones & st2 & _ & Hr).
  apply bind_ok in Hr as (hemi & st3 & _ & Hr).
  apply bind_ok in Hr as (new_files & st4 & Hm & Hr).
  injection Hr as <- _. apply mapM_ok_length in Hm. rewrite Hm.
  apply Nat.ltb_ge in El. exact El.
Qed.

(** C8: with fewer than two input files [reproject_to_median_utm] returns
    None and touches no file. [make_composite] takes the length of that
    result without looking at it, so the run ends in the TypeError of
    [len(None)], with the file system as it found it. The test of lines
    187-189 is not what stops the run, and it never could: a list that
    [reproject_to_median_utm] returns has at least two names, so
    [len(resampled_files) == 0] never holds. *)
Theorem too_few_inputs_end_in_type_error `{External} (outfile : string)
    (infiles : option (list string)) (path requested_pol : option string)
    (resolution : option Qc) (files : list string) (st : store) :
  input_files infiles path (default "VV"%string requested_pol)
    = Ok (Some files) →
  (length files < 2)%nat →
  reproject_to_median_utm (PyStr.sort files) resolution st = (Ok None, st) ∧
  make_composite outfile infiles path requested_pol resolution st
    = (Raise TypeError, st) ∧
  ∀ (files' names : list string) (resolution' : option Qc) (st0 st1 : store),
    reproject_to_median_utm files' resolution' st0 = (Ok (Some names), st1) →
    (2 ≤ length names)%nat.
Proof.
  intros Hin Hlen.
  assert (Hr : reproject_to_median_utm (PyStr.sort files) resolution st
               = (Ok None, st)).
  { unfold reproject_to_median_utm. rewrite length_sort.
    apply Nat.ltb_lt in Hlen. by rewrite Hlen. }
  split; [exact Hr|]. split.
  - unfold make_composite. rewrite Hin.
    unfold mbind, M_bind, lift. by rewrite Hr.
  - intros files' names resolution' st0 st1. apply reproject_ok_length.
Qed.

Lemma too_few_inputs_end_in_type_error_witness :
  @reproject_to_median_utm Fixture.external
    (PyStr.sort ["a_flat_VV.tif"%string]) None Fixture.diagonal
    = (Ok None, Fixture.diagonal) ∧
  @make_composite Fixture.external "out.tif" (Some ["a_flat_VV.tif"%string])
    None None None Fixture.diagonal
    = (Raise TypeError, Fixture.diagonal) ∧
  ∀ (files' names : list string) (resolution' : option Qc) (st0 st1 : store),
    @reproject_to_median_utm Fixture.external files' resolution' st0
      = (Ok (Some names), st1) →
    (2 ≤ length names)%nat.
Proof.
  apply (@too_few_inputs_end_in_type_error Fixture.external "out.tif"
           (Some ["a_flat_VV.tif"%string]) None None None
           ["a_flat_VV.tif"%string] Fixture.diagonal).
  - reflexivity.
  - cbn. lia.
Defined.

(** ** The target pixel size *)

Lemma py_max_comm (a b : Qc) : Num.py_max a b = Num.py_max b a.
Proof. unfold Num.py_max. qc_cases; try reflexivity; qc_order. Qed.

Lemma get_max_pixel_size_from_ok (files : list string) (s : Qc) (st : store) :
  Forall (λ fi, is_Some (gdal_Open st fi)) files →
  get_max_pixel_size_from s files st
  = (Ok (max_fold (pixel_widths st files) s), st).
Proof.
  intros Hf. revert s. induction Hf as [|fi files [d Hd] _ IH]; intros s.
  - reflexivity.
  - cbn [get_max_pixel_size_from]. unfold mbind at 1. unfold M_bind at 1.
    unfold read_gdal_file_geo at 1. rewrite Hd, IH.
    unfold pixel_widths. cbn [omap list_omap]. rewrite Hd.
    cbn [fmap option_fmap option_map]. unfold max_fold. cbn [fold_left].
    by rewrite py_max_comm.
Qed.

Lemma max_fold_with_seed (l : list Qc) (s : Qc) :
  is_max (max_fold l s) (s :: l) ∧
  ((∃ w, w ∈ l ∧ (s <= w)%Qc) → is_max (max_fold l s) l).
Proof.
  destruct (max_fold_spec l s) as (Hs & Hall & Hin). split.
  - split.
    + apply elem_of_cons. destruct Hin as [->|Hin]; [by left|by right].
    + intros x Hx. apply elem_of_cons in Hx as [->|Hx]; [exact Hs|by apply Hall].
  - intros (w & Hw & Hsw). split; [|exact Hall].
    destruct Hin as [Hin|Hin]; [|exact Hin].
    assert (w = max_fold l s) as <-; [|exact Hw].
    apply Qcle_antisym; [by apply Hall|]. by rewrite Hin.
Qed.

(** C9, as the code has it: the test [if resolution:] takes a resolution
    that is given and is not zero as the target pixel size, whatever the
    inputs are; without one, and with the resolution 0, the target is what
    [get_max_pixel_size] returns, which for inputs that can be opened is the
    greatest of -999 and their pixel widths, and the greatest pixel width as
    soon as one width is -999 or more. *)
Theorem target_pixel_size_spec (files : list string) (resolution : option Qc)
    (st : store) :
  (∀ r, resolution = Some r → r ≠ Num.of_Z 0 →
        target_pixel_size files resolution st = (Ok r, st)) ∧
  (resolution = None ∨ resolution = Some (Num.of_Z 0) →
   target_pixel_size files resolution st = get_max_pixel_size files st ∧
   (Forall (λ fi, is_Some (gdal_Open st fi)) files →
    ∃ pix_size,
      get_max_pixel_size files st = (Ok pix_size, st) ∧
      is_max pix_size (Num.of_Z (-999) :: pixel_widths st files) ∧
      ((∃ w, w ∈ pixel_widths st files ∧ (Num.of_Z (-999) <= w)%Qc) →
       is_max pix_size (pixel_widths st files)))).
Proof.
  split.
  - intros r -> Hr. unfold target_pixel_size, Num.truthy.
    destruct (Qc_eq_bool r 0) eqn:E; [|reflexivity].
    apply Qc_eq_bool_correct in E. by destruct Hr.
  - intros Hres. split.
    + by destruct Hres as [->| ->].
    + intros Hopen.
      exists (max_fold (pixel_widths st files) (Num.of_Z (-999))).
      split; [by apply get_max_pixel_size_from_ok|].
      apply max_fold_with_seed.
Qed.

Lemma target_pixel_size_spec_witness :
  target_pixel_size ["c_flat_VV.tif"; "d_flat_VV.tif"]%string
    (Some (Num.of_Z 30)) Fixture.fine = (Ok (Num.of_Z 30), Fixture.fine) ∧
  ∃ pix_size,
    target_pixel_size ["c_flat_VV.tif"; "d_flat_VV.tif"]%string None
      Fixture.fine = (Ok pix_size, Fixture.fine) ∧
    is_max pix_size
      (pixel_widths Fixture.fine ["c_flat_VV.tif"; "d_flat_VV.tif"]%string).
Proof.
  split.
  - apply (target_pixel_size_spec ["c_flat_VV.tif"; "d_flat_VV.tif"]%string
             (Some (Num.of_Z 30)) Fixture.fine); [reflexivity|discriminate].
  - destruct (target_pixel_size_spec ["c_flat_VV.tif"; "d_flat_VV.tif"]%string
                None Fixture.fine) as [_ Hmax].
    destruct Hmax as [Hrun (pix_size & Hget & _ & Hmax)]; [by left| |].
    + repeat constructor; eexists; vm_compute; reflexivity.
    + exists pix_size. split; [by rewrite Hrun|]. apply Hmax.
      exists (Num.of_Z 10). split; [|done].
      apply elem_of_cons. left. apply Qc_is_canon. reflexivity.
Defined.

(** C9, as stated, fails for the resolution 0: it is given, and the
    target pixel size is the greatest pixel width of the inputs, 10. *)
Lemma zero_resolution_is_not_used :
  (target_pixel_size ["c_flat_VV.tif"; "d_flat_VV.tif"]%string
     (Some (Num.of_Z 0)) Fixture.fine).1 = Ok (Num.of_Z 10) ∧
  Num.of_Z 10 ≠ Num.of_Z 0.
Proof. split; [vm_compute; reflexivity|discriminate]. Qed.

(** ** Further checks of the embedding *)

Lemma weighted_mean_nil : weighted_mean [] = nan.
Proof. reflexivity. Qed.

(** In every run that ends normally, a pixel of the grid that received no
    sample is stored as NaN with count 0, under the declared no-data
    value 0. *)
Lemma make_composite_uncovered `{External} (outfile : string)
    (infiles : option (list string)) (path requested_pol : option string)
    (resolution : option Qc) (st st' : store) :
  make_composite outfile infiles path requested_pol resolution st = (Ok (), st') →
  outfile ≠ "counts.tif"%string →
  ∃ (s : stages) (ps : list placement),
    staged infiles path requested_pol resolution st s ∧
    loop_reads s ps ∧
    stored_nodata st' outfile = Some 0%float ∧
    ∀ i j, (i < g_rows s)%nat → (j < g_cols s)%nat →
      samples_at (g_rows s) (g_cols s) ps i j = [] →
      stored_float st' outfile i j = Some nan ∧
      stored_count st' "counts.tif" i j = Some 0.
Proof.
  intros Hrun Hne.
  destruct (make_composite_pixels _ _ _ _ _ _ _ Hrun)
    as (s & ps & Hs & Hps & Hnd & Hpx).
  exists s, ps. split; [exact Hs|]. split; [exact Hps|].
  split; [by apply Hnd|].
  intros i j Hi Hj Hl. destruct (Hpx i j Hi Hj) as [Hf Hc].
  rewrite Hl in Hf, Hc. split; [by apply Hf|exact Hc].
Qed.

Example zone_of_fixture :
  (get_zone_from_proj "a_flat_VV.tif" Fixture.diagonal).1 = Ok (Some 11) ∧
  (get_hemisphere "a_flat_VV.tif" Fixture.diagonal).1 = Ok (Some "N"%string).
Proof. split; vm_compute; reflexivity. Qed.

Example search_backtracks :
  re_search_digits_any "zone 11" = Some ("1"%string, "1"%char) ∧
  re_search_digits_any "zone 7" = None ∧
  re_search_digits_any "zone 33S" = Some ("33"%string, "S"%char).
Proof. repeat split. Qed.

Example median_of_two_zones :
  this <$> np_median [12; 10] = Some (11 # 1)%Q ∧
  this <$> np_median [11; 10] = Some (21 # 2)%Q ∧
  np_median [] = None.
Proof. repeat split. Qed.

Example epsg_of_zone_7 :
  (epsg_code (Some "N"%string) (Some (Num.of_Z 7)) ∅).1 = Ok "EPSG:32607"%string ∧
  (epsg_code (Some "S"%string) (Some (Num.of_Z 33)) ∅).1 = Ok "EPSG:32733"%string.
Proof. split; vm_compute; reflexivity. Qed.

Example replace_examples :
  PyStr.replace "aa" "b" "aaaa" = "bb"%string ∧
  PyStr.replace ".tif" "_reproj.tif" "x.tif.tif" = "x_reproj.tif_reproj.tif"%string ∧
  PyStr.replace "" "-" "ab" = "-a-b-"%string ∧
  PyStr.sort ["b"; "a"; "c"; "a"]%string = ["a"; "a"; "b"; "c"]%string.
Proof. repeat split. Qed.

Example slice_bounds :
  Np.bound 5 (-2) = 3%nat ∧ Np.bound 5 7 = 5%nat ∧ Np.bound 5 (-9) = 0%nat.
Proof. repeat split. Qed.

(** * Further properties of the code *)

(** ** More on runs of the monad *)

Lemma bind_congr {A B : Type} (m m' : M A) (f : A → M B) (st st' : store) :
  m st = m' st' → (m ≫= f) st = (m' ≫= f) st'.
Proof. unfold mbind, M_bind. by intros ->. Qed.

(** ** More on the extent union *)



Lemma min_fold_with_seed (l : list Qc) (s : Qc) :
  (∃ w, w ∈ l ∧ (w <= s)%Qc) → is_min (min_fold l s) l.
Proof.
  destruct (min_fold_spec l s) as (Hs & Hall & Hin).
  intros (w & Hw & Hsw). split; [|exact Hall].
  destruct Hin as [Hin|Hin]; [|exact Hin].
  assert (w = min_fold l s) as <-; [|exact Hw].
  apply Qcle_antisym; [by rewrite Hin|by apply Hall].
Qed.



Lemma py_min_absorb (a m : Qc) : (m <= a)%Qc → Num.py_min a m = m.
Proof. intros H. unfold Num.py_min. qc_cases; [reflexivity|qc_order]. Qed.

Lemma py_max_absorb (a m : Qc) : (a <= m)%Qc → Num.py_max a m = m.
Proof. intros H. unfold Num.py_max. qc_cases; [reflexivity|qc_order]. Qed.

(** X2. A record whose footprint already lies inside the extent of the others
    does not change it; in particular a record listed twice counts once. *)
Theorem get_full_extent_absorbs (corners : list corner) (c : corner) :
  let e := get_full_extent corners in
  (e_min_x e <= c_ulx c)%Qc → (c_lrx c <= e_max_x e)%Qc →
  (c_uly c <= e_max_y e)%Qc → (e_min_y e <= c_lry c)%Qc →
  get_full_extent (corners ++ [c]) = get_full_extent corners.
Proof.
  intros e H1 H2 H3 H4. subst e. unfold get_full_extent in *.
  rewrite fold_left_app. cbn [fold_left].
  destruct (fold_left extent_step corners extent_seed) as [[[a b] d] f].
  destruct c as [[[[fi ulx] lrx] lry] uly].
  unfold e_min_x, e_max_x, e_max_y, e_min_y, c_ulx, c_lrx, c_uly, c_lry in *.
  cbn [fst snd extent_step] in *.
  by rewrite !py_min_absorb, !py_max_absorb.
Qed.

Lemma get_full_extent_absorbs_witness :
  get_full_extent ([Fixture.corner_a; Fixture.corner_b] ++ [Fixture.corner_a])
  = get_full_extent [Fixture.corner_a; Fixture.corner_b].
Proof.
  apply (get_full_extent_absorbs [Fixture.corner_a; Fixture.corner_b]
           Fixture.corner_a); vm_compute; discriminate.
Defined.

(** ** Truncation *)

Lemma this_of_Z (z : Z) : (this (Num.of_Z z) == inject_Z z)%Q.
Proof. unfold Num.of_Z. cbn [this Q2Qc]. apply Qred_correct. Qed.

Lemma int_nonneg (x : Qc) : (0 <= x)%Qc → Num.int x = Qfloor x.
Proof.
  destruct x as [[a b] Hc]. unfold Qcle, Qle, Num.int, Qfloor. cbn.
  intros Ha. change (Qred 0) with 0%Q in Ha. cbn in Ha.
  apply Z.quot_div_nonneg; lia.
Qed.

Lemma int_opp (x : Qc) : Num.int (- x) = - Num.int x.
Proof.
  destruct x as [[a b] Hc]. unfold Num.int, Qcopp, Q2Qc. cbn [this].
  rewrite Qred_opp, Hc. cbn. apply Z.quot_opp_l. lia.
Qed.

Lemma floor_unique (q : Q) (z : Z) :
  (inject_Z z <= q)%Q → (q < inject_Z (z + 1))%Q → Qfloor q = z.
Proof.
  intros H1 H2.
  pose proof (Qfloor_le q) as H3. pose proof (Qlt_floor q) as H4.
  assert (Ha : (inject_Z z < inject_Z (Qfloor q + 1))%Q) by lra.
  assert (Hb : (inject_Z (Qfloor q) < inject_Z (z + 1))%Q) by lra.
  rewrite <- Zlt_Qlt in Ha, Hb. lia.
Qed.

(** [int(q + n) = int(q) + n] for a non-negative [q] and a count [n]. *)
(** ** When a round of the accumulator fails *)

(** A round of the accumulator ends normally exactly when the values and
    the areas broadcast against each other and against the slice; in every
    other case it raises ValueError, and it raises nothing else. *)
Lemma accumulate_placeable (R C : nat) (p : placement) (g : grids) :
  grids_shape R C g →
  if placeable R C p
  then ∃ g', accumulate p g = Ok g' ∧ grids_shape R C g'
  else accumulate p g = Raise ValueError.
Proof.
  intros ((Ho0 & Ho1) & (Hw0 & Hw1) & (Hc0 & Hc1)).
  unfold placeable, accumulate, weighted_values, Np.broadcast2, slice_rows, slice_cols.
  cbn [shape0 shape1 Np.map].
  destruct (Np.bdim (shape0 (p_values p)) (shape0 (p_areas p))) as [r|]; [|done].
  destruct (Np.bdim (shape1 (p_values p)) (shape1 (p_areas p))) as [c|]; [|done].
  unfold Np.iop_slice, inverse_areas, mbind, result_bind, mret, result_ret.
  cbn [shape0 shape1 Np.build Np.map]. rewrite Ho0, Ho1, Hw0, Hw1.
  destruct (Np.fits r _) eqn:F1; [|done].
  destruct (Np.fits c _) eqn:F2; [|done].
  cbn [andb].
  destruct (Np.fits (shape0 (p_areas p)) _) eqn:F3; [|done].
  destruct (Np.fits (shape1 (p_areas p)) _) eqn:F4; [|done].
  cbn [andb]. eexists. split; [reflexivity|].
  unfold grids_shape. cbn. done.
Qed.

(** ** The order of the rounds *)

Lemma samples_at_length (R C : nat) (ps : list placement) (i j : nat) :
  length (samples_at R C ps i j)
  = length (filter (λ p, covers R C p i j = true) ps).
Proof.
  induction ps as [|p ps IH]; [reflexivity|].
  cbn [samples_at]. rewrite filter_cons.
  destruct (covers R C p i j); [rewrite decide_True by done|rewrite decide_False by done];
    cbn; by rewrite ?IH.
Qed.

(** X5. The coverage counts do not depend on the order in which the rasters are
    processed. *)
Theorem counts_permutation (R C : nat) (ps ps' : list placement)
    (g g' : grids) (i j : nat) :
  ps ≡ₚ ps' →
  accumulate_all ps (zero_grids R C) = Ok g →
  accumulate_all ps' (zero_grids R C) = Ok g' →
  (i < R)%nat → (j < C)%nat →
  Np.at_ (finalize g).2 i j = Np.at_ (finalize g').2 i j.
Proof.
  intros Hp Hg Hg' Hi Hj.
  destruct (finalize_pixel R C ps g i j Hg Hi Hj) as (_ & _ & ->).
  destruct (finalize_pixel R C ps' g' i j Hg' Hi Hj) as (_ & _ & ->).
  rewrite !samples_at_length. by rewrite Hp.
Qed.

Lemma counts_permutation_witness :
  Np.at_ (finalize Fixture.overlap_grids).2 0 0
  = Np.at_ (finalize (Fixture.grids_of
              (accumulate_all (reverse Fixture.overlap_reads)
                 (zero_grids 1 1)))).2 0 0.
Proof.
  apply (counts_permutation 1 1 Fixture.overlap_reads
           (reverse Fixture.overlap_reads)).
  - symmetry. apply reverse_Permutation.
  - vm_compute. reflexivity.
  - vm_compute. reflexivity.
  - lia.
  - lia.
Defined.

(** ** The loop over the aligned rasters *)

Lemma resolve_links_agree (st st2 : store) (fuel : nat) (name : string)
    (d : dataset) :
  (∀ k, is_Some (st !! k) → st2 !! k = st !! k) →
  resolve_links fuel st name = Some d →
  resolve_links fuel st2 name = Some d.
Proof.
  intros Hag. revert name. induction fuel as [|fuel IH]; intros name.
  - cbn. destruct (st !! name) as [e|] eqn:E; [|discriminate].
    rewrite (Hag name) by (by rewrite E). by rewrite E.
  - cbn. destruct (st !! name) as [e|] eqn:E; [|discriminate].
    rewrite (Hag name) by (by rewrite E). rewrite E.
    destruct e as [d'|target|]; [done|apply IH|done].
Qed.

Lemma read_gdal_file_agree (st st2 : store) (fi : string)
    (r : Z * Z * geotransform * string * (dtype * ndarray float)) :
  (∀ k, is_Some (st !! k) → st2 !! k = st !! k) →
  (read_gdal_file fi st).1 = Ok r → read_gdal_file fi st2 = (Ok r, st2).
Proof.
  intros Hag. unfold read_gdal_file, gdal_Open.
  destruct (resolve_links 40 st fi) as [d|] eqn:E; [|discriminate].
  rewrite (resolve_links_agree st st2 40 fi d Hag E).
  by destruct (GetRasterBand d); cbn; intros [= <-].
Qed.

Lemma read_placement_agree (ulx uly px py : Qc) (c : corner) (st st2 : store)
    (r : placement * geotransform * string) :
  (∀ k, is_Some (st !! k) → st2 !! k = st !! k) →
  (read_placement ulx uly px py c st).1 = Ok r →
  read_placement ulx uly px py c st2 = (Ok r, st2).
Proof.
  intros Hag. destruct c as [[[[fi x_max] x_min] y_max] y_min].
  unfold read_placement.
  destruct (read_gdal_file (aligned_area_name fi) st) as [[ra|e] sa] eqn:Ea.
  2:{ unfold mbind, M_bind. rewrite Ea. discriminate. }
  pose proof (read_gdal_file_ok _ _ _ _ Ea) as ->.
  rewrite (bind_run _ _ _ _ _ Ea).
  rewrite (bind_run _ _ _ _ _
             (read_gdal_file_agree st st2 _ ra Hag (f_equal fst Ea))).
  destruct ra as [[[[xa ya] ta] pa] [da areas]].
  destruct (read_gdal_file fi st) as [[rv|e] sv] eqn:Ev.
  2:{ unfold mbind, M_bind. rewrite Ev. discriminate. }
  pose proof (read_gdal_file_ok _ _ _ _ Ev) as ->.
  rewrite (bind_run _ _ _ _ _ Ev).
  rewrite (bind_run _ _ _ _ _
             (read_gdal_file_agree st st2 _ rv Hag (f_equal fst Ev))).
  destruct rv as [[[[x_size y_size] tr] pr] [dv values]].
  unfold py_div, lift, mbind, M_bind, mret, M_ret, raise.
  destruct (Num.to_float px =? 0)%float; [discriminate|].
  destruct (Num.to_float py =? 0)%float; [discriminate|].
  repeat match goal with
    | |- context [Num.py_int ?x] => destruct (Num.py_int x); [|discriminate]
    end.
  cbn. by intros [= <-].
Qed.

Lemma last_georef_cons (r : placement * geotransform * string)
    (reads : list (placement * geotransform * string))
    (trans : geotransform) (proj : string) :
  last_georef (r :: reads) trans proj = last_georef reads r.1.2 r.2.
Proof.
  unfold last_georef. destruct reads as [|r' reads]; [reflexivity|].
  rewrite last_cons. by destruct (last (r' :: reads)).
Qed.

Lemma write_gdal_file_float_run (name : string) (trans : geotransform)
    (proj : string) (data : ndarray float) (nodata : float) (st : store) :
  gdal_can_create st name data = true →
  write_gdal_file_float name trans proj data nodata st
  = (Ok (), <[name := File (Dataset trans proj
                              (FloatBand (Np.map F32.round data))
                              (Some nodata))]> st).
Proof. unfold write_gdal_file_float. by intros ->. Qed.

(** A directory that exists still exists after names that were free have
    been written. *)
Lemma directory_exists_agree (st st_k : store) (W : string → Prop)
    (name : string) :
  (∀ k, W k → st !! k = None) →
  (∀ k, ¬ W k → st_k !! k = st !! k) →
  directory_exists st name = true → directory_exists st_k name = true.
Proof.
  intros Hfresh Hag. unfold directory_exists.
  destruct (directory_of name) as [[|c d]|]; [done| |done].
  destruct (st !! String c d) as [[| |]|] eqn:E; try discriminate. intros _.
  rewrite Hag, E; [done|]. intros HW. apply Hfresh in HW. congruence.
Qed.

Lemma gdal_can_create_grid (R C : nat) (g : grids) (st : store) (name : string) :
  grids_shape R C g → (0 < R)%nat → (0 < C)%nat →
  directory_exists st name = true →
  gdal_can_create st name (outputs g) = true.
Proof.
  intros ((H0 & H1) & _) HR HC Hd. unfold gdal_can_create.
  rewrite Hd, H0, H1. destruct R, C; [lia|lia|lia|done].
Qed.

Lemma accumulate_files_reads_gen (ulx uly px py : Qc) (st : store)
    (W : string → Prop) (R C : nat) :
  (0 < R)%nat → (0 < C)%nat →
  (∀ k, W k → st !! k = None) →
  ∀ (extents : list corner) (reads : list (placement * geotransform * string))
    (g : grids) (tr : geotransform) (pr : string) (st_k : store),
    grids_shape R C g →
    (∀ k, ¬ W k → st_k !! k = st !! k) →
    (∀ c, c ∈ vv_records extents →
          W (snapshot_name c) ∧ directory_exists st (snapshot_name c) = true) →
    Forall2 (λ c r, (read_placement ulx uly px py c st).1 = Ok r)
      (vv_records extents) reads →
    (accumulate_files ulx uly px py extents g tr pr st_k).1
    = (g' ← accumulate_all ((λ r, r.1.1) <$> reads) g;
       mret (g', (last_georef reads tr pr).1, (last_georef reads tr pr).2)) ∧
    ∀ k, ¬ W k →
      (accumulate_files ulx uly px py extents g tr pr st_k).2 !! k = st !! k.
Proof.
  intros HR HC Hfresh extents.
  induction extents as [|c extents IH];
    intros reads g tr pr st_k Hg Hag HW Hreads.
  - apply Forall2_nil_inv_l in Hreads as ->. split; [reflexivity|exact Hag].
  - destruct c as [[[[fi x_max] x_min] y_max] y_min].
    unfold vv_records in Hreads, HW. rewrite filter_cons in Hreads, HW.
    cbn [accumulate_files fst] in *.
    destruct (PyStr.contains "VV" fi) eqn:Evv.
    + rewrite decide_True in Hreads, HW by done.
      apply Forall2_cons_inv_l in Hreads as (r & reads' & Hr & Hreads & ->).
      assert (Hag' : ∀ k, is_Some (st !! k) → st_k !! k = st !! k).
      { intros k [e He]. apply Hag. intros Hk. apply Hfresh in Hk. congruence. }
      rewrite (bind_run _ _ _ _ _ (read_placement_agree _ _ _ _ _ st st_k r Hag' Hr)).
      destruct r as [[p t1] p1].
      rewrite last_georef_cons. cbn [fmap list_fmap accumulate_all fst snd].
      destruct (accumulate p g) as [g1|e] eqn:Eacc.
      * rewrite (bind_run (lift (Ok g1)) _ st_k st_k g1 eq_refl).
        destruct (accumulate_pixel R C p g g1 0 0 Hg Eacc) as (Hg1 & _).
        destruct (HW (fi, x_max, x_min, y_max, y_min)) as [HWc Hdir];
          [apply elem_of_cons; by left|].
        rewrite (bind_run (write_gdal_file_float _ _ _ _ _) _ st_k _ ()
                   (write_gdal_file_float_run _ _ _ _ _ _
                      (gdal_can_create_grid R C g1 st_k _ Hg1 HR HC
                         (directory_exists_agree st st_k W _ Hfresh Hag Hdir)))).
        cbn [mbind result_bind].
        apply IH; [exact Hg1| |intros c Hc; apply HW; by apply elem_of_cons; right
                  |exact Hreads].
        intros k Hk. rewrite lookup_insert_ne; [by apply Hag|].
        intros <-. by apply Hk.
      * rewrite (bind_raise (lift (Raise e)) _ st_k st_k e eq_refl).
        split; [reflexivity|exact Hag].
    + rewrite decide_False in Hreads, HW by done.
      by apply IH.
Qed.

(** X6. The loop "Calculating output values" on a grid that is not empty, when
    the snapshot names are not yet in the file system, their directories
    exist, and every raster whose name holds "VV" can be read with its
    area raster: the outcome is the accumulation of those readings in list
    order, with the geotransform and projection of the last one; the loop
    raises exactly when a round of the accumulation does; and only snapshot
    names change in the file system. *)
Theorem accumulate_files_reads (ulx uly px py : Qc) (extents : list corner)
    (reads : list (placement * geotransform * string)) (R C : nat)
    (g : grids) (trans : geotransform) (proj : string) (st : store) :
  grids_shape R C g → (0 < R)%nat → (0 < C)%nat →
  (∀ c, c ∈ vv_records extents →
        st !! snapshot_name c = None ∧
        directory_exists st (snapshot_name c) = true) →
  Forall2 (λ c r, (read_placement ulx uly px py c st).1 = Ok r)
    (vv_records extents) reads →
  let run := accumulate_files ulx uly px py extents g trans proj st in
  run.1 = (g' ← accumulate_all ((λ r, r.1.1) <$> reads) g;
           mret (g', (last_georef reads trans proj).1,
                     (last_georef reads trans proj).2)) ∧
  ∀ k, k ∉ snapshot_name <$> vv_records extents → run.2 !! k = st !! k.
Proof.
  intros Hg HR HC Hfresh Hreads.
  apply (accumulate_files_reads_gen ulx uly px py st
           (λ k, k ∈ snapshot_name <$> vv_records extents) R C HR HC).
  - intros k Hk. apply list_elem_of_fmap in Hk as (c & -> & Hc). by apply Hfresh.
  - exact Hg.
  - done.
  - intros c Hc. split; [by apply list_elem_of_fmap_2|by apply Hfresh].
  - exact Hreads.
Qed.

Lemma accumulate_files_reads_witness :
  let run := accumulate_files (Num.of_Z 500000) (Num.of_Z 4000000)
               (Num.of_Z 1) (Num.of_Z (-1)) Fixture.aligned_extents
               (zero_grids 2 2) Fixture.a_read.1.2 Fixture.a_read.2
               Fixture.aligned in
  run.1 = (g' ← accumulate_all [Fixture.a_read.1.1; Fixture.b_read.1.1]
                  (zero_grids 2 2);
           mret (g', Fixture.b_read.1.2, Fixture.b_read.2)) ∧
  ∀ k, k ∉ ["composite_a_flat_VV_reproj.tif"; "composite_b_flat_VV_reproj.tif"]%string →
       run.2 !! k = Fixture.aligned !! k.
Proof.
  apply (accumulate_files_reads (Num.of_Z 500000) (Num.of_Z 4000000)
           (Num.of_Z 1) (Num.of_Z (-1)) Fixture.aligned_extents
           [Fixture.a_read; Fixture.b_read] 2 2).
  - apply grids_shape_zero.
  - lia.
  - lia.
  - intros c Hc.
    change (vv_records Fixture.aligned_extents)
      with [Fixture.a_record; Fixture.b_record] in Hc.
    apply elem_of_cons in Hc as [->|Hc]; [split; vm_compute; reflexivity|].
    apply elem_of_cons in Hc as [->|Hc]; [split; vm_compute; reflexivity|].
    by apply elem_of_nil in Hc.
  - change (vv_records Fixture.aligned_extents)
      with [Fixture.a_record; Fixture.b_record].
    repeat constructor; vm_compute; reflexivity.
Defined.

(** X29. A snapshot is written under the name of the raster with
    "composite_" in front, directory part included: for a raster in a
    directory the loop needs a second directory, and without it the first
    round ends in AttributeError after the raster has been read and
    accumulated. *)
Theorem snapshot_needs_its_directory :
  directory_of (snapshot_name Fixture.nested_record)
    = Some "composite_stack"%string ∧
  Fixture.nested !! "composite_stack"%string = None ∧
  (∃ r, (read_placement (Num.of_Z 500000) (Num.of_Z 4000000) (Num.of_Z 1)
           (Num.of_Z (-1)) Fixture.nested_record Fixture.nested).1 = Ok r ∧
        ∃ g, accumulate r.1.1 (zero_grids 1 1) = Ok g) ∧
  accumulate_files (Num.of_Z 500000) (Num.of_Z 4000000) (Num.of_Z 1)
    (Num.of_Z (-1)) [Fixture.nested_record] (zero_grids 1 1)
    (GetGeoTransform (Fixture.utm11 500000 4000000 1 (Fixture.pixel 10)))
    "WGS 84 / UTM zone 11N" Fixture.nested
  = (Raise AttributeError, Fixture.nested) ∧
  (accumulate_files (Num.of_Z 500000) (Num.of_Z 4000000) (Num.of_Z 1)
     (Num.of_Z (-1)) [Fixture.nested_record] (zero_grids 1 1)
     (GetGeoTransform (Fixture.utm11 500000 4000000 1 (Fixture.pixel 10)))
     "WGS 84 / UTM zone 11N"
     (<["composite_stack"%string := Dir]> Fixture.nested)).1
  = Ok (Grids (Fixture.pixel (0 + F32.div (F32.mul 10 1) 3)%float)
              (Fixture.pixel (0 + F32.div 1 3)%float)
              (NDArray 1 1 [[1]]),
        GetGeoTransform (Fixture.utm11 500000 4000000 1 (Fixture.pixel 10)),
        "WGS 84 / UTM zone 11N"%string).
Proof.
  split; [reflexivity|]. split; [reflexivity|]. split.
  { eexists. split; [vm_compute; reflexivity|]. eexists. vm_compute. reflexivity. }
  split; vm_compute; reflexivity.
Qed.

(** ** The grid in binary64 *)

(** X30. The size of the grid is the truncation of a quotient that was
    rounded to binary64: for the doubles 0.0, 0.5 and 0.1 the exact
    quotient 0.5/0.1 lies below 5 and truncates to 4, the quotient of the
    code is 5.0, and the grid has 5 columns and 5 rows. *)
Theorem grid_dims_follows_the_rounded_quotient :
  Num.to_float Fixture.tenth = 0x1.999999999999ap-4%float ∧
  Num.to_float (Q2Qc (1 # 2)) = 0.5%float ∧
  Num.int (Q2Qc (1 # 2) / Fixture.tenth)%Qc = 4 ∧
  ∀ st, grid_dims (Num.of_Z 0, Q2Qc (1 # 2), Num.of_Z 0, Q2Qc (-1 # 2))
          Fixture.tenth (- Fixture.tenth)%Qc st
        = (Ok (5%nat, 5%nat), st).
Proof.
  split; [vm_compute; reflexivity|]. split; [vm_compute; reflexivity|].
  split; [vm_compute; reflexivity|].
  intros st. unfold grid_dims, grid_length.
  assert (Hx : py_div (Num.to_float (Num.of_Z 0) - Num.to_float (Q2Qc (1 # 2)))
                 (Num.to_float Fixture.tenth) st = (Ok (-5)%float, st))
    by (unfold py_div, mret, M_ret; vm_compute; reflexivity).
  assert (Hy : py_div (Num.to_float (Q2Qc (-1 # 2)) - Num.to_float (Num.of_Z 0))
                 (Num.to_float (- Fixture.tenth)%Qc) st = (Ok 5%float, st))
    by (unfold py_div, mret, M_ret; vm_compute; reflexivity).
  rewrite (bind_run _ _ st st 5%nat).
  - rewrite (bind_run _ _ st st 5%nat); [reflexivity|].
    rewrite (bind_run _ _ _ _ _ Hy).
    rewrite (bind_run _ _ st st 5) by reflexivity. reflexivity.
  - rewrite (bind_run _ _ _ _ _ Hx).
    rewrite (bind_run _ _ st st (-5)) by reflexivity. reflexivity.
Qed.

(** X31. Rounding can make the grid narrower than its rasters. Two rasters of
    one row and three columns with pixels of size 0.7, one over the other:
    the width 3*0.7 of the extent divided by 0.7 is 2.9999999999999996 in
    binary64, so the grid has 2 columns, the three columns of the first
    raster do not fit the slice that is left of [0:3], and the run ends in
    ValueError. *)
Theorem grid_narrower_than_its_rasters :
  let run := @make_composite Fixture.external "out.tif"
               (Some ["s_flat_VV.tif"; "t_flat_VV.tif"]%string) None None None
               Fixture.narrow in
  Num.to_float Fixture.seven_tenths = 0x1.6666666666666p-1%float ∧
  (@reproject_to_median_utm Fixture.external
     ["s_flat_VV.tif"; "t_flat_VV.tif"]%string None Fixture.narrow).1
    = Ok (Some ["s_flat_VV_reproj.tif"; "t_flat_VV_reproj.tif"]%string) ∧
  (grid_dims
     (get_full_extent
        [("s_flat_VV_reproj.tif"%string, Num.of_Z 0,
          (Num.of_Z 3 * Fixture.seven_tenths)%Qc,
          (- Fixture.seven_tenths)%Qc, Num.of_Z 0)])
     Fixture.seven_tenths (- Fixture.seven_tenths)%Qc Fixture.narrow).1
    = Ok (2%nat, 1%nat) ∧
  run.1 = Raise ValueError.
Proof.
  cbv zeta. repeat split; vm_compute; reflexivity.
Qed.

(** ** Rasters inside and outside the grid *)

Lemma bound_inside (len : nat) (k : Z) :
  0 ≤ k ≤ Z.of_nat len → Np.bound len k = Z.to_nat k.
Proof.
  intros Hk. unfold Np.bound.
  destruct (k <? 0) eqn:E; [apply Z.ltb_lt in E; lia|].
  by rewrite Z.min_l by lia.
Qed.

Lemma bound_beyond (len : nat) (k : Z) :
  Z.of_nat len ≤ k → Np.bound len k = len.
Proof.
  intros Hk. unfold Np.bound.
  destruct (k <? 0) eqn:E; [apply Z.ltb_lt in E; lia|].
  rewrite Z.min_r by lia. apply Nat2Z.id.
Qed.

Lemma slice_inside (len n : nat) (lo : Z) :
  0 ≤ lo → lo + Z.of_nat n ≤ Z.of_nat len →
  (Np.bound len (lo + Z.of_nat n) - Np.bound len lo)%nat = n.
Proof.
  intros H0 H1.
  rewrite (bound_inside len (lo + Z.of_nat n)), (bound_inside len lo) by lia.
  lia.
Qed.

Lemma slice_clipped (len n : nat) (lo : Z) :
  0 ≤ lo → Z.of_nat len < lo + Z.of_nat n → (2 ≤ n)%nat →
  (Np.bound len (lo + Z.of_nat n) - Np.bound len lo < n)%nat.
Proof.
  intros H0 H1 Hn. rewrite (bound_beyond len (lo + Z.of_nat n)) by lia.
  destruct (Z.le_gt_cases lo (Z.of_nat len)) as [Hle|Hgt].
  - rewrite bound_inside by lia. lia.
  - rewrite bound_beyond by lia. lia.
Qed.

Lemma fits_refl (n : nat) : Np.fits n n = true.
Proof. unfold Np.fits. by rewrite Nat.eqb_refl. Qed.

Lemma fits_clipped (n len : nat) : (len < n)%nat → (2 ≤ n)%nat → Np.fits n len = false.
Proof.
  intros H1 H2. unfold Np.fits. apply orb_false_iff.
  split; apply Nat.eqb_neq; lia.
Qed.

Lemma bdim_refl (n : nat) : Np.bdim n n = Some n.
Proof. unfold Np.bdim. by rewrite Nat.eqb_refl. Qed.

Lemma placeable_inside (R C h w : nat) (p : placement) :
  shape0 (p_values p) = h → shape1 (p_values p) = w →
  shape0 (p_areas p) = h → shape1 (p_areas p) = w →
  0 ≤ p_row0 p → p_row1 p = p_row0 p + Z.of_nat h →
  0 ≤ p_col0 p → p_col1 p = p_col0 p + Z.of_nat w →
  p_row1 p ≤ Z.of_nat R → p_col1 p ≤ Z.of_nat C →
  placeable R C p = true.
Proof.
  intros Hv0 Hv1 Ha0 Ha1 Hr0 Hr1 Hc0 Hc1 HR HC.
  unfold placeable, slice_rows, slice_cols.
  rewrite Hv0, Hv1, Ha0, Ha1, !bdim_refl, Hr1, Hc1.
  rewrite Hr1 in HR. rewrite Hc1 in HC.
  by rewrite !slice_inside, !fits_refl by lia.
Qed.

Lemma placeable_outside (R C h w : nat) (p : placement) :
  shape0 (p_values p) = h → shape1 (p_values p) = w →
  shape0 (p_areas p) = h → shape1 (p_areas p) = w →
  0 ≤ p_row0 p → p_row1 p = p_row0 p + Z.of_nat h →
  0 ≤ p_col0 p → p_col1 p = p_col0 p + Z.of_nat w →
  (Z.of_nat R < p_row1 p ∧ (2 ≤ h)%nat) ∨
  (Z.of_nat C < p_col1 p ∧ (2 ≤ w)%nat) →
  placeable R C p = false.
Proof.
  intros Hv0 Hv1 Ha0 Ha1 Hr0 Hr1 Hc0 Hc1 Hout.
  unfold placeable, slice_rows, slice_cols.
  rewrite Hv0, Hv1, Ha0, Ha1, !bdim_refl, Hr1, Hc1.
  destruct Hout as [[HR Hh]|[HC Hw]].
  - rewrite Hr1 in HR.
    by rewrite (fits_clipped h _ (slice_clipped R h _ Hr0 HR Hh) Hh).
  - rewrite Hc1 in HC.
    rewrite (fits_clipped w _ (slice_clipped C w _ Hc0 HC Hw) Hw).
    by rewrite andb_false_r.
Qed.

(** X7. A raster of [h] rows and [w] columns with an area raster of the same
    shape, placed at a non-negative offset: when its slice ends inside a
    grid of [R] rows and [C] columns the round ends normally and keeps the
    shape of the grid; when it sticks out below or to the right with more
    than one row, respectively column, the slice is clipped and the round
    raises ValueError. *)
Theorem accumulate_inside_grid (R C h w : nat) (p : placement) (g : grids) :
  grids_shape R C g →
  shape0 (p_values p) = h → shape1 (p_values p) = w →
  shape0 (p_areas p) = h → shape1 (p_areas p) = w →
  0 ≤ p_row0 p → p_row1 p = p_row0 p + Z.of_nat h →
  0 ≤ p_col0 p → p_col1 p = p_col0 p + Z.of_nat w →
  (p_row1 p ≤ Z.of_nat R → p_col1 p ≤ Z.of_nat C →
   ∃ g', accumulate p g = Ok g' ∧ grids_shape R C g') ∧
  ((Z.of_nat R < p_row1 p ∧ (2 ≤ h)%nat) ∨
   (Z.of_nat C < p_col1 p ∧ (2 ≤ w)%nat) →
   accumulate p g = Raise ValueError).
Proof.
  intros Hg Hv0 Hv1 Ha0 Ha1 Hr0 Hr1 Hc0 Hc1.
  pose proof (accumulate_placeable R C p g Hg) as Hfit.
  split.
  - intros HR HC.
    by rewrite (placeable_inside R C h w p) in Hfit.
  - intros Hout.
    by rewrite (placeable_outside R C h w p) in Hfit.
Qed.

Lemma accumulate_inside_grid_witness :
  (∃ g', accumulate (Fixture.single 10 1 1) (zero_grids 1 2) = Ok g' ∧
         grids_shape 1 2 g') ∧
  accumulate (Placement (Np.zeros 1%float 1 3) (Np.zeros 1%float 1 3) 0 1 0 3
                Float32 Float32)
    (zero_grids 1 2) = Raise ValueError.
Proof.
  split.
  - apply (accumulate_inside_grid 1 2 1 1 (Fixture.single 10 1 1) (zero_grids 1 2));
      first [reflexivity|apply grids_shape_zero|cbn; lia].
  - apply (accumulate_inside_grid 1 2 1 3
             (Placement (Np.zeros 1%float 1 3) (Np.zeros 1%float 1 3) 0 1 0 3
                Float32 Float32)
             (zero_grids 1 2));
      first [reflexivity|apply grids_shape_zero|cbn; lia].
Defined.

(** ** Reading the zone and the hemisphere *)

Lemma span_digits_app (ds rest : string) (c : ascii) :
  all_digits ds = true → is_digit c = false →
  span_digits (ds +:+ String c rest) = (ds, String c rest).
Proof.
  intros Hds Hc. induction ds as [|d ds IH].
  - simpl. by rewrite Hc.
  - simpl in Hds. apply andb_true_iff in Hds as [Hd Hds].
    simpl. by rewrite Hd, (IH Hds).
Qed.

Lemma re_search_digits_any_run (d : ascii) (ds rest : string) (c : ascii) :
  is_digit d = true → all_digits ds = true →
  is_digit c = false → is_newline c = false →
  re_search_digits_any (String d ds +:+ String c rest) = Some (String d ds, c).
Proof.
  intros Hd Hds Hc Hn. simpl. rewrite Hd.
  rewrite (span_digits_app ds rest c Hds Hc). by rewrite Hn.
Qed.

(** X9. When the first "UTM zone " of the projection is followed by a run of
    digits and then a character that is neither a digit nor a newline,
    [get_zone_from_proj] returns the number the digits spell and
    [get_hemisphere] returns that character. *)
Theorem utm_zone_parsed (fi : string) (st : store) (dst : dataset)
    (d : ascii) (ds rest : string) (c : ascii) :
  gdal_Open st fi = Some dst →
  PyStr.find_suffix "UTM zone " (GetProjection dst)
    = Some ("UTM zone " +:+ String d ds +:+ String c rest) →
  is_digit d = true → all_digits ds = true →
  is_digit c = false → is_newline c = false →
  get_zone_from_proj fi st = (Ok (Some (int_of_digits (String d ds))), st) ∧
  get_hemisphere fi st = (Ok (Some (String c EmptyString)), st).
Proof.
  intros Ho Hf Hd Hds Hc Hn.
  assert (Hp : parse_utm fi st
               = (Ok (Some (int_of_digits (String d ds), String c EmptyString)), st)).
  { unfold parse_utm. rewrite Ho, Hf.
    change (re_search_digits_any ("UTM zone " +:+ String d ds +:+ String c rest))
      with (re_search_digits_any (String d ds +:+ String c rest)).
    by rewrite (re_search_digits_any_run d ds rest c Hd Hds Hc Hn). }
  unfold get_zone_from_proj, get_hemisphere, mbind, M_bind. rewrite Hp. done.
Qed.

Lemma utm_zone_parsed_witness :
  get_zone_from_proj "a_flat_VV.tif" Fixture.diagonal
    = (Ok (Some (int_of_digits "11")), Fixture.diagonal) ∧
  get_hemisphere "a_flat_VV.tif" Fixture.diagonal
    = (Ok (Some "N"%string), Fixture.diagonal).
Proof.
  apply (utm_zone_parsed "a_flat_VV.tif" Fixture.diagonal
           (Fixture.utm11 500000 4000000 1 (Fixture.pixel 10))
           "1"%char "1"%string EmptyString "N"%char); reflexivity.
Defined.

Lemma find_suffix_none (sub s : string) :
  PyStr.contains sub s = false → PyStr.find_suffix sub s = None.
Proof.
  induction s as [|c s IH]; cbn; intros H.
  - rewrite orb_false_r in H. by rewrite H.
  - apply orb_false_iff in H as [H1 H2]. rewrite H1. by apply IH.
Qed.

Lemma parse_utm_none (fi : string) (st : store) (dst : dataset) :
  gdal_Open st fi = Some dst →
  PyStr.contains "UTM zone " (GetProjection dst) = false →
  parse_utm fi st = (Ok None, st).
Proof.
  intros Ho Hc. unfold parse_utm. by rewrite Ho, (find_suffix_none _ _ Hc).
Qed.

Lemma get_zone_none (fi : string) (st : store) (dst : dataset) :
  gdal_Open st fi = Some dst →
  PyStr.contains "UTM zone " (GetProjection dst) = false →
  get_zone_from_proj fi st = (Ok None, st).
Proof.
  intros Ho Hc. unfold get_zone_from_proj.
  by rewrite (bind_run _ _ _ _ _ (parse_utm_none fi st dst Ho Hc)).
Qed.

Lemma get_hemisphere_none (fi : string) (st : store) (dst : dataset) :
  gdal_Open st fi = Some dst →
  PyStr.contains "UTM zone " (GetProjection dst) = false →
  get_hemisphere fi st = (Ok None, st).
Proof.
  intros Ho Hc. unfold get_hemisphere.
  by rewrite (bind_run _ _ _ _ _ (parse_utm_none fi st dst Ho Hc)).
Qed.

Lemma parse_zones_list_skip (fi : string) (files : list string) (st : store) :
  get_zone_from_proj fi st = (Ok None, st) →
  parse_zones_list (fi :: files) st = parse_zones_list files st.
Proof.
  intros Hz. cbn [parse_zones_list]. rewrite (bind_run _ _ _ _ _ Hz).
  unfold mbind, M_bind, mret, M_ret.
  by destruct (parse_zones_list files st) as [[zs|e] st1].
Qed.

(** X10. A raster whose projection does not mention a UTM zone has neither a
    zone nor a hemisphere, and [parse_zones] passes over it. *)
Theorem no_utm_zone (fi : string) (files : list string) (st : store)
    (dst : dataset) :
  gdal_Open st fi = Some dst →
  PyStr.contains "UTM zone " (GetProjection dst) = false →
  get_zone_from_proj fi st = (Ok None, st) ∧
  get_hemisphere fi st = (Ok None, st) ∧
  parse_zones (fi :: files) st = parse_zones files st.
Proof.
  intros Ho Hc. split; [by eapply get_zone_none|].
  split; [by eapply get_hemisphere_none|].
  unfold parse_zones. apply bind_congr.
  apply parse_zones_list_skip. by eapply get_zone_none.
Qed.

Lemma no_utm_zone_witness :
  get_zone_from_proj "g_flat_VV.tif" Fixture.latlon = (Ok None, Fixture.latlon) ∧
  get_hemisphere "g_flat_VV.tif" Fixture.latlon = (Ok None, Fixture.latlon) ∧
  parse_zones ["g_flat_VV.tif"; "h_flat_VV.tif"]%string Fixture.latlon
    = parse_zones ["h_flat_VV.tif"%string] Fixture.latlon.
Proof.
  apply (no_utm_zone "g_flat_VV.tif" ["h_flat_VV.tif"%string] Fixture.latlon
           (Fixture.geographic (Fixture.pixel 10))); reflexivity.
Defined.

(** ** Pixel sizes that cannot be read or do not count *)

Lemma get_max_pixel_size_from_unreadable (files : list string) (fi : string)
    (s : Qc) (st : store) :
  fi ∈ files → gdal_Open st fi = None →
  get_max_pixel_size_from s files st = (Raise AttributeError, st).
Proof.
  intros Hin Hno. revert s. induction files as [|f files IH]; intros s.
  - by apply elem_of_nil in Hin.
  - cbn [get_max_pixel_size_from].
    destruct (gdal_Open st f) as [d|] eqn:Ef.
    + assert (Hr : read_gdal_file_geo f st
                   = (Ok (RasterXSize d, RasterYSize d, GetGeoTransform d,
                          GetProjection d), st))
        by (unfold read_gdal_file_geo; by rewrite Ef).
      rewrite (bind_run _ _ _ _ _ Hr). apply IH.
      apply elem_of_cons in Hin as [->|Hin]; [congruence|exact Hin].
    + assert (Hr : read_gdal_file_geo f st = (Raise AttributeError, st))
        by (unfold read_gdal_file_geo; by rewrite Ef).
      by rewrite (bind_raise _ _ _ _ _ Hr).
Qed.

(** X11. One input that cannot be opened makes [get_max_pixel_size] raise
    AttributeError, wherever it stands in the list, and no file is
    touched. *)
Theorem get_max_pixel_size_unreadable (files : list string) (fi : string)
    (st : store) :
  fi ∈ files → gdal_Open st fi = None →
  get_max_pixel_size files st = (Raise AttributeError, st).
Proof. apply get_max_pixel_size_from_unreadable. Qed.

Lemma get_max_pixel_size_unreadable_witness :
  get_max_pixel_size ["a_flat_VV.tif"; "missing.tif"]%string Fixture.diagonal
  = (Raise AttributeError, Fixture.diagonal).
Proof.
  apply (get_max_pixel_size_unreadable ["a_flat_VV.tif"; "missing.tif"]%string
           "missing.tif" Fixture.diagonal).
  - apply elem_of_cons. right. apply elem_of_cons. by left.
  - reflexivity.
Defined.

Lemma max_fold_below_seed (l : list Qc) (s : Qc) :
  (∀ x, x ∈ l → (x <= s)%Qc) → max_fold l s = s.
Proof.
  revert s. induction l as [|y l IH]; intros s Hl; [reflexivity|].
  change (max_fold (y :: l) s) with (max_fold l (Num.py_max y s)).
  assert (Hy : Num.py_max y s = s).
  { apply py_max_absorb. apply Hl, elem_of_cons. by left. }
  rewrite Hy. apply IH. intros x Hx. apply Hl, elem_of_cons. by right.
Qed.

(** X12. [get_max_pixel_size] never reports that no valid pixel size was found:
    when every input can be opened and none has a pixel width above -999,
    an empty list included, it returns -999. *)
Theorem get_max_pixel_size_seed (files : list string) (st : store) :
  Forall (λ fi, ∃ d, gdal_Open st fi = Some d ∧
                     (gt1 (GetGeoTransform d) <= Num.of_Z (-999))%Qc) files →
  get_max_pixel_size files st = (Ok (Num.of_Z (-999)), st).
Proof.
  intros Hf. unfold get_max_pixel_size.
  rewrite get_max_pixel_size_from_ok.
  - rewrite max_fold_below_seed; [reflexivity|].
    intros x Hx. unfold pixel_widths in Hx.
    apply list_elem_of_omap in Hx as (fi & Hfi & Hx).
    rewrite Forall_forall in Hf. destruct (Hf fi Hfi) as (d & Hd & Hle).
    rewrite Hd in Hx. by injection Hx as <-.
  - eapply Forall_impl; [exact Hf|]. intros fi (d & Hd & _). by exists d.
Qed.

Lemma get_max_pixel_size_seed_witness :
  get_max_pixel_size ["m_flat_VV.tif"%string] Fixture.mirrored
  = (Ok (Num.of_Z (-999)), Fixture.mirrored).
Proof.
  apply (get_max_pixel_size_seed ["m_flat_VV.tif"%string] Fixture.mirrored).
  repeat constructor.
  exists (Fixture.utm11 500000 4000000 (-1000) (Fixture.pixel 10)).
  split; [reflexivity|vm_compute; discriminate].
Defined.

(** ** What reproject_to_median_utm returns *)

Lemma reproject_file_name `{External} (pix_size : Qc) (home_zone : option Qc)
    (hemi : option string) (fi name : string) (st st' : store) :
  reproject_file pix_size home_zone hemi fi st = (Ok name, st') →
  name = reproj_name fi.
Proof.
  unfold reproject_file. intros Hr.
  apply bind_ok in Hr as (my_zone & st1 & _ & Hr).
  apply bind_ok in Hr as ([] & st2 & _ & Hr).
  by injection Hr as <- _.
Qed.

Lemma mapM_names (f : string → M string) (h : string → string)
    (l r : list string) (st st' : store) :
  (∀ x y s1 s2, f x s1 = (Ok y, s2) → y = h x) →
  mapM f l st = (Ok r, st') → r = h <$> l.
Proof.
  intros Hf. revert r st. induction l as [|x l IH]; intros r st.
  - by intros [= <- _].
  - cbn [mapM]. intros Hr.
    apply bind_ok in Hr as (y & st1 & Hy & Hr).
    apply bind_ok in Hr as (k & st2 & Hk & Hr).
    injection Hr as <- Hst. subst st2. cbn [fmap list_fmap]. f_equal; [exact (Hf _ _ _ _ Hy)|exact (IH _ _ Hk)].
Qed.

(** X13. A call that ends normally returns None for fewer than two files, with
    the file system untouched, and otherwise the names of the inputs with
    ".tif" replaced by "_reproj.tif", in the order of the inputs. *)
Theorem reproject_returns_names `{External} (files : list string)
    (resolution : option Qc) (st st' : store) (r : option (list string)) :
  reproject_to_median_utm files resolution st = (Ok r, st') →
  ((length files < 2)%nat ∧ r = None ∧ st' = st) ∨
  ((2 ≤ length files)%nat ∧ r = Some (reproj_name <$> files)).
Proof.
  unfold reproject_to_median_utm.
  destruct (length files <? 2)%nat eqn:El.
  - intros [= <- <-]. left. apply Nat.ltb_lt in El. done.
  - intros Hr. right. apply Nat.ltb_ge in El. split; [exact El|].
    apply bind_ok in Hr as (pix & st1 & _ & Hr).
    apply bind_ok in Hr as (zones & st2 & _ & Hr).
    apply bind_ok in Hr as (hemi & st3 & _ & Hr).
    apply bind_ok in Hr as (new_files & st4 & Hm & Hr).
    injection Hr as <- _. f_equal.
    eapply mapM_names; [|exact Hm].
    intros x y s1 s2 Hxy. by eapply reproject_file_name.
Qed.

Lemma reproject_returns_names_witness :
  ((length ["c_flat_VV.tif"; "d_flat_VV.tif"]%string < 2)%nat ∧
   Some ["c_flat_VV_reproj.tif"; "d_flat_VV_reproj.tif"]%string = None ∧
   (@reproject_to_median_utm Fixture.external
      ["c_flat_VV.tif"; "d_flat_VV.tif"]%string (Some (Num.of_Z 30))
      Fixture.fine).2 = Fixture.fine) ∨
  ((2 ≤ length ["c_flat_VV.tif"; "d_flat_VV.tif"]%string)%nat ∧
   Some ["c_flat_VV_reproj.tif"; "d_flat_VV_reproj.tif"]%string
   = Some (reproj_name <$> ["c_flat_VV.tif"; "d_flat_VV.tif"]%string)).
Proof.
  apply (@reproject_returns_names Fixture.external
           ["c_flat_VV.tif"; "d_flat_VV.tif"]%string (Some (Num.of_Z 30))
           Fixture.fine).
  apply (run_result (@reproject_to_median_utm Fixture.external
                       ["c_flat_VV.tif"; "d_flat_VV.tif"]%string
                       (Some (Num.of_Z 30)))).
  vm_compute. reflexivity.
Defined.

(** ** Links that exist already *)

(** X14. A raster of the home zone with at least as many columns as the target
    pixel size is linked, and a link is never written over an existing
    name: when the name of the aligned raster exists the round raises
    FileExistsError with the file system untouched, and when only the name
    of the aligned area raster exists it raises after the first link was
    made. *)
Theorem links_are_not_overwritten `{External} (pix_size : Qc)
    (home_zone : option Qc) (hemi : option string) (fi : string)
    (st : store) (z : Z) (d : dataset) :
  get_zone_from_proj fi st = (Ok (Some z), st) →
  zone_differs (Some z) home_zone = false →
  gdal_Open st fi = Some d →
  Num.ltb (Num.of_Z (RasterXSize d)) pix_size = false →
  (is_Some (st !! reproj_name fi) →
   reproject_file pix_size home_zone hemi fi st = (Raise FileExistsError, st)) ∧
  (st !! reproj_name fi = None →
   reproj_name fi ≠ area_reproj_name fi →
   is_Some (st !! area_reproj_name fi) →
   reproject_file pix_size home_zone hemi fi st
   = (Raise FileExistsError, <[reproj_name fi := Link fi]> st)).
Proof.
  intros Hz Hd Ho Hl.
  rewrite (reproject_file_same_zone pix_size home_zone hemi fi st z d Hz Hd Ho), Hl.
  split.
  - intros [e He]. apply bind_raise. unfold os_symlink. by rewrite He.
  - intros Hn Hne [e He].
    assert (H1 : os_symlink fi (reproj_name fi) st
                 = (Ok (), <[reproj_name fi := Link fi]> st))
      by (unfold os_symlink; by rewrite Hn).
    rewrite (bind_run _ _ _ _ _ H1). apply bind_raise.
    unfold os_symlink. by rewrite lookup_insert_ne, He.
Qed.

Lemma links_are_not_overwritten_witness :
  @reproject_file Fixture.external (Num.of_Z 30) (Some (Num.of_Z 11))
    (Some "N"%string) "c_flat_VV.tif" Fixture.occupied
  = (Raise FileExistsError, Fixture.occupied).
Proof.
  apply (proj1 (@links_are_not_overwritten Fixture.external (Num.of_Z 30)
                  (Some (Num.of_Z 11)) (Some "N"%string) "c_flat_VV.tif"
                  Fixture.occupied 11
                  (Fixture.utm11 500000 4000000 10 (Np.zeros 1%float 1 40))
                  eq_refl eq_refl eq_refl eq_refl)).
  by eexists.
Defined.

(** ** Inputs without a zone *)

Lemma target_pixel_size_readable (files : list string) (resolution : option Qc)
    (st : store) :
  Forall (λ fi, is_Some (gdal_Open st fi)) files →
  ∃ pix_size, target_pixel_size files resolution st = (Ok pix_size, st).
Proof.
  intros Hf. unfold target_pixel_size, get_max_pixel_size.
  destruct resolution as [r|]; [destruct (Num.truthy r)|];
    eauto using get_max_pixel_size_from_ok.
Qed.

Lemma parse_zones_list_none (files : list string) (st : store) :
  Forall (λ fi, get_zone_from_proj fi st = (Ok None, st)) files →
  parse_zones_list files st = (Ok [], st).
Proof.
  induction 1 as [|fi files Hz _ IH]; [reflexivity|].
  by rewrite (parse_zones_list_skip fi files st Hz).
Qed.

(** X15. With two or more inputs that can all be opened and of which none
    mentions a UTM zone, the median of the zones is NaN, and the call raises
    ValueError at [int(home_zone)] before it has created any file. *)
Theorem reproject_without_zone `{External} (files : list string)
    (resolution : option Qc) (st : store) :
  (2 ≤ length files)%nat →
  Forall (λ fi, ∃ d, gdal_Open st fi = Some d ∧
                     PyStr.contains "UTM zone " (GetProjection d) = false) files →
  reproject_to_median_utm files resolution st = (Raise ValueError, st).
Proof.
  intros Hlen Hf. unfold reproject_to_median_utm.
  apply Nat.ltb_ge in Hlen. rewrite Hlen.
  destruct (target_pixel_size_readable files resolution st) as [pix Hpix].
  { eapply Forall_impl; [exact Hf|]. intros fi (d & Hd & _). by exists d. }
  rewrite (bind_run _ _ _ _ _ Hpix).
  assert (Hz : Forall (λ fi, get_zone_from_proj fi st = (Ok None, st)) files).
  { eapply Forall_impl; [exact Hf|]. intros fi (d & Hd & Hc).
    by eapply get_zone_none. }
  assert (Hzones : parse_zones files st = (Ok [], st)).
  { unfold parse_zones. by rewrite (bind_run _ _ _ _ _ (parse_zones_list_none _ _ Hz)). }
  rewrite (bind_run _ _ _ _ _ Hzones).
  destruct files as [|f0 files]; [cbn in Hlen; discriminate|].
  apply Forall_cons in Hf as [(d0 & Hd0 & Hc0) _].
  apply Forall_cons in Hz as [Hz0 _].
  rewrite (bind_run _ _ _ _ _ (get_hemisphere_none f0 st d0 Hd0 Hc0)).
  apply bind_raise. cbn [mapM]. apply bind_raise.
  unfold reproject_file. rewrite (bind_run _ _ _ _ _ Hz0).
  reflexivity.
Qed.

Lemma reproject_without_zone_witness :
  @reproject_to_median_utm Fixture.external
    ["g_flat_VV.tif"; "h_flat_VV.tif"]%string None Fixture.latlon
  = (Raise ValueError, Fixture.latlon).
Proof.
  apply (@reproject_without_zone Fixture.external
           ["g_flat_VV.tif"; "h_flat_VV.tif"]%string None Fixture.latlon).
  - cbn. lia.
  - repeat constructor.
    + exists (Fixture.geographic (Fixture.pixel 10)). split; reflexivity.
    + exists (Fixture.geographic (Fixture.pixel 20)). split; reflexivity.
Defined.

(** ** The home zone *)

Lemma Qc_eq_bool_refl (x : Qc) : Qc_eq_bool x x = true.
Proof. unfold Qc_eq_bool. destruct (Qcanon.Qc_eq_dec x x) as [|Hn]; [reflexivity|by destruct Hn]. Qed.

Lemma half_sum (a b : Z) :
  (this ((Num.of_Z a + Num.of_Z b) / Num.of_Z 2)%Qc
   == (inject_Z a + inject_Z b) / inject_Z 2)%Q.
Proof.
  cbn [this Qcdiv Qcmult Qcinv Qcplus Q2Qc].
  rewrite !Qred_correct, !this_of_Z. reflexivity.
Qed.

Lemma half_double (a : Z) : ((Num.of_Z a + Num.of_Z a) / Num.of_Z 2 = Num.of_Z a)%Qc.
Proof.
  apply Qc_is_canon. rewrite half_sum, this_of_Z. field.
Qed.

Lemma all_equal_replicate {A : Type} (x : A) (l : list A) :
  Forall (λ y, y = x) l → l = replicate (length l) x.
Proof. induction 1 as [|y l -> _ IH]; cbn; [done|by rewrite <- IH]. Qed.

Lemma merge_sort_replicate (n : nat) (z : Z) :
  merge_sort Z.le (replicate n z) = replicate n z.
Proof.
  pose proof (merge_sort_Permutation Z.le (replicate n z)) as Hp.
  assert (Hall : Forall (λ y, y = z) (merge_sort Z.le (replicate n z))).
  { rewrite Hp. apply Forall_replicate. reflexivity. }
  rewrite (all_equal_replicate z _ Hall). f_equal.
  by rewrite Hp, length_replicate.
Qed.

Lemma np_median_replicate (n : nat) (z : Z) :
  np_median (replicate (S n) z) = Some (Num.of_Z z).
Proof.
  unfold np_median. rewrite merge_sort_replicate, length_replicate.
  change (S n =? 0)%nat with false. cbv iota.
  pose proof (Nat.div_lt (S n) 2 ltac:(lia) ltac:(lia)) as Hlt.
  destruct (Nat.odd (S n)).
  - rewrite lookup_replicate_2 by lia. reflexivity.
  - rewrite !lookup_replicate_2 by lia.
    cbn [mbind option_bind]. f_equal. apply half_double.
Qed.

Lemma parse_zones_list_one_zone (files : list string) (z : Z) (st : store) :
  Forall (λ fi, get_zone_from_proj fi st = (Ok (Some z), st)) files →
  z ≠ 0 →
  parse_zones_list files st = (Ok (replicate (length files) z), st).
Proof.
  intros Hf Hz. induction Hf as [|fi files Hfi _ IH]; [reflexivity|].
  cbn [parse_zones_list]. rewrite (bind_run _ _ _ _ _ Hfi).
  rewrite (bind_run _ _ _ _ _ IH).
  apply Z.eqb_neq in Hz. by rewrite Hz.
Qed.

(** X16. When every input names the same zone [z], a zone other than 0 that
    fits into 8 bits, [parse_zones] returns [z] once for every input, the
    home zone is [z], and no input differs from the home zone: none is
    reprojected into another zone. *)
Theorem one_zone_is_home (files : list string) (z : Z) (st : store) :
  Forall (λ fi, get_zone_from_proj fi st = (Ok (Some z), st)) files →
  files ≠ [] → z ≠ 0 → -128 ≤ z ≤ 127 →
  parse_zones files st = (Ok (replicate (length files) z), st) ∧
  np_median (replicate (length files) z) = Some (Num.of_Z z) ∧
  zone_differs (Some z) (np_median (replicate (length files) z)) = false.
Proof.
  intros Hf Hne Hz Hr.
  assert (Hm : np_median (replicate (length files) z) = Some (Num.of_Z z)).
  { destruct files as [|fi files]; [done|]. apply np_median_replicate. }
  split; [|split; [exact Hm|]].
  - unfold parse_zones.
    rewrite (bind_run _ _ _ _ _ (parse_zones_list_one_zone files z st Hf Hz)).
    unfold mret, M_ret. by rewrite fmap_replicate, wrap8_small.
  - rewrite Hm. unfold zone_differs. by rewrite Qc_eq_bool_refl.
Qed.

Lemma one_zone_is_home_witness :
  parse_zones ["a_flat_VV.tif"; "b_flat_VV.tif"]%string Fixture.diagonal
    = (Ok (replicate 2 11), Fixture.diagonal) ∧
  np_median (replicate 2 11) = Some (Num.of_Z 11) ∧
  zone_differs (Some 11) (np_median (replicate 2 11)) = false.
Proof.
  apply (one_zone_is_home ["a_flat_VV.tif"; "b_flat_VV.tif"]%string 11
           Fixture.diagonal).
  - repeat constructor; vm_compute; reflexivity.
  - discriminate.
  - lia.
  - lia.
Defined.

Lemma np_median_pair (a b : Z) :
  np_median [a; b] = Some ((Num.of_Z a + Num.of_Z b) / Num.of_Z 2)%Qc.
Proof.
  unfold np_median, merge_sort. cbn.
  case_decide; cbn; [reflexivity|].
  f_equal. apply Qc_is_canon. rewrite !half_sum. field.
Qed.

Lemma np_median_odd_pair (z1 z2 : Z) :
  0 ≤ z1 → 0 ≤ z2 → Z.odd (z1 + z2) = true →
  ∃ h, np_median [z1; z2] = Some h ∧
       Num.int h = (z1 + z2) / 2 ∧
       ∀ z, zone_differs (Some z) (Some h) = true.
Proof.
  intros H1 H2 Hodd. rewrite np_median_pair.
  eexists. split; [reflexivity|].
  set (h := ((Num.of_Z z1 + Num.of_Z z2) / Num.of_Z 2)%Qc).
  assert (Hh : (this h == (inject_Z z1 + inject_Z z2) / inject_Z 2)%Q)
    by apply half_sum.
  assert (Hs : z1 + z2 = 2 * ((z1 + z2) / 2) + 1).
  { apply Z.odd_spec in Hodd as [m Hm]. Z.div_mod_to_equations. lia. }
  assert (Hq : (inject_Z z1 + inject_Z z2
                == 2 * inject_Z ((z1 + z2) / 2) + 1)%Q).
  { rewrite <- inject_Z_plus, Hs at 1.
    rewrite inject_Z_plus, inject_Z_mult. reflexivity. }
  split.
  - assert (H0 : (0 <= h)%Qc).
    { change (0 <= this h)%Q. rewrite Hh, Hq.
      assert (0 <= inject_Z ((z1 + z2) / 2))%Q.
      { change (inject_Z 0 <= inject_Z ((z1 + z2) / 2))%Q. rewrite <- Zle_Qle.
        apply Z.div_pos; lia. }
      unfold Qdiv; change (/ inject_Z 2)%Q with (1 # 2)%Q; lra. }
    rewrite (int_nonneg h H0). apply floor_unique.
    + rewrite Hh, Hq. unfold Qdiv; change (/ inject_Z 2)%Q with (1 # 2)%Q; lra.
    + rewrite Hh, Hq, inject_Z_plus. unfold Qdiv.
      change (/ inject_Z 2)%Q with (1 # 2)%Q.
      change (inject_Z 1) with 1%Q. lra.
  - intros z. unfold zone_differs. rewrite negb_true_iff.
    destruct (Qc_eq_bool (Num.of_Z z) h) eqn:E; [|reflexivity].
    apply Qc_eq_bool_correct in E.
    assert (Hz : (inject_Z z == this h)%Q) by (by rewrite <- E, this_of_Z).
    rewrite Hh, Hq in Hz. unfold Qdiv in Hz.
    change (/ inject_Z 2)%Q with (1 # 2)%Q in Hz.
    assert (Hz2 : (inject_Z (2 * z) == inject_Z (2 * ((z1 + z2) / 2) + 1))%Q).
    { rewrite inject_Z_plus, !inject_Z_mult.
      change (inject_Z 2) with 2%Q. change (inject_Z 1) with 1%Q.
      lra. }
    apply (proj1 (inject_Z_injective _ _)) in Hz2. exfalso. lia.
Qed.




(** ** Names are never removed *)

Lemma keeps_same {A : Type} (m : M A) :
  (∀ st, (m st).2 = st) → keeps_names m.
Proof. intros H st k Hk. by rewrite H. Qed.

Lemma keeps_bind {A B : Type} (m : M A) (f : A → M B) :
  keeps_names m → (∀ a, keeps_names (f a)) → keeps_names (m ≫= f).
Proof.
  intros Hm Hf st k Hk. unfold mbind, M_bind.
  specialize (Hm st k Hk).
  destruct (m st) as [[a|e] st1]; cbn in Hm; [by apply Hf|exact Hm].
Qed.

Lemma keeps_insert {A : Type} (name : string) (e : entry) (a : A) :
  keeps_names (λ st, (Ok a, <[name := e]> st)).
Proof.
  intros st k Hk. cbn. destruct (decide (name = k)) as [->|Hne].
  - rewrite lookup_insert_eq. by eexists.
  - by rewrite lookup_insert_ne.
Qed.

Lemma keeps_os_symlink (src dst : string) : keeps_names (os_symlink src dst).
Proof.
  intros st k Hk. unfold os_symlink.
  destruct (st !! dst) eqn:E; cbn; [exact Hk|].
  by apply (keeps_insert dst (Link src) () st k).
Qed.

Lemma keeps_gdal_Warp `{External} (dst src : string) (srs : option string)
    (res : Qc) : keeps_names (gdal_Warp dst src srs res).
Proof.
  intros st k Hk. unfold gdal_Warp.
  destruct (gdal_Open st src) as [d|]; cbn; [|exact Hk].
  destruct (directory_exists st dst); cbn; [|exact Hk].
  by apply (keeps_insert dst _ () st k).
Qed.

Lemma keeps_write_gdal_file_float (name : string) (trans : geotransform)
    (proj : string) (data : ndarray float) (nodata : float) :
  keeps_names (write_gdal_file_float name trans proj data nodata).
Proof.
  intros st k Hk. unfold write_gdal_file_float.
  destruct (gdal_can_create st name data); cbn; [|exact Hk].
  by apply (keeps_insert name _ () st k).
Qed.

Lemma keeps_write_gdal_file (name : string) (trans : geotransform)
    (proj : string) (data : ndarray Z) :
  keeps_names (write_gdal_file name trans proj data).
Proof.
  intros st k Hk. unfold write_gdal_file.
  destruct (gdal_can_create st name data); cbn; [|exact Hk].
  by apply (keeps_insert name _ () st k).
Qed.

Lemma keeps_read_gdal_file_geo (fi : string) : keeps_names (read_gdal_file_geo fi).
Proof.
  apply keeps_same. intros st. unfold read_gdal_file_geo.
  by destruct (gdal_Open st fi).
Qed.

Lemma keeps_read_gdal_file (fi : string) : keeps_names (read_gdal_file fi).
Proof.
  apply keeps_same. intros st. unfold read_gdal_file.
  destruct (gdal_Open st fi) as [d|]; [|done]. by destruct (GetRasterBand d).
Qed.

Lemma keeps_parse_utm (fi : string) : keeps_names (parse_utm fi).
Proof.
  apply keeps_same. intros st. unfold parse_utm.
  destruct (gdal_Open st fi) as [d|]; [|done].
  destruct (PyStr.find_suffix _ _); [|done].
  by destruct (re_search_digits_any _) as [[? ?]|].
Qed.

Lemma keeps_read_corners `{External} (fi : string) : keeps_names (read_corners fi).
Proof.
  apply keeps_same. intros st. unfold read_corners.
  destruct (gdal_Open st fi) as [d|]; [|done].
  by destruct (saa_getCorners d) as [[[? ?] ?] ?].
Qed.

Lemma keeps_py_div (a b : float) : keeps_names (py_div a b).
Proof. apply keeps_same. intros st. unfold py_div. by destruct (b =? 0)%float. Qed.

Lemma keeps_pure {A : Type} (r : result A) : keeps_names (λ st, (r, st)).
Proof. by apply keeps_same. Qed.

Lemma keeps_lift {A : Type} (r : result A) : keeps_names (lift r).
Proof. by apply keeps_same. Qed.

Ltac keeps_step :=
  first
    [ apply keeps_read_gdal_file_geo | apply keeps_read_gdal_file
    | apply keeps_parse_utm | apply keeps_py_div | apply keeps_os_symlink
    | apply keeps_gdal_Warp | apply keeps_read_corners
    | apply keeps_write_gdal_file_float | apply keeps_write_gdal_file
    | apply keeps_lift | apply keeps_pure | apply keeps_insert
    | apply keeps_bind; [|intros ?]
    | match goal with
      | |- keeps_names (match ?x with _ => _ end) => destruct x
      | |- keeps_names (let _ := _ in _) => cbv zeta
      end ].

Lemma keeps_get_max_pixel_size_from (files : list string) (s : Qc) :
  keeps_names (get_max_pixel_size_from s files).
Proof.
  revert s. induction files as [|fi files IH]; intros s; cbn [get_max_pixel_size_from].
  - apply keeps_pure.
  - apply keeps_bind; [apply keeps_read_gdal_file_geo|].
    intros [[[x1 y1] t1] p1]. apply IH.
Qed.

Lemma keeps_get_zone_from_proj (fi : string) : keeps_names (get_zone_from_proj fi).
Proof. unfold get_zone_from_proj. repeat keeps_step. Qed.

Lemma keeps_get_hemisphere (fi : string) : keeps_names (get_hemisphere fi).
Proof. unfold get_hemisphere. repeat keeps_step. Qed.

Lemma keeps_parse_zones_list (files : list string) :
  keeps_names (parse_zones_list files).
Proof.
  induction files as [|fi files IH]; cbn [parse_zones_list].
  - apply keeps_pure.
  - apply keeps_bind; [apply keeps_get_zone_from_proj|]. intros zone.
    apply keeps_bind; [apply IH|]. intros zones. apply keeps_pure.
Qed.

Lemma keeps_mapM {A B : Type} (f : A → M B) (l : list A) :
  (∀ x, keeps_names (f x)) → keeps_names (mapM f l).
Proof.
  intros Hf. induction l as [|x l IH]; cbn [mapM].
  - apply keeps_pure.
  - apply keeps_bind; [apply Hf|]. intros y.
    apply keeps_bind; [apply IH|]. intros k. apply keeps_pure.
Qed.

Lemma keeps_reproject_file `{External} (pix_size : Qc) (home_zone : option Qc)
    (hemi : option string) (fi : string) :
  keeps_names (reproject_file pix_size home_zone hemi fi).
Proof.
  unfold reproject_file, epsg_code, raise.
  apply keeps_bind; [apply keeps_get_zone_from_proj|]. intros my_zone.
  apply keeps_bind; [|intros ?; apply keeps_pure].
  destruct (zone_differs my_zone home_zone).
  - apply keeps_bind; [destruct home_zone; apply keeps_pure|]. intros proj.
    repeat keeps_step.
  - apply keeps_bind; [apply keeps_read_gdal_file_geo|].
    intros [[[x y] trans] proj].
    destruct (Num.ltb (Num.of_Z x) pix_size); repeat keeps_step.
Qed.

Lemma keeps_reproject `{External} (files : list string) (resolution : option Qc) :
  keeps_names (reproject_to_median_utm files resolution).
Proof.
  unfold reproject_to_median_utm.
  destruct (length files <? 2)%nat; [apply keeps_pure|].
  apply keeps_bind.
  { unfold target_pixel_size, get_max_pixel_size.
    destruct resolution as [r|]; [destruct (Num.truthy r)|];
      first [apply keeps_pure|apply keeps_get_max_pixel_size_from]. }
  intros pix. apply keeps_bind.
  { unfold parse_zones. apply keeps_bind; [apply keeps_parse_zones_list|].
    intros zs. apply keeps_pure. }
  intros zones. apply keeps_bind.
  { destruct files; [apply keeps_pure|apply keeps_get_hemisphere]. }
  intros hemi. apply keeps_bind; [|intros ?; apply keeps_pure].
  apply keeps_mapM. intros fi. apply keeps_reproject_file.
Qed.

Lemma keeps_accumulate_files (ulx uly px py : Qc) (extents : list corner)
    (g : grids) (trans : geotransform) (proj : string) :
  keeps_names (accumulate_files ulx uly px py extents g trans proj).
Proof.
  revert g trans proj.
  induction extents as [|[[[[fi x_max] x_min] y_max] y_min] extents IH];
    intros g trans proj; cbn [accumulate_files fst].
  - apply keeps_pure.
  - destruct (PyStr.contains "VV" fi); [|apply IH].
    apply keeps_bind.
    { unfold read_placement. repeat keeps_step. }
    intros [[p t1] p1]. apply keeps_bind; [apply keeps_lift|]. intros g1.
    apply keeps_bind; [apply keeps_write_gdal_file_float|]. intros _. apply IH.
Qed.

Lemma keeps_make_composite `{External} (outfile : string)
    (infiles : option (list string)) (path requested_pol : option string)
    (resolution : option Qc) :
  keeps_names (make_composite outfile infiles path requested_pol resolution).
Proof.
  unfold make_composite.
  apply keeps_bind; [apply keeps_lift|]. intros [l|]; [|apply keeps_pure].
  apply keeps_bind; [apply keeps_reproject|].
  intros [[|f0 fs]|]; try apply keeps_pure.
  apply keeps_bind; [apply keeps_read_gdal_file_geo|].
  intros [[[x y] trans] proj].
  apply keeps_bind; [apply keeps_mapM; intros fi; apply keeps_read_corners|].
  intros extents. destruct (get_full_extent extents) as [[[ulx lrx] uly] lry].
  apply keeps_bind.
  { unfold grid_dims, grid_length. repeat keeps_step. }
  intros [x_pixels y_pixels].
  apply keeps_bind; [apply keeps_accumulate_files|].
  intros [[g' trans'] proj'].
  destruct (finalize g') as [composite coverage].
  apply keeps_bind; [apply keeps_write_gdal_file_float|].
  intros _. apply keeps_write_gdal_file.
Qed.

(** ** Names outside the derived ones are left alone *)

Lemma ww_same {A : Type} (W : list string) (m : M A) :
  (∀ st, (m st).2 = st) → writes_within W m.
Proof. intros H st k _. by rewrite H. Qed.

Lemma ww_mono {A : Type} (W W' : list string) (m : M A) :
  W ⊆ W' → writes_within W m → writes_within W' m.
Proof. intros HW Hm st k Hk. apply Hm. intros Hin. apply Hk, HW, Hin. Qed.

Lemma ww_bind {A B : Type} (W : list string) (m : M A) (f : A → M B) :
  writes_within W m →
  (∀ a st st1, m st = (Ok a, st1) → writes_within W (f a)) →
  writes_within W (m ≫= f).
Proof.
  intros Hm Hf st k Hk. unfold mbind, M_bind.
  specialize (Hm st k Hk).
  destruct (m st) as [[a|e] st1] eqn:E; cbn in Hm; [|exact Hm].
  by rewrite (Hf a st st1 E st1 k Hk).
Qed.

Lemma ww_insert {A : Type} (W : list string) (name : string) (e : entry) (a : A) :
  name ∈ W → writes_within W (λ st, (Ok a, <[name := e]> st)).
Proof.
  intros Hin st k Hk. cbn. apply lookup_insert_ne. by intros ->.
Qed.

Lemma ww_os_symlink (W : list string) (src dst : string) :
  dst ∈ W → writes_within W (os_symlink src dst).
Proof.
  intros Hin st k Hk. unfold os_symlink.
  destruct (st !! dst) eqn:E; cbn; [done|].
  apply lookup_insert_ne. by intros ->.
Qed.

Lemma ww_gdal_Warp `{External} (W : list string) (dst src : string)
    (srs : option string) (res : Qc) :
  dst ∈ W → writes_within W (gdal_Warp dst src srs res).
Proof.
  intros Hin st k Hk. unfold gdal_Warp.
  destruct (gdal_Open st src) as [d|]; cbn; [|done].
  destruct (directory_exists st dst); cbn; [|done].
  apply lookup_insert_ne. by intros ->.
Qed.

Lemma ww_write_gdal_file_float (W : list string) (name : string)
    (trans : geotransform) (proj : string) (data : ndarray float)
    (nodata : float) :
  name ∈ W → writes_within W (write_gdal_file_float name trans proj data nodata).
Proof.
  intros Hin st k Hk. unfold write_gdal_file_float.
  destruct (gdal_can_create st name data); cbn; [|done].
  apply lookup_insert_ne. by intros ->.
Qed.

Lemma ww_write_gdal_file (W : list string) (name : string)
    (trans : geotransform) (proj : string) (data : ndarray Z) :
  name ∈ W → writes_within W (write_gdal_file name trans proj data).
Proof.
  intros Hin st k Hk. unfold write_gdal_file.
  destruct (gdal_can_create st name data); cbn; [|done].
  apply lookup_insert_ne. by intros ->.
Qed.

Lemma same_read_gdal_file_geo (fi : string) (st : store) :
  (read_gdal_file_geo fi st).2 = st.
Proof. unfold read_gdal_file_geo. by destruct (gdal_Open st fi). Qed.

Lemma same_read_gdal_file (fi : string) (st : store) :
  (read_gdal_file fi st).2 = st.
Proof.
  unfold read_gdal_file. destruct (gdal_Open st fi) as [d|]; [|done].
  by destruct (GetRasterBand d).
Qed.

Lemma same_parse_utm (fi : string) (st : store) : (parse_utm fi st).2 = st.
Proof.
  unfold parse_utm. destruct (gdal_Open st fi) as [d|]; [|done].
  destruct (PyStr.find_suffix _ _); [|done].
  by destruct (re_search_digits_any _) as [[? ?]|].
Qed.

Lemma same_read_corners `{External} (fi : string) (st : store) :
  (read_corners fi st).2 = st.
Proof.
  unfold read_corners. destruct (gdal_Open st fi) as [d|]; [|done].
  by destruct (saa_getCorners d) as [[[? ?] ?] ?].
Qed.

Lemma same_py_div (a b : float) (st : store) : (py_div a b st).2 = st.
Proof. unfold py_div. by destruct (b =? 0)%float. Qed.

Lemma same_lift {A : Type} (r : result A) (st : store) : (lift r st).2 = st.
Proof. reflexivity. Qed.

Lemma same_bind {A B : Type} (m : M A) (f : A → M B) :
  (∀ st, (m st).2 = st) → (∀ a st, (f a st).2 = st) →
  ∀ st, ((m ≫= f) st).2 = st.
Proof.
  intros Hm Hf st. unfold mbind, M_bind. specialize (Hm st).
  destruct (m st) as [[a|e] st1]; cbn in Hm; subst; [apply Hf|done].
Qed.

Lemma same_get_zone_from_proj (fi : string) (st : store) :
  (get_zone_from_proj fi st).2 = st.
Proof. apply same_bind; [apply same_parse_utm|done]. Qed.

Lemma same_get_hemisphere (fi : string) (st : store) :
  (get_hemisphere fi st).2 = st.
Proof. apply same_bind; [apply same_parse_utm|done]. Qed.

Lemma same_get_max_pixel_size_from (files : list string) (s : Qc) (st : store) :
  (get_max_pixel_size_from s files st).2 = st.
Proof.
  revert s st. induction files as [|fi files IH]; intros s st; [done|].
  cbn [get_max_pixel_size_from].
  apply same_bind; [apply same_read_gdal_file_geo|].
  intros [[[x1 y1] t1] p1] st1. apply IH.
Qed.

Lemma same_target_pixel_size (files : list string) (resolution : option Qc)
    (st : store) :
  (target_pixel_size files resolution st).2 = st.
Proof.
  unfold target_pixel_size, get_max_pixel_size.
  destruct resolution as [r|]; [destruct (Num.truthy r)|];
    first [done|apply same_get_max_pixel_size_from].
Qed.

Lemma same_parse_zones_list (files : list string) (st : store) :
  (parse_zones_list files st).2 = st.
Proof.
  revert st. induction files as [|fi files IH]; intros st; [done|].
  cbn [parse_zones_list].
  apply same_bind; [apply same_get_zone_from_proj|]. intros zone st1.
  apply same_bind; [apply IH|done].
Qed.

Lemma same_parse_zones (files : list string) (st : store) :
  (parse_zones files st).2 = st.
Proof. apply same_bind; [apply same_parse_zones_list|done]. Qed.

Lemma same_mapM {A B : Type} (f : A → M B) (l : list A) :
  (∀ x st, (f x st).2 = st) → ∀ st, (mapM f l st).2 = st.
Proof.
  intros Hf. induction l as [|x l IH]; intros st; [done|].
  cbn [mapM]. apply same_bind; [apply Hf|]. intros y st1.
  apply same_bind; [apply IH|done].
Qed.

Lemma same_grid_dims (e : extent) (px py : Qc) (st : store) :
  (grid_dims e px py st).2 = st.
Proof.
  destruct e as [[[ulx lrx] uly] lry]. unfold grid_dims, grid_length.
  repeat (apply same_bind;
          [first [apply same_py_div|apply same_lift|idtac]|intros ? ?]);
    done.
Qed.

Lemma same_read_placement (ulx uly px py : Qc) (c : corner) (st : store) :
  (read_placement ulx uly px py c st).2 = st.
Proof.
  destruct c as [[[[fi x_max] x_min] y_max] y_min]. unfold read_placement.
  apply same_bind; [apply same_read_gdal_file|].
  intros [[[[? ?] ?] ?] [ta areas]] st1.
  apply same_bind; [apply same_read_gdal_file|].
  intros [[[[? ?] ?] ?] [tv values]] st2.
  repeat (apply same_bind;
          [first [apply same_py_div|apply same_lift]|intros ? ?]);
    done.
Qed.

Lemma ww_reproject_file `{External} (pix_size : Qc) (home_zone : option Qc)
    (hemi : option string) (fi : string) :
  writes_within [reproj_name fi; area_reproj_name fi]
    (reproject_file pix_size home_zone hemi fi).
Proof.
  assert (H1 : reproj_name fi ∈ [reproj_name fi; area_reproj_name fi])
    by (apply elem_of_cons; by left).
  assert (H2 : area_reproj_name fi ∈ [reproj_name fi; area_reproj_name fi])
    by (apply elem_of_cons; right; apply elem_of_cons; by left).
  unfold reproject_file, epsg_code, raise.
  apply ww_bind; [apply ww_same, same_get_zone_from_proj|]. intros my_zone _ _ _.
  apply ww_bind; [|intros; by apply ww_same].
  destruct (zone_differs my_zone home_zone).
  - apply ww_bind; [destruct home_zone; by apply ww_same|]. intros proj _ _ _.
    apply ww_bind; [by apply ww_gdal_Warp|]. intros; by apply ww_gdal_Warp.
  - apply ww_bind; [apply ww_same, same_read_gdal_file_geo|].
    intros [[[x y] trans] proj] _ _ _.
    destruct (Num.ltb (Num.of_Z x) pix_size).
    + apply ww_bind; [by apply ww_gdal_Warp|]. intros; by apply ww_gdal_Warp.
    + apply ww_bind; [by apply ww_os_symlink|]. intros; by apply ww_os_symlink.
Qed.

Lemma ww_mapM {A B : Type} (W : list string) (f : A → M B) (l : list A) :
  (∀ x, x ∈ l → writes_within W (f x)) → writes_within W (mapM f l).
Proof.
  induction l as [|x l IH]; intros Hf; [by apply ww_same|].
  cbn [mapM]. apply ww_bind; [apply Hf, elem_of_cons; by left|].
  intros y _ _ _. apply ww_bind; [|intros; by apply ww_same].
  apply IH. intros z Hz. apply Hf, elem_of_cons. by right.
Qed.

Lemma ww_reproject `{External} (files : list string) (resolution : option Qc) :
  writes_within (aligned_names files) (reproject_to_median_utm files resolution).
Proof.
  unfold reproject_to_median_utm.
  destruct (length files <? 2)%nat; [by apply ww_same|].
  apply ww_bind; [apply ww_same, same_target_pixel_size|]. intros pix _ _ _.
  apply ww_bind; [apply ww_same, same_parse_zones|]. intros zones _ _ _.
  apply ww_bind.
  { destruct files; [by apply ww_same|apply ww_same, same_get_hemisphere]. }
  intros hemi _ _ _. apply ww_bind; [|intros; by apply ww_same].
  apply ww_mapM. intros fi Hfi.
  apply (ww_mono [reproj_name fi; area_reproj_name fi]);
    [|apply ww_reproject_file].
  intros k Hk. unfold aligned_names. apply elem_of_app.
  apply elem_of_cons in Hk as [->|Hk]; [left; by apply list_elem_of_fmap_2|].
  apply elem_of_cons in Hk as [->|Hk]; [right; by apply list_elem_of_fmap_2|].
  by apply elem_of_nil in Hk.
Qed.

(** X18. [reproject_to_median_utm] leaves every name alone that is not the
    aligned name or the aligned area name of one of its inputs, and it
    removes no name, whether it returns or raises. *)
Theorem reproject_touches_aligned_names_only `{External} (files : list string)
    (resolution : option Qc) (st : store) (k : string) :
  let st' := (reproject_to_median_utm files resolution st).2 in
  (k ∉ aligned_names files → st' !! k = st !! k) ∧
  (is_Some (st !! k) → is_Some (st' !! k)).
Proof.
  split; [apply ww_reproject|apply keeps_reproject].
Qed.

Lemma reproject_touches_aligned_names_only_witness :
  let st' := (@reproject_to_median_utm Fixture.external
                ["c_flat_VV.tif"; "d_flat_VV.tif"]%string (Some (Num.of_Z 30))
                Fixture.fine).2 in
  st' !! "c_area_map.tif"%string = Fixture.fine !! "c_area_map.tif"%string ∧
  is_Some (st' !! "c_flat_VV.tif"%string).
Proof.
  split.
  - apply (@reproject_touches_aligned_names_only Fixture.external
             ["c_flat_VV.tif"; "d_flat_VV.tif"]%string (Some (Num.of_Z 30))
             Fixture.fine "c_area_map.tif").
    apply (bool_decide_unpack _). vm_compute. exact I.
  - apply (@reproject_touches_aligned_names_only Fixture.external
             ["c_flat_VV.tif"; "d_flat_VV.tif"]%string (Some (Num.of_Z 30))
             Fixture.fine "c_flat_VV.tif").
    by eexists.
Defined.

Lemma reproject_ok_names `{External} (files l : list string)
    (resolution : option Qc) (st st' : store) :
  reproject_to_median_utm files resolution st = (Ok (Some l), st') →
  l = reproj_name <$> files.
Proof.
  unfold reproject_to_median_utm.
  destruct (length files <? 2)%nat; [discriminate|]. intros Hr.
  apply bind_ok in Hr as (pix & st1 & _ & Hr).
  apply bind_ok in Hr as (zones & st2 & _ & Hr).
  apply bind_ok in Hr as (hemi & st3 & _ & Hr).
  apply bind_ok in Hr as (new_files & st4 & Hm & Hr).
  injection Hr as <- _.
  eapply mapM_names; [|exact Hm].
  intros x y s1 s2 Hxy. by eapply reproject_file_name.
Qed.

Lemma read_corners_names `{External} (l : list string) (extents : list corner)
    (st st' : store) :
  mapM read_corners l st = (Ok extents, st') →
  (λ c : corner, c.1.1.1.1) <$> extents = l.
Proof.
  revert extents st st'. induction l as [|fi l IH]; intros extents st st'.
  - by intros [= <- _].
  - cbn [mapM]. intros Hr.
    apply bind_ok in Hr as (c & st1 & Hc & Hr).
    apply bind_ok in Hr as (cs & st2 & Hcs & Hr).
    injection Hr as <- _. cbn [fmap list_fmap]. f_equal; [|exact (IH _ _ _ Hcs)].
    unfold read_corners in Hc. destruct (gdal_Open st fi) as [d|]; [|discriminate].
    destruct (saa_getCorners d) as [[[ulx lrx] lry] uly].
    by injection Hc as <- _.
Qed.

Lemma ww_accumulate_files (ulx uly px py : Qc) (extents : list corner)
    (g : grids) (trans : geotransform) (proj : string) :
  writes_within (snapshot_name <$> extents)
    (accumulate_files ulx uly px py extents g trans proj).
Proof.
  revert g trans proj.
  induction extents as [|[[[[fi x_max] x_min] y_max] y_min] extents IH];
    intros g trans proj; cbn [accumulate_files fst].
  - by apply ww_same.
  - assert (Hsub : snapshot_name <$> extents
                   ⊆ snapshot_name <$> (fi, x_max, x_min, y_max, y_min) :: extents).
    { intros k Hk. cbn [fmap list_fmap]. apply elem_of_cons. by right. }
    destruct (PyStr.contains "VV" fi); [|by eapply ww_mono].
    apply ww_bind; [apply ww_same, same_read_placement|].
    intros [[p t1] p1] _ _ _. apply ww_bind; [by apply ww_same|]. intros g1 _ _ _.
    apply ww_bind; [|intros; by eapply ww_mono].
    apply ww_write_gdal_file_float. cbn [fmap list_fmap].
    apply elem_of_cons. by left.
Qed.

Lemma ww_make_composite `{External} (outfile : string)
    (infiles : option (list string)) (path requested_pol : option string)
    (resolution : option Qc) (files : list string) :
  input_files infiles path (default "VV"%string requested_pol)
    = Ok (Some files) →
  writes_within (composite_names outfile (PyStr.sort files))
    (make_composite outfile infiles path requested_pol resolution).
Proof.
  intros Hin. unfold make_composite. rewrite Hin.
  apply ww_bind; [by apply ww_same|]. intros inputs sta stb Hl.
  apply lift_ok in Hl as [[= <-] _].
  apply ww_bind.
  { eapply ww_mono; [|apply ww_reproject].
    intros k Hk. unfold composite_names. apply elem_of_app. by left. }
  intros [[|f0 fs]|] st0 st1 Hrep; try by apply ww_same.
  apply reproject_ok_names in Hrep.
  apply ww_bind; [apply ww_same, same_read_gdal_file_geo|].
  intros [[[x y] trans] proj] _ _ _.
  apply ww_bind; [apply ww_same, same_mapM, @same_read_corners|].
  intros extents st2 st3 Hext. apply read_corners_names in Hext.
  destruct (get_full_extent extents) as [[[ulx lrx] uly] lry].
  apply ww_bind; [apply ww_same, same_grid_dims|].
  intros [x_pixels y_pixels] _ _ _.
  apply ww_bind.
  { eapply ww_mono; [|apply ww_accumulate_files].
    intros k Hk. apply list_elem_of_fmap in Hk as (c & -> & Hc).
    unfold composite_names. apply elem_of_app. right. apply elem_of_app. left.
    assert (Hn : c.1.1.1.1 ∈ reproj_name <$> PyStr.sort files).
    { rewrite <- Hrep, <- Hext.
      exact (list_elem_of_fmap_2 (λ c : corner, c.1.1.1.1) _ _ Hc). }
    apply list_elem_of_fmap in Hn as (fi & Hfi & Hn).
    apply list_elem_of_fmap. exists fi. split; [|exact Hn].
    unfold snapshot_name. by rewrite Hfi. }
  intros [[g' trans'] proj'] _ _ _.
  destruct (finalize g') as [composite coverage].
  assert (Ho : outfile ∈ composite_names outfile (PyStr.sort files)).
  { unfold composite_names. rewrite !elem_of_app. right. right.
    apply elem_of_cons. by left. }
  assert (Hc : "counts.tif"%string ∈ composite_names outfile (PyStr.sort files)).
  { unfold composite_names. rewrite !elem_of_app. right. right.
    apply elem_of_cons. right. apply elem_of_cons. by left. }
  apply ww_bind; [by apply ww_write_gdal_file_float|].
  intros; by apply ww_write_gdal_file.
Qed.

(** X19. [make_composite] leaves every name alone that is not derived from its
    sorted inputs (the aligned rasters, the aligned area rasters and the
    snapshots "composite_..."), the output name or "counts.tif"; and it
    removes no name, whether it returns or raises. An input raster is
    therefore never changed, unless its name is one of those. *)
Theorem make_composite_touches_its_names_only `{External} (outfile : string)
    (infiles : option (list string)) (path requested_pol : option string)
    (resolution : option Qc) (files : list string) (st : store) (k : string) :
  input_files infiles path (default "VV"%string requested_pol)
    = Ok (Some files) →
  let st' := (make_composite outfile infiles path requested_pol resolution st).2 in
  (k ∉ composite_names outfile (PyStr.sort files) → st' !! k = st !! k) ∧
  (is_Some (st !! k) → is_Some (st' !! k)).
Proof.
  intros Hin. split; [by apply ww_make_composite|apply keeps_make_composite].
Qed.

Lemma make_composite_touches_its_names_only_witness :
  let st' := (@make_composite Fixture.external "out.tif"
                (Some ["b_flat_VV.tif"; "a_flat_VV.tif"]%string) None None None
                Fixture.diagonal).2 in
  st' !! "a_flat_VV.tif"%string = Fixture.diagonal !! "a_flat_VV.tif"%string ∧
  is_Some (st' !! "a_area_map.tif"%string).
Proof.
  split.
  - apply (@make_composite_touches_its_names_only Fixture.external "out.tif"
             (Some ["b_flat_VV.tif"; "a_flat_VV.tif"]%string) None None None
             ["b_flat_VV.tif"; "a_flat_VV.tif"]%string Fixture.diagonal
             "a_flat_VV.tif" eq_refl).
    apply (bool_decide_unpack _). vm_compute. exact I.
  - apply (@make_composite_touches_its_names_only Fixture.external "out.tif"
             (Some ["b_flat_VV.tif"; "a_flat_VV.tif"]%string) None None None
             ["b_flat_VV.tif"; "a_flat_VV.tif"]%string Fixture.diagonal
             "a_area_map.tif" eq_refl).
    by eexists.
Defined.

(** ** The two rasters of a finished run *)

Lemma accumulate_all_shape (R C : nat) (ps : list placement) (g g' : grids) :
  grids_shape R C g → accumulate_all ps g = Ok g' → grids_shape R C g'.
Proof.
  intros Hs Hacc.
  by destruct (accumulate_all_pixel R C ps g g' 0 0 Hs Hacc) as [Hs' _].
Qed.



(** X21. A run whose output name is "counts.tif" ends normally all the same,
    and loses the composite: the counts are written last under that name,
    so it holds the integer band and no floating-point sample. *)
Theorem composite_named_counts_is_lost `{External}
    (infiles : option (list string)) (path requested_pol : option string)
    (resolution : option Qc) (st st' : store) :
  make_composite "counts.tif" infiles path requested_pol resolution st
    = (Ok (), st') →
  (∃ (c : dataset) (coverage : ndarray Z),
     st' !! "counts.tif"%string = Some (File c) ∧
     GetRasterBand c = Int16Band coverage ∧ NoDataValue c = None) ∧
  ∀ i j, stored_float st' "counts.tif" i j = None.
Proof.
  intros Hrun.
  apply make_composite_ok in Hrun
    as (s & ps & g & tr & pr & st1 & _ & _ & Hacc & ->).
  split.
  - eexists _, _. rewrite lookup_insert_eq. done.
  - intros i j. unfold stored_float. by rewrite lookup_insert_eq.
Qed.

Lemma composite_named_counts_is_lost_witness :
  let st' := (@make_composite Fixture.external "counts.tif"
                (Some ["a_flat_VV.tif"; "b_flat_VV.tif"]%string) None None None
                Fixture.diagonal).2 in
  (∃ (c : dataset) (coverage : ndarray Z),
     st' !! "counts.tif"%string = Some (File c) ∧
     GetRasterBand c = Int16Band coverage ∧ NoDataValue c = None) ∧
  ∀ i j, stored_float st' "counts.tif" i j = None.
Proof.
  apply (@composite_named_counts_is_lost Fixture.external
           (Some ["a_flat_VV.tif"; "b_flat_VV.tif"]%string) None None None
           Fixture.diagonal).
  apply (run_result (@make_composite Fixture.external "counts.tif"
                       (Some ["a_flat_VV.tif"; "b_flat_VV.tif"]%string)
                       None None None)).
  vm_compute. reflexivity.
Defined.

(** ** The order of the inputs *)

Lemma string_ltb_asym (x y : string) : String.ltb x y = true → String.ltb y x = false.
Proof.
  unfold String.ltb. rewrite (String.compare_antisym y x).
  by destruct (String.compare x y).
Qed.

Lemma string_ltb_total (x y : string) :
  String.ltb x y = false → String.ltb y x = false → x = y.
Proof.
  unfold String.ltb. rewrite (String.compare_antisym y x).
  destruct (String.compare x y) eqn:E; try done.
  intros _ _. by apply String.compare_eq_iff.
Qed.

Lemma string_ltb_trans (x y z : string) :
  String.ltb x y = true → String.ltb y z = true → String.ltb x z = true.
Proof.
  unfold String.ltb.
  destruct (String.compare x y) eqn:E1; try done.
  destruct (String.compare y z) eqn:E2; try done. intros _ _.
  change (String.compare x y) with (OrderedTypeEx.String_as_OT.cmp x y) in E1.
  change (String.compare y z) with (OrderedTypeEx.String_as_OT.cmp y z) in E2.
  apply OrderedTypeEx.String_as_OT.cmp_lt in E1, E2.
  pose proof (OrderedTypeEx.String_as_OT.lt_trans _ _ _ E1 E2) as E3.
  apply OrderedTypeEx.String_as_OT.cmp_lt in E3.
  change (OrderedTypeEx.String_as_OT.cmp x z) with (String.compare x z) in E3.
  by rewrite E3.
Qed.

Lemma string_ltb_le_lt (x y z : string) :
  String.ltb z x = false → String.ltb z y = true → String.ltb x y = true.
Proof.
  intros H1 H2. destruct (String.ltb x z) eqn:E.
  - by eapply string_ltb_trans.
  - by rewrite (string_ltb_total x z E H1).
Qed.

Lemma insert_sorted_swap (x y : string) (l : list string) :
  PyStr.insert_sorted x (PyStr.insert_sorted y l)
  = PyStr.insert_sorted y (PyStr.insert_sorted x l).
Proof.
  induction l as [|z l IH]; cbn [PyStr.insert_sorted].
  - destruct (String.ltb y x) eqn:Eyx, (String.ltb x y) eqn:Exy; try done.
    + by rewrite (string_ltb_asym _ _ Eyx) in Exy.
    + by rewrite (string_ltb_total _ _ Exy Eyx).
  - destruct (String.ltb z y) eqn:Ezy, (String.ltb z x) eqn:Ezx;
      cbn [PyStr.insert_sorted]; rewrite ?Ezy, ?Ezx.
    + by rewrite IH.
    + by rewrite (string_ltb_le_lt _ _ _ Ezx Ezy).
    + by rewrite (string_ltb_le_lt _ _ _ Ezy Ezx).
    + destruct (String.ltb y x) eqn:Eyx, (String.ltb x y) eqn:Exy; try done.
      * by rewrite (string_ltb_asym _ _ Eyx) in Exy.
      * by rewrite (string_ltb_total _ _ Exy Eyx).
Qed.

Lemma sort_permutation (l l' : list string) :
  l ≡ₚ l' → PyStr.sort l = PyStr.sort l'.
Proof.
  induction 1 as [|x l l' _ IH|x y l|l1 l2 l3 _ IH1 _ IH2]; unfold PyStr.sort in *;
    cbn [foldr].
  - done.
  - by rewrite IH.
  - apply insert_sorted_swap.
  - by rewrite IH1.
Qed.

(** X22. The order in which the input files are listed makes no difference:
    [make_composite] sorts the names first, so two lists that are
    permutations of each other give the same outcome and the same file
    system. *)
Theorem input_order_is_irrelevant `{External} (outfile : string)
    (infiles infiles' : list string) (path requested_pol : option string)
    (resolution : option Qc) (st : store) :
  infiles ≡ₚ infiles' →
  make_composite outfile (Some infiles) path requested_pol resolution st
  = make_composite outfile (Some infiles') path requested_pol resolution st.
Proof.
  intros Hp. unfold make_composite, input_files.
  destruct path as [[|c p]|]; [|done|];
    unfold lift, mret, result_ret; unfold mbind at 1 3; unfold M_bind at 1 3;
    cbv beta iota; by rewrite (sort_permutation _ _ Hp).
Qed.

Lemma input_order_is_irrelevant_witness :
  @make_composite Fixture.external "out.tif"
    (Some ["b_flat_VV.tif"; "a_flat_VV.tif"]%string) None None None
    Fixture.diagonal
  = @make_composite Fixture.external "out.tif"
      (Some ["a_flat_VV.tif"; "b_flat_VV.tif"]%string) None None None
      Fixture.diagonal.
Proof.
  apply (@input_order_is_irrelevant Fixture.external "out.tif"
           ["b_flat_VV.tif"; "a_flat_VV.tif"]%string
           ["a_flat_VV.tif"; "b_flat_VV.tif"]%string None None None
           Fixture.diagonal).
  apply perm_swap.
Defined.

(** ** Substrings *)

Lemma prefix_split (sub s : string) :
  String.prefix sub s = true ↔ ∃ b, s = sub +:+ b.
Proof.
  revert s. induction sub as [|c sub IH]; intros s.
  - split; [intros _; by exists s|intros _; by destruct s].
  - destruct s as [|c' s]; cbn.
    + split; [done|]. by intros [b Hb].
    + destruct (ascii_dec c c') as [->|Hne].
      * rewrite IH. split; intros [b Hb]; exists b; [by rewrite Hb|].
        by injection Hb.
      * split; [done|]. intros [b Hb]. injection Hb as -> _. by destruct Hne.
Qed.

Lemma contains_unfold (sub s : string) :
  PyStr.contains sub s
  = String.prefix sub s ||
    match s with
    | EmptyString => false
    | String _ s' => PyStr.contains sub s'
    end.
Proof. by destruct s. Qed.

(** [sub in s] holds exactly when [s] splits around an occurrence of
    [sub]. *)
Lemma contains_spec (sub s : string) :
  PyStr.contains sub s = true ↔ ∃ a b, s = a +:+ sub +:+ b.
Proof.
  split.
  - induction s as [|c s IH]; rewrite contains_unfold; intros H.
    + rewrite orb_false_r in H. apply prefix_split in H as [b Hb].
      by exists EmptyString, b.
    + apply orb_true_iff in H as [H|H].
      * apply prefix_split in H as [b Hb]. by exists EmptyString, b.
      * destruct (IH H) as (a & b & ->). by exists (String c a), b.
  - intros (a & b & ->). induction a as [|c a IH]; rewrite contains_unfold.
    + apply orb_true_iff. left. apply prefix_split. by exists b.
    + apply orb_true_iff. right. exact IH.
Qed.

(** ** get_pol *)

(** X23. [get_pol] returns one of the four polarizations, one that occurs in
    the name, and "VV" whenever "VV" occurs; it raises, with the name in
    the message, exactly when none of the four occurs. *)
Theorem get_pol_finds (infile : string) :
  match get_pol infile with
  | Ok pol =>
      pol ∈ polarizations ∧ (∃ a b, infile = a +:+ pol +:+ b) ∧
      ((∃ a b, infile = a +:+ "VV" +:+ b) → pol = "VV"%string)
  | Raise e =>
      e = Exception ("Could not determine polarization of file " +:+ infile) ∧
      ∀ pol a b, pol ∈ polarizations → infile ≠ a +:+ pol +:+ b
  end.
Proof.
  unfold get_pol, polarizations.
  destruct (PyStr.contains "VV" infile) eqn:E1.
  { split; [set_solver|]. split; [by apply contains_spec|done]. }
  destruct (PyStr.contains "VH" infile) eqn:E2.
  { split; [set_solver|]. split; [by apply contains_spec|].
    intros Hvv. apply contains_spec in Hvv. congruence. }
  destruct (PyStr.contains "HH" infile) eqn:E3.
  { split; [set_solver|]. split; [by apply contains_spec|].
    intros Hvv. apply contains_spec in Hvv. congruence. }
  destruct (PyStr.contains "HV" infile) eqn:E4.
  { split; [set_solver|]. split; [by apply contains_spec|].
    intros Hvv. apply contains_spec in Hvv. congruence. }
  split; [done|]. intros pol a b Hpol Heq.
  assert (Hc : PyStr.contains pol infile = true)
    by (apply contains_spec; by exists a, b).
  repeat (apply elem_of_cons in Hpol as [->|Hpol]; [congruence|]).
  by apply elem_of_nil in Hpol.
Qed.

Lemma get_pol_finds_witness :
  "VH"%string ∈ polarizations ∧
  (∃ a b, "S1A_20200101_flat_VH.tif"%string = a +:+ "VH" +:+ b) ∧
  ((∃ a b, "S1A_20200101_flat_VH.tif"%string = a +:+ "VV" +:+ b) →
   "VH"%string = "VV"%string).
Proof. exact (get_pol_finds "S1A_20200101_flat_VH.tif"). Defined.

(** ** Names that belong together *)

Lemma prefix_cons (a b : ascii) (p s : string) :
  String.prefix (String a p) (String b s)
  = if ascii_dec a b then String.prefix p s else false.
Proof. reflexivity. Qed.

Lemma replace_go_stem (old new stem tail : string) :
  (∀ s, String.prefix old s = true →
        String.prefix "." s = true ∨ String.prefix "_f" s = true) →
  String.prefix "_" tail = true →
  plain_stem stem = true →
  PyStr.replace_go old new 0 (stem +:+ tail)
  = stem +:+ PyStr.replace_go old new 0 tail.
Proof.
  intros Hold Htail. induction stem as [|c stem IH]; [done|].
  intros Hp. cbn [plain_stem] in Hp.
  apply andb_true_iff in Hp as [Hp Hstem].
  apply andb_true_iff in Hp as [Hdot Hf].
  apply negb_true_iff in Hdot, Hf.
  change (String c stem +:+ tail) with (String c (stem +:+ tail)).
  cbn [PyStr.replace_go].
  destruct (String.prefix old (String c (stem +:+ tail))) eqn:E.
  - exfalso. destruct (Hold _ E) as [H1|H1].
    + rewrite prefix_cons in H1. destruct (ascii_dec "." c) as [<-|]; [|done].
      by rewrite Ascii.eqb_refl in Hdot.
    + rewrite prefix_cons in H1, Hf.
      destruct (ascii_dec "_" c) as [<-|]; [|done].
      destruct stem as [|c' stem].
      2: { change (String c' stem +:+ tail) with (String c' (stem +:+ tail)) in H1.
           rewrite prefix_cons in H1, Hf.
           destruct (ascii_dec "f" c'); [by destruct stem|done]. }
      destruct tail as [|t tail]; [done|].
      change (EmptyString +:+ String t tail) with (String t tail) in H1.
      rewrite prefix_cons in H1, Htail.
      destruct (ascii_dec "_" t) as [<-|]; [|done].
      by destruct (ascii_dec "f" "_").
  - change (String c stem +:+ PyStr.replace_go old new 0 tail)
      with (String c (stem +:+ PyStr.replace_go old new 0 tail)).
    by rewrite (IH Hstem).
Qed.

Lemma append_assoc (a b c : string) : (a +:+ b) +:+ c = a +:+ (b +:+ c).
Proof.
  induction a as [|x a IH]; [done|].
  change (String x ((a +:+ b) +:+ c) = String x (a +:+ (b +:+ c))).
  by rewrite IH.
Qed.

Lemma prefix_prefix (p old s : string) :
  String.prefix p old = true → String.prefix old s = true →
  String.prefix p s = true.
Proof.
  intros [b ->]%prefix_split [b' ->]%prefix_split.
  apply prefix_split. exists (b +:+ b'). apply append_assoc.
Qed.

Lemma contains_app_r (sub s t : string) :
  PyStr.contains sub t = true → PyStr.contains sub (s +:+ t) = true.
Proof.
  intros (a & b & ->)%contains_spec. apply contains_spec.
  exists (s +:+ a), b. symmetry. apply append_assoc.
Qed.

(** X24. For an input named [stem ++ "_flat_VV.tif"], where the stem holds no
    dot and no "_f", the names fit together: the aligned raster is
    [stem ++ "_flat_VV_reproj.tif"], the area raster that is read for it is
    [stem ++ "_area_map.tif"], the aligned area raster that
    [reproject_to_median_utm] creates is the one [make_composite] opens for
    the aligned raster, and the aligned raster passes the test for "VV". *)
Theorem derived_names_agree (stem : string) :
  plain_stem stem = true →
  let fi := stem +:+ "_flat_VV.tif" in
  reproj_name fi = stem +:+ "_flat_VV_reproj.tif" ∧
  area_name fi = stem +:+ "_area_map.tif" ∧
  area_reproj_name fi = stem +:+ "_area_map_reproj.tif" ∧
  aligned_area_name (reproj_name fi) = area_reproj_name fi ∧
  PyStr.contains "VV" (reproj_name fi) = true.
Proof.
  intros Hp fi. subst fi.
  assert (Hdot : ∀ s, String.prefix ".tif" s = true →
                      String.prefix "." s = true ∨ String.prefix "_f" s = true)
    by (intros s Hs; left; exact (prefix_prefix "." ".tif" s eq_refl Hs)).
  assert (Hflat : ∀ s, String.prefix "_flat_VV.tif" s = true →
                       String.prefix "." s = true ∨ String.prefix "_f" s = true)
    by (intros s Hs; right;
        exact (prefix_prefix "_f" "_flat_VV.tif" s eq_refl Hs)).
  assert (Hfr : ∀ s, String.prefix "_flat_VV_reproj" s = true →
                     String.prefix "." s = true ∨ String.prefix "_f" s = true)
    by (intros s Hs; right;
        exact (prefix_prefix "_f" "_flat_VV_reproj" s eq_refl Hs)).
  assert (H1 : reproj_name (stem +:+ "_flat_VV.tif")
               = stem +:+ "_flat_VV_reproj.tif")
    by (unfold reproj_name, PyStr.replace; by rewrite replace_go_stem).
  assert (H3 : area_reproj_name (stem +:+ "_flat_VV.tif")
               = stem +:+ "_area_map_reproj.tif")
    by (unfold area_reproj_name, PyStr.replace; by rewrite replace_go_stem).
  split; [exact H1|]. split; [|split; [exact H3|split]].
  - unfold area_name, PyStr.replace. by rewrite replace_go_stem.
  - rewrite H1, H3. unfold aligned_area_name, PyStr.replace.
    by rewrite replace_go_stem.
  - rewrite H1. by apply contains_app_r.
Qed.

Lemma derived_names_agree_witness :
  let fi := "S1A_IW_20200101T010203_DVP_RTC30"%string +:+ "_flat_VV.tif" in
  reproj_name fi = "S1A_IW_20200101T010203_DVP_RTC30" +:+ "_flat_VV_reproj.tif" ∧
  area_name fi = "S1A_IW_20200101T010203_DVP_RTC30" +:+ "_area_map.tif" ∧
  area_reproj_name fi
    = "S1A_IW_20200101T010203_DVP_RTC30" +:+ "_area_map_reproj.tif" ∧
  aligned_area_name (reproj_name fi) = area_reproj_name fi ∧
  PyStr.contains "VV" (reproj_name fi) = true.
Proof.
  apply (derived_names_agree "S1A_IW_20200101T010203_DVP_RTC30").
  reflexivity.
Defined.

(** ** frange *)

Lemma frange_loop_stuck (fuel : nat) (start stop step : float) :
  (start + step)%float = start →
  ((0 <? step)%float && (stop <=? start)%float = false) →
  ((step <? 0)%float && (start <=? stop)%float = false) →
  frange_loop fuel start stop step = (replicate fuel start, false).
Proof.
  intros Hs H1 H2. induction fuel as [|k IH]; [reflexivity|].
  cbn [frange_loop]. by rewrite H1, H2, Hs, IH.
Qed.

(** X25. When adding the step does not change the start (a step of zero, or a
    step too small for the magnitude of the start) and the start passes
    the two tests of the loop, the generator never ends: in any number of
    rounds it has yielded the same string once per round and has not
    reached [break]. *)
Theorem frange_stuck_never_ends `{Printf} (fuel : nat) (start stop step : float) :
  (start + step)%float = start →
  ((0 <? step)%float && (stop <=? start)%float = false) →
  ((step <? 0)%float && (start <=? stop)%float = false) →
  frange fuel start (Some stop) (Some step)
  = (replicate fuel (format_g start), false).
Proof.
  intros Hs H1 H2. unfold frange, frange_values, frange_args.
  cbn [default from_option id]. cbv beta iota.
  rewrite (frange_loop_stuck fuel start stop step Hs H1 H2).
  by rewrite fmap_replicate.
Qed.

Lemma frange_stuck_never_ends_witness :
  @frange {| format_g := λ _, "x"%string |} 1000
    0x1p+60%float (Some 0x1p+61%float) (Some 1%float)
  = (replicate 1000 "x"%string, false).
Proof.
  apply (@frange_stuck_never_ends {| format_g := λ _, "x"%string |} 1000
           0x1p+60%float 0x1p+61%float 1%float); reflexivity.
Defined.

Lemma frange_loop_unsigned (fuel : nat) (start stop step : float) :
  (0 <? step)%float = false → (step <? 0)%float = false →
  (frange_loop fuel start stop step).2 = false ∧
  length (frange_loop fuel start stop step).1 = fuel.
Proof.
  intros H1 H2. revert start. induction fuel as [|k IH]; intros start; [done|].
  cbn [frange_loop]. rewrite H1, H2. cbn [andb].
  destruct (IH (start + step)%float) as [Hf Hl].
  destruct (frange_loop k (start + step) stop step) as [l f]. cbn in *.
  by rewrite Hl.
Qed.

(** X26. With a step that is neither above nor below zero (0.0, -0.0 or NaN)
    neither test of the loop can hold, whatever start and stop are: every
    round yields, and [break] is never reached. *)
Theorem frange_unsigned_step_never_ends `{Printf} (fuel : nat)
    (start : float) (stop : option float) (step : float) :
  (0 <? step)%float = false → (step <? 0)%float = false →
  (frange fuel start stop (Some step)).2 = false ∧
  length (frange fuel start stop (Some step)).1 = fuel.
Proof.
  intros H1 H2. unfold frange, frange_values, frange_args. cbn [default from_option id].
  destruct stop as [stop|]; cbv beta iota.
  - destruct (frange_loop_unsigned fuel start stop step H1 H2) as [Hf Hl].
    destruct (frange_loop fuel start stop step) as [l f]. cbn in *.
    by rewrite length_fmap.
  - destruct (frange_loop_unsigned fuel 0%float (start + 0)%float step H1 H2)
      as [Hf Hl].
    destruct (frange_loop fuel 0 (start + 0) step) as [l f]. cbn in *.
    by rewrite length_fmap.
Qed.

Lemma frange_unsigned_step_never_ends_witness :
  (@frange {| format_g := λ _, "x"%string |} 50 3%float None (Some 0%float)).2
    = false ∧
  length (@frange {| format_g := λ _, "x"%string |} 50 3%float None
            (Some 0%float)).1 = 50%nat.
Proof.
  apply (@frange_unsigned_step_never_ends {| format_g := λ _, "x"%string |} 50
           3%float None 0%float); reflexivity.
Defined.

Lemma frange_loop_before_stop (fuel : nat) (start stop step : float) (v : float) :
  v ∈ (frange_loop fuel start stop step).1 →
  ((0 <? step)%float = true → (stop <=? v)%float = false) ∧
  ((step <? 0)%float = true → (v <=? stop)%float = false).
Proof.
  revert start. induction fuel as [|k IH]; intros start; cbn [frange_loop].
  - intros Hv. by apply elem_of_nil in Hv.
  - destruct ((0 <? step)%float && (stop <=? start)%float) eqn:E1;
      [intros Hv; by apply elem_of_nil in Hv|].
    destruct ((step <? 0)%float && (start <=? stop)%float) eqn:E2;
      [intros Hv; by apply elem_of_nil in Hv|].
    specialize (IH (start + step)%float).
    destruct (frange_loop k (start + step) stop step) as [l f]. cbn in *.
    intros [->|Hv]%elem_of_cons; [|by apply IH].
    split; intros Hstep; rewrite Hstep in *; cbn in *; done.
Qed.

(** X27. Every number the generator yields has passed the test of its
    direction: with a positive step no yielded number has reached [stop]
    ([stop <= v] is false), with a negative step none has come down to it
    ([v <= stop] is false), in any number of rounds. *)
Theorem frange_yields_before_stop (fuel : nat) (start stop step : float)
    (v : float) :
  v ∈ (frange_values fuel start (Some stop) (Some step)).1 →
  ((0 <? step)%float = true → (stop <=? v)%float = false) ∧
  ((step <? 0)%float = true → (v <=? stop)%float = false).
Proof. apply frange_loop_before_stop. Qed.

Lemma frange_yields_before_stop_witness :
  ((0 <? 0.5)%float = true → (2 <=? 1.5)%float = false) ∧
  ((0.5 <? 0)%float = true → (1.5 <=? 2)%float = false).
Proof.
  apply (frange_yields_before_stop 10 0%float 2%float 0.5%float 1.5%float).
  vm_compute. apply elem_of_cons. right. apply elem_of_cons. right.
  apply elem_of_cons. right. apply elem_of_cons. by left.
Defined.

(** ** The exceptions of a run *)

Lemma rw_ok {A : Type} (E : list exn) (m : M A) :
  (∀ st, ∃ a, (m st).1 = Ok a) → raises_within E m.
Proof. intros H st e He. destruct (H st) as [a Ha]. congruence. Qed.

Lemma rw_raise {A : Type} (E : list exn) (e : exn) :
  e ∈ E → raises_within E (raise (A:=A) e).
Proof. intros He st e' [= <-]. exact He. Qed.

Lemma rw_bind {A B : Type} (E : list exn) (m : M A) (f : A → M B) :
  raises_within E m →
  (∀ a st st1, m st = (Ok a, st1) → raises_within E (f a)) →
  raises_within E (m ≫= f).
Proof.
  intros Hm Hf st e. unfold mbind, M_bind.
  specialize (Hm st). destruct (m st) as [[a|e'] st1] eqn:Em; cbn in *.
  - apply (Hf a st st1 Em).
  - intros [= <-]. by apply Hm.
Qed.

Lemma rw_read_gdal_file_geo (E : list exn) (fi : string) :
  AttributeError ∈ E → raises_within E (read_gdal_file_geo fi).
Proof.
  intros HE st e. unfold read_gdal_file_geo.
  destruct (gdal_Open st fi); cbn; [done|]. by intros [= <-].
Qed.

Lemma rw_read_gdal_file (E : list exn) (fi : string) :
  AttributeError ∈ E → Exception "integer band read as input" ∈ E →
  raises_within E (read_gdal_file fi).
Proof.
  intros HE HX st e. unfold read_gdal_file.
  destruct (gdal_Open st fi) as [d|]; cbn; [|by intros [= <-]].
  destruct (GetRasterBand d); cbn; [done|done|by intros [= <-]].
Qed.

Lemma rw_parse_utm (E : list exn) (fi : string) :
  AttributeError ∈ E → raises_within E (parse_utm fi).
Proof.
  intros HE st e. unfold parse_utm.
  destruct (gdal_Open st fi) as [d|]; cbn; [|by intros [= <-]].
  destruct (PyStr.find_suffix _ _); cbn; [|done].
  destruct (re_search_digits_any _) as [[? ?]|]; cbn; [done|by intros [= <-]].
Qed.

Lemma rw_read_corners `{External} (E : list exn) (fi : string) :
  AttributeError ∈ E → raises_within E (read_corners fi).
Proof.
  intros HE st e. unfold read_corners.
  destruct (gdal_Open st fi) as [d|]; cbn; [|by intros [= <-]].
  by destruct (saa_getCorners d) as [[[? ?] ?] ?].
Qed.

Lemma rw_py_div (E : list exn) (a b : float) :
  ZeroDivisionError ∈ E → raises_within E (py_div a b).
Proof.
  intros HE st e. unfold py_div.
  destruct (b =? 0)%float; cbn; [by intros [= <-]|done].
Qed.

Lemma rw_py_int (E : list exn) (f : float) :
  ValueError ∈ E → OverflowError ∈ E → raises_within E (lift (Num.py_int f)).
Proof.
  intros HV HO st e. unfold lift, Num.py_int. cbn.
  destruct (Prim2SF f); cbn; first [done|by intros [= <-]].
Qed.

Lemma rw_write_gdal_file_float (E : list exn) (name : string)
    (trans : geotransform) (proj : string) (data : ndarray float)
    (nodata : float) :
  AttributeError ∈ E →
  raises_within E (write_gdal_file_float name trans proj data nodata).
Proof.
  intros HA st e. unfold write_gdal_file_float.
  destruct (gdal_can_create st name data); cbn; [done|by intros [= <-]].
Qed.

Lemma rw_write_gdal_file (E : list exn) (name : string)
    (trans : geotransform) (proj : string) (data : ndarray Z) :
  AttributeError ∈ E → raises_within E (write_gdal_file name trans proj data).
Proof.
  intros HA st e. unfold write_gdal_file.
  destruct (gdal_can_create st name data); cbn; [done|by intros [= <-]].
Qed.

Lemma rw_os_symlink (E : list exn) (src dst : string) :
  FileExistsError ∈ E → raises_within E (os_symlink src dst).
Proof.
  intros HE st e. unfold os_symlink.
  destruct (st !! dst); cbn; [by intros [= <-]|done].
Qed.

Lemma rw_gdal_Warp `{External} (E : list exn) (dst src : string)
    (srs : option string) (res : Qc) :
  raises_within E (gdal_Warp dst src srs res).
Proof.
  apply rw_ok. intros st. exists (). unfold gdal_Warp.
  destruct (gdal_Open st src); [|done]. by destruct (directory_exists st dst).
Qed.

Lemma accumulate_raises (p : placement) (g : grids) (e : exn) :
  accumulate p g = Raise e → e = ValueError.
Proof.
  unfold accumulate, weighted_values, Np.broadcast2, Np.iop_slice,
    mbind, result_bind, mret, result_ret.
  repeat case_match; congruence.
Qed.

Lemma rw_get_zone_from_proj (E : list exn) (fi : string) :
  AttributeError ∈ E → raises_within E (get_zone_from_proj fi).
Proof.
  intros HE. apply rw_bind; [by apply rw_parse_utm|].
  intros. apply rw_ok. by eexists.
Qed.

Lemma rw_get_hemisphere (E : list exn) (fi : string) :
  AttributeError ∈ E → raises_within E (get_hemisphere fi).
Proof.
  intros HE. apply rw_bind; [by apply rw_parse_utm|].
  intros. apply rw_ok. by eexists.
Qed.

Lemma rw_get_max_pixel_size_from (E : list exn) (files : list string) (s : Qc) :
  AttributeError ∈ E → raises_within E (get_max_pixel_size_from s files).
Proof.
  intros HE. revert s. induction files as [|fi files IH]; intros s.
  - apply rw_ok. by eexists.
  - cbn [get_max_pixel_size_from].
    apply rw_bind; [by apply rw_read_gdal_file_geo|].
    intros [[[x1 y1] t1] p1] _ _ _. apply IH.
Qed.

Lemma rw_parse_zones_list (E : list exn) (files : list string) :
  AttributeError ∈ E → raises_within E (parse_zones_list files).
Proof.
  intros HE. induction files as [|fi files IH].
  - apply rw_ok. by eexists.
  - cbn [parse_zones_list].
    apply rw_bind; [by apply rw_get_zone_from_proj|]. intros zone _ _ _.
    apply rw_bind; [exact IH|]. intros. apply rw_ok. by eexists.
Qed.

Lemma rw_mapM {A B : Type} (E : list exn) (f : A → M B) (l : list A) :
  (∀ x, raises_within E (f x)) → raises_within E (mapM f l).
Proof.
  intros Hf. induction l as [|x l IH].
  - apply rw_ok. by eexists.
  - cbn [mapM]. apply rw_bind; [apply Hf|]. intros y _ _ _.
    apply rw_bind; [exact IH|]. intros. apply rw_ok. by eexists.
Qed.

Lemma rw_reproject_file `{External} (E : list exn) (pix_size : Qc)
    (home_zone : option Qc) (hemi : option string) (fi : string) :
  AttributeError ∈ E → ValueError ∈ E → FileExistsError ∈ E →
  raises_within E (reproject_file pix_size home_zone hemi fi).
Proof.
  intros HA HV HF. unfold reproject_file.
  apply rw_bind; [by apply rw_get_zone_from_proj|]. intros my_zone _ _ _.
  apply rw_bind; [|intros; apply rw_ok; by eexists].
  destruct (zone_differs my_zone home_zone).
  - apply rw_bind.
    { unfold epsg_code. destruct home_zone; [apply rw_ok; by eexists|].
      by apply rw_raise. }
    intros proj _ _ _. apply rw_bind; [apply rw_gdal_Warp|].
    intros. apply rw_gdal_Warp.
  - apply rw_bind; [by apply rw_read_gdal_file_geo|].
    intros [[[x y] trans] proj] _ _ _.
    destruct (Num.ltb (Num.of_Z x) pix_size).
    + apply rw_bind; [apply rw_gdal_Warp|]. intros. apply rw_gdal_Warp.
    + apply rw_bind; [by apply rw_os_symlink|]. intros. by apply rw_os_symlink.
Qed.

Lemma rw_reproject `{External} (E : list exn) (files : list string)
    (resolution : option Qc) :
  AttributeError ∈ E → ValueError ∈ E → FileExistsError ∈ E →
  raises_within E (reproject_to_median_utm files resolution).
Proof.
  intros HA HV HF. unfold reproject_to_median_utm.
  destruct (length files <? 2)%nat eqn:El; [apply rw_ok; by eexists|].
  apply rw_bind.
  { unfold target_pixel_size, get_max_pixel_size.
    destruct resolution as [r|]; [destruct (Num.truthy r)|];
      first [apply rw_ok; by eexists|by apply rw_get_max_pixel_size_from]. }
  intros pix _ _ _. apply rw_bind.
  { unfold parse_zones. apply rw_bind; [by apply rw_parse_zones_list|].
    intros. apply rw_ok. by eexists. }
  intros zones _ _ _. apply rw_bind.
  { destruct files as [|f0 files]; [discriminate|by apply rw_get_hemisphere]. }
  intros hemi _ _ _. apply rw_bind; [|intros; apply rw_ok; by eexists].
  apply rw_mapM. intros fi. by apply rw_reproject_file.
Qed.

Lemma reproject_ok_nonempty `{External} (files : list string)
    (resolution : option Qc) (st st' : store) :
  reproject_to_median_utm files resolution st ≠ (Ok (Some []), st').
Proof.
  intros Hr. unfold reproject_to_median_utm in Hr.
  destruct (length files <? 2)%nat eqn:El; [discriminate|].
  apply bind_ok in Hr as (pix & st1 & _ & Hr).
  apply bind_ok in Hr as (zones & st2 & _ & Hr).
  apply bind_ok in Hr as (hemi & st3 & _ & Hr).
  apply bind_ok in Hr as (new_files & st4 & Hm & Hr).
  injection Hr as -> _.
  destruct files as [|f0 files]; [discriminate|].
  cbn [mapM] in Hm.
  apply bind_ok in Hm as (y & st5 & _ & Hm).
  apply bind_ok in Hm as (k & st6 & _ & Hm). discriminate.
Qed.

Lemma rw_grid_length (E : list exn) (a b px : Qc) :
  ValueError ∈ E → ZeroDivisionError ∈ E → OverflowError ∈ E →
  raises_within E (grid_length a b px).
Proof.
  intros HV HZ HO. unfold grid_length.
  apply rw_bind; [by apply rw_py_div|]. intros q _ _ _.
  apply rw_bind; [by apply rw_py_int|]. intros. apply rw_ok. by eexists.
Qed.

Lemma rw_read_placement (E : list exn) (ulx uly px py : Qc) (c : corner) :
  AttributeError ∈ E → ValueError ∈ E → ZeroDivisionError ∈ E →
  OverflowError ∈ E → Exception "integer band read as input" ∈ E →
  raises_within E (read_placement ulx uly px py c).
Proof.
  intros HA HV HZ HO HX. destruct c as [[[[fi x_max] x_min] y_max] y_min].
  unfold read_placement.
  apply rw_bind; [by apply rw_read_gdal_file|].
  intros [[[[? ?] ?] ?] [ta areas]] _ _ _.
  apply rw_bind; [by apply rw_read_gdal_file|].
  intros [[[[? ?] ?] ?] [tv values]] _ _ _.
  apply rw_bind; [by apply rw_py_div|]. intros ox _ _ _.
  apply rw_bind; [by apply rw_py_div|]. intros oy _ _ _.
  apply rw_bind; [by apply rw_py_int|]. intros c0 _ _ _.
  apply rw_bind; [by apply rw_py_int|]. intros c1 _ _ _.
  apply rw_bind; [by apply rw_py_int|]. intros r0 _ _ _.
  apply rw_bind; [by apply rw_py_int|]. intros. apply rw_ok. by eexists.
Qed.

Lemma rw_accumulate_files (E : list exn) (ulx uly px py : Qc)
    (extents : list corner) (g : grids) (trans : geotransform) (proj : string) :
  AttributeError ∈ E → ValueError ∈ E → ZeroDivisionError ∈ E →
  OverflowError ∈ E → Exception "integer band read as input" ∈ E →
  raises_within E (accumulate_files ulx uly px py extents g trans proj).
Proof.
  intros HA HV HZ HO HX. revert g trans proj.
  induction extents as [|[[[[fi x_max] x_min] y_max] y_min] extents IH];
    intros g trans proj; cbn [accumulate_files fst].
  - apply rw_ok. by eexists.
  - destruct (PyStr.contains "VV" fi); [|apply IH].
    apply rw_bind; [by apply rw_read_placement|].
    intros [[p t1] p1] _ _ _. apply rw_bind.
    { intros st e. unfold lift. cbn. intros He.
      apply accumulate_raises in He as ->. exact HV. }
    intros g1 _ _ _. apply rw_bind; [by apply rw_write_gdal_file_float|].
    intros. apply IH.
Qed.

(** The part of [make_composite] that follows the block "Establish input
    file list". *)
Lemma rw_make_composite `{External} (outfile : string)
    (infiles : option (list string)) (path requested_pol : option string)
    (resolution : option Qc) (inputs : option (list string)) (st : store)
    (e : exn) :
  input_files infiles path (default "VV"%string requested_pol) = Ok inputs →
  (make_composite outfile infiles path requested_pol resolution st).1 = Raise e →
  e ∈ composite_exceptions.
Proof.
  intros Hin. unfold make_composite. rewrite Hin.
  unfold mbind at 1. unfold M_bind at 1. unfold lift. cbv beta iota.
  revert st e.
  match goal with
  | |- ∀ st e, (?m st).1 = Raise e → _ =>
      change (raises_within composite_exceptions m)
  end.
  assert (HT : TypeError ∈ composite_exceptions)
    by (unfold composite_exceptions; repeat constructor).
  assert (HA : AttributeError ∈ composite_exceptions)
    by (unfold composite_exceptions; repeat constructor).
  assert (HV : ValueError ∈ composite_exceptions)
    by (unfold composite_exceptions; repeat constructor).
  assert (HZ : ZeroDivisionError ∈ composite_exceptions)
    by (unfold composite_exceptions; repeat constructor).
  assert (HO : OverflowError ∈ composite_exceptions)
    by (unfold composite_exceptions; repeat constructor).
  assert (HF : FileExistsError ∈ composite_exceptions)
    by (unfold composite_exceptions; repeat constructor).
  assert (HX : Exception "integer band read as input" ∈ composite_exceptions)
    by (unfold composite_exceptions; repeat constructor).
  destruct inputs as [files|]; [|by apply rw_raise].
  apply rw_bind; [by apply rw_reproject|].
  intros [[|f0 fs]|] st0 st1 Hrep; [|clear Hrep|by apply rw_raise].
  { by apply reproject_ok_nonempty in Hrep. }
  apply rw_bind; [by apply rw_read_gdal_file_geo|].
  intros [[[x y] trans] proj] _ _ _.
  apply rw_bind; [apply rw_mapM; intros fi; by apply rw_read_corners|].
  intros extents _ _ _.
  destruct (get_full_extent extents) as [[[ulx lrx] uly] lry].
  apply rw_bind.
  { unfold grid_dims.
    apply rw_bind; [by apply rw_grid_length|]. intros xp _ _ _.
    apply rw_bind; [by apply rw_grid_length|]. intros. apply rw_ok. by eexists. }
  intros [x_pixels y_pixels] _ _ _.
  apply rw_bind; [by apply rw_accumulate_files|].
  intros [[g' trans'] proj'] _ _ _.
  destruct (finalize g') as [composite coverage].
  apply rw_bind; [by apply rw_write_gdal_file_float|].
  intros. by apply rw_write_gdal_file.
Qed.


